(** * audiovis: ring buffer, FFT processor and spectrum analyzer

    A shallow embedding of the audio-to-spectrum pipeline of audiovis
    (include/audiovis/ring_buffer.hpp, src/fft_processor.cpp,
    src/spectrum_analyzer.cpp) together with the properties its
    specification states about it.

    Conventions.
    - [std::size_t] is a 64-bit unsigned integer: a [Z] in [0, 2^64) whose
      arithmetic is wrapped explicitly with [wrap].
    - [float] is IEEE-754 binary32, modelled by [spec_float] with
      precision 24 and maximal exponent 128; every operation rounds to
      nearest even on its own (no fused multiply-add).
    - Arrays and vectors are lists; [buf[i] = v] is stdpp's [<[i:=v]>] and
      a read is [nth].  The indices the code computes are shown to be in
      range wherever a property depends on it.
    - Library calls whose results the C++ source does not determine (libm's
      [cos], [log10], [pow], the FFTW allocator, planner and transform,
      PortAudio, the float-to-integer cast of an out-of-range value) are
      the fields of a [Platform]; the definitions that make such calls take
      the platform as a parameter and the properties hold for every one. *)

From Stdlib Require Import ZArith Lia Bool String.
From Stdlib Require Import Floats.SpecFloat.
From stdpp Require Import base list.

Local Open Scope Z_scope.

(** * Part I: the model *)

(** ** 64-bit unsigned arithmetic *)

Module SizeT.

Definition width : Z := 64.
Definition modulus : Z := 2 ^ width.

(** Reduction of a mathematical integer to its [std::size_t] value. *)
Definition wrap (x : Z) : Z := x mod modulus.

Definition in_range (x : Z) : Prop := 0 <= x < modulus.

End SizeT.

Import SizeT.

(** ** Powers of two *)

Definition is_power_of_two (n : Z) : Prop := exists k, 0 <= k /\ n = 2 ^ k.

(** [smallest_power_of_two_ge m c]: [c] is the least power of two that is
    at least [m]. *)
Definition smallest_power_of_two_ge (m c : Z) : Prop :=
  is_power_of_two c /\ m <= c /\
  forall c', is_power_of_two c' -> m <= c' -> c <= c'.

(** ** ring_buffer.hpp *)

(** [RingBuffer::next_power_of_two]; [smear k] is the line [n |= n >> k]. *)
Definition smear (k n : Z) : Z := Z.lor n (Z.shiftr n k).

Definition next_power_of_two (n : Z) : Z :=
  if n =? 0 then 1
  else
    let n := wrap (n - 1) in
    let n := smear 1 n in
    let n := smear 2 n in
    let n := smear 4 n in
    let n := smear 8 n in
    let n := smear 16 n in
    let n := smear 32 n in
    wrap (n + 1).

(** What the smearing has reached after some of its lines.
    [covers m d x]: bit [i] of [x] is set exactly when one of the [d] bits
    of [m] from [i] upwards is. *)
Definition covers (m d x : Z) : Prop :=
  forall i, 0 <= i ->
    Z.testbit x i = true <-> exists j, i <= j < i + d /\ Z.testbit m j = true.

(** The members of [RingBuffer<T>].  The two atomics are plain fields:
    every property below is about sequential executions. *)
Record RingBuffer (T : Type) : Type := mkRingBuffer {
  capacity_ : Z;
  mask_ : Z;
  buffer_ : list T;
  write_pos_ : Z;
  read_pos_ : Z
}.

Arguments mkRingBuffer {T}.
Arguments capacity_ {T}.
Arguments mask_ {T}.
Arguments buffer_ {T}.
Arguments write_pos_ {T}.
Arguments read_pos_ {T}.

Section RingBufferOps.
Context {T : Type}.
(** The value of a value-initialised [T] ([std::make_unique<T[]>]). *)
Variable zero : T.

Definition store_write_pos (rb : RingBuffer T) (w : Z) : RingBuffer T :=
  mkRingBuffer (capacity_ rb) (mask_ rb) (buffer_ rb) w (read_pos_ rb).

Definition store_read_pos (rb : RingBuffer T) (r : Z) : RingBuffer T :=
  mkRingBuffer (capacity_ rb) (mask_ rb) (buffer_ rb) (write_pos_ rb) r.

Definition store_buffer (rb : RingBuffer T) (b : list T) : RingBuffer T :=
  mkRingBuffer (capacity_ rb) (mask_ rb) b (write_pos_ rb) (read_pos_ rb).

(** [pos & mask_] as an index into [buffer_]. *)
Definition slot_of (rb : RingBuffer T) (pos : Z) : nat :=
  Z.to_nat (Z.land pos (mask_ rb)).

(** [buffer_[pos & mask_]]. *)
Definition buffer_at (rb : RingBuffer T) (pos : Z) : T :=
  nth (slot_of rb pos) (buffer_ rb) zero.

(** The constructor.  [None] is the failure of its [assert]. *)
Definition RingBuffer_new (min_capacity : Z) : option (RingBuffer T) :=
  let capacity := next_power_of_two min_capacity in
  let mask := wrap (capacity - 1) in
  let buffer := replicate (Z.to_nat capacity) zero in
  if (0 <? capacity) && (Z.land capacity mask =? 0)
  then Some (mkRingBuffer capacity mask buffer 0 0)
  else None.

Definition capacity (rb : RingBuffer T) : Z := capacity_ rb.

Definition size (rb : RingBuffer T) : Z :=
  let w := write_pos_ rb in
  let r := read_pos_ rb in
  wrap (w - r).

Definition available (rb : RingBuffer T) : Z := wrap (capacity_ rb - size rb).

Definition empty (rb : RingBuffer T) : bool := size rb =? 0.

Definition full (rb : RingBuffer T) : bool := size rb =? capacity_ rb.

(** [bool try_push(const T& value)] *)
Definition try_push (rb : RingBuffer T) (value : T) : bool * RingBuffer T :=
  let w := write_pos_ rb in
  let r := read_pos_ rb in
  if wrap (w - r) >=? capacity_ rb then (false, rb)
  else
    let rb := store_buffer rb (<[slot_of rb w := value]> (buffer_ rb)) in
    (true, store_write_pos rb (wrap (w + 1))).

(** [std::size_t try_push(std::span<const T> data)] *)
Definition try_push_span (rb : RingBuffer T) (data : list T) : Z * RingBuffer T :=
  let w := write_pos_ rb in
  let r := read_pos_ rb in
  let avail := wrap (capacity_ rb - wrap (w - r)) in
  let to_write := Z.min avail (Z.of_nat (length data)) in
  let buffer :=
    foldl (fun b i => <[slot_of rb (wrap (w + Z.of_nat i)) := nth i data zero]> b)
          (buffer_ rb) (seq 0 (Z.to_nat to_write)) in
  (to_write, store_write_pos (store_buffer rb buffer) (wrap (w + to_write))).

(** [void push_overwrite(const T& value)] *)
Definition push_overwrite (rb : RingBuffer T) (value : T) : RingBuffer T :=
  let w := write_pos_ rb in
  let rb := store_buffer rb (<[slot_of rb w := value]> (buffer_ rb)) in
  let rb := store_write_pos rb (wrap (w + 1)) in
  let r := read_pos_ rb in
  if wrap (wrap (w + 1) - r) >? capacity_ rb
  then store_read_pos rb (wrap (wrap (w + 1) - capacity_ rb))
  else rb.

(** [bool try_pop(T& out)]: the result, the new [out] and the buffer. *)
Definition try_pop (rb : RingBuffer T) (out : T) : bool * T * RingBuffer T :=
  let r := read_pos_ rb in
  let w := write_pos_ rb in
  if r >=? w then (false, out, rb)
  else (true, buffer_at rb r, store_read_pos rb (wrap (r + 1))).

(** The copy loop shared by the span [try_pop] and [peek]:
    [out[i] = buffer_[(r + i) & mask_]] for [i < count]. *)
Definition copy_out (rb : RingBuffer T) (r : Z) (count : Z) (out : list T) : list T :=
  foldl (fun o i => <[i := buffer_at rb (wrap (r + Z.of_nat i))]> o)
        out (seq 0 (Z.to_nat count)).

(** [std::size_t try_pop(std::span<T> out)] *)
Definition try_pop_span (rb : RingBuffer T) (out : list T) : Z * list T * RingBuffer T :=
  let r := read_pos_ rb in
  let w := write_pos_ rb in
  let available := wrap (w - r) in
  let to_read := Z.min available (Z.of_nat (length out)) in
  (to_read, copy_out rb r to_read out, store_read_pos rb (wrap (r + to_read))).

(** [std::size_t peek(std::span<T> out) const] *)
Definition peek (rb : RingBuffer T) (out : list T) : Z * list T :=
  let r := read_pos_ rb in
  let w := write_pos_ rb in
  let available := wrap (w - r) in
  let to_copy := Z.min available (Z.of_nat (length out)) in
  (to_copy, copy_out rb r to_copy out).

(** [std::size_t discard(std::size_t count)] *)
Definition discard (rb : RingBuffer T) (count : Z) : Z * RingBuffer T :=
  let r := read_pos_ rb in
  let w := write_pos_ rb in
  let available := wrap (w - r) in
  let to_discard := Z.min available count in
  (to_discard, store_read_pos rb (wrap (r + to_discard))).

(** [void clear()] *)
Definition clear (rb : RingBuffer T) : RingBuffer T :=
  let w := write_pos_ rb in
  store_read_pos rb w.

(** *** What a buffer holds *)

(** The pending elements, oldest first: the slots of the positions
    [read_pos_, read_pos_ + 1, ...] below [write_pos_]. *)
Definition contents (rb : RingBuffer T) : list T :=
  map (fun i => buffer_at rb (wrap (read_pos_ rb + Z.of_nat i)))
      (seq 0 (Z.to_nat (size rb))).

(** The array cell of position [p], and the cells of [n] successive
    positions from [p] on. *)
Definition cell (mask : Z) (b : list T) (p : Z) : T :=
  nth (Z.to_nat (Z.land (wrap p) mask)) b zero.

Definition view (mask : Z) (b : list T) (p : Z) (n : nat) : list T :=
  map (fun i => cell mask b (p + Z.of_nat i)) (seq 0 n).

(** The class invariant: the capacity is a power of two that fits a
    [std::size_t], the mask and the array match it, and at most
    [capacity_] elements are pending. *)
Definition wf (rb : RingBuffer T) : Prop :=
  exists k, 0 <= k <= 63 /\
    capacity_ rb = 2 ^ k /\ mask_ rb = 2 ^ k - 1 /\
    Z.of_nat (length (buffer_ rb)) = 2 ^ k /\
    in_range (write_pos_ rb) /\ in_range (read_pos_ rb) /\
    size rb <= capacity_ rb.

(** *** Sequential executions *)

(** One call of the producer or of the consumer.  A pop carries the
    previous contents of its output argument. *)
Inductive op : Type :=
  | OpPush (value : T)
  | OpPushSpan (data : list T)
  | OpPop (out : T)
  | OpPopSpan (out : list T).

(** The buffer, the values the pushes accepted so far and the values the
    pops returned so far. *)
Definition run_state : Type := RingBuffer T * list T * list T.

Definition step (st : run_state) (o : op) : run_state :=
  let '(rb, pushed, popped) := st in
  match o with
  | OpPush v =>
      let '(ok, rb') := try_push rb v in
      (rb', if ok then pushed ++ [v] else pushed, popped)
  | OpPushSpan data =>
      let '(n, rb') := try_push_span rb data in
      (rb', pushed ++ take (Z.to_nat n) data, popped)
  | OpPop out =>
      let '(ok, out', rb') := try_pop rb out in
      (rb', pushed, if ok then popped ++ [out'] else popped)
  | OpPopSpan out =>
      let '(n, out', rb') := try_pop_span rb out in
      (rb', pushed, popped ++ take (Z.to_nat n) out')
  end.

Definition run (rb : RingBuffer T) (ops : list op) : run_state :=
  foldl step (rb, [], []) ops.

(** [try_push] of each value in turn. *)
Definition push_all (rb : RingBuffer T) (vs : list T) : RingBuffer T :=
  foldl (fun rb v => snd (try_push rb v)) rb vs.

(** [push_overwrite] of each value in turn. *)
Definition overwrite_all (rb : RingBuffer T) (vs : list T) : RingBuffer T :=
  foldl push_overwrite rb vs.

(** [n] successive calls of the single-element [try_pop]; the values of
    the calls that returned [true], in order. *)
Fixpoint pop_n (n : nat) (rb : RingBuffer T) : list T * RingBuffer T :=
  match n with
  | O => ([], rb)
  | S n' =>
      let '(ok, v, rb') := try_pop rb zero in
      let '(vs, rb'') := pop_n n' rb' in
      (if ok then v :: vs else vs, rb'')
  end.

(** [n] rounds of one [try_push] of [v] followed by one [try_pop]: what a
    producer and a consumer that keep pace do to the counters. *)
Definition churn (v : T) (n : nat) (rb : RingBuffer T) : RingBuffer T :=
  Nat.iter n (fun rb => snd (try_pop (snd (try_push rb v)) v)) rb.

End RingBufferOps.

(** ** IEEE-754 binary32 *)

Module F32.

Definition prec : Z := 24.
Definition emax : Z := 128.

Definition float : Type := spec_float.

Definition zero : float := S754_zero false.

(** [static_cast<float>] of an integer: rounded to nearest even. *)
Definition of_Z (z : Z) : float := binary_normalize prec emax z 0 false.

(** The decimal literal [m * 10^-e], correctly rounded. *)
Definition dec (m : positive) (e : Z) : float :=
  SFdiv prec emax (S754_finite false m 0) (S754_finite false (Z.to_pos (10 ^ e)) 0).

Definition one : float := of_Z 1.
Definition two : float := of_Z 2.
Definition half : float := dec 5 1.

(** [std::numbers::pi_v<float>], the binary32 value nearest to pi. *)
Definition pi : float := S754_finite false 13176795 (-22).

Definition add : float -> float -> float := SFadd prec emax.
Definition sub : float -> float -> float := SFsub prec emax.
Definition mul : float -> float -> float := SFmul prec emax.
Definition div : float -> float -> float := SFdiv prec emax.
Definition sqrt : float -> float := SFsqrt prec emax.
Definition abs : float -> float := SFabs.

Definition ltb : float -> float -> bool := SFltb.
Definition gtb (x y : float) : bool := SFltb y x.

(** [std::max(a, b)] is [(a < b) ? b : a]. *)
Definition max (a b : float) : float := if ltb a b then b else a.

(** [std::clamp(v, lo, hi)] is [(v < lo) ? lo : (hi < v) ? hi : v]. *)
Definition clamp (v lo hi : float) : float :=
  if ltb v lo then lo else if ltb hi v then hi else v.

(** The integer a finite value truncates to. *)
Definition trunc (x : float) : option Z :=
  match x with
  | S754_zero _ => Some 0
  | S754_finite s m e =>
      let a := if 0 <=? e then Zpos m * 2 ^ e else Zpos m / 2 ^ (- e) in
      Some (if s then - a else a)
  | _ => None
  end.



End F32.

Abbreviation float := F32.float.

(** *** Non-negative binary32 values as integers *)











(** ** What the platform decides *)

(** The results of the calls whose values the C++ source does not fix:
    libm, the conversion of an out-of-range [float] to [std::size_t],
    FFTW and PortAudio. *)
Record Platform : Type := mkPlatform {
  cosf : float -> float;
  log10f : float -> float;
  powf : float -> float -> float;
  cast_unspecified : float -> Z;
  (** whether [fftwf_alloc_real(n)] and [fftwf_alloc_complex(n)] return
      memory, and what a freshly allocated [float] holds *)
  fftwf_alloc_real : Z -> bool;
  fftwf_alloc_complex : Z -> bool;
  uninitialised : float;
  (** whether [fftwf_plan_dft_r2c_1d(n, ...)] returns a plan *)
  fftwf_plan_dft_r2c_1d : Z -> bool;
  (** the output bins [fftwf_execute] writes for an input buffer *)
  fftwf_execute : list float -> list (float * float);
  (** [None] is [paNoDevice] *)
  Pa_GetDefaultInputDevice : option Z;
  (** the device's name; [None] is [nullptr] *)
  Pa_GetDeviceInfo : Z -> option string;
  (** sample rate, channels, frames per buffer; [None] is [paNoError],
      otherwise the text of [Pa_GetErrorText] *)
  Pa_OpenStream : Z -> Z -> Z -> option string
}.

(** [static_cast<std::size_t>] of a [float]: truncation when the result
    fits, unspecified otherwise. *)
Definition size_t_of_float (P : Platform) (x : float) : Z :=
  match F32.trunc x with
  | Some z => if (0 <=? z) && (z <? modulus) then z else wrap (cast_unspecified P x)
  | None => wrap (cast_unspecified P x)
  end.

(** [static_cast<int>] of a [std::size_t]. *)
Definition int_of_size_t (x : Z) : Z :=
  let y := x mod 2 ^ 32 in
  if y <? 2 ^ 31 then y else y - 2 ^ 32.

(** ** How a call ends *)

Inductive exception : Type :=
  | invalid_argument (what : string)
  | runtime_error (what : string).

(** A value, a thrown exception, or the end of the program (a failed
    [assert], a trap). *)
Inductive outcome (A : Type) : Type :=
  | Ok (a : A)
  | Throw (e : exception)
  | Abort.

Arguments Ok {A}.
Arguments Throw {A}.
Arguments Abort {A}.

(** [vector::resize(n, v)]. *)
Definition resize {A : Type} (n : nat) (v : A) (l : list A) : list A :=
  take n l ++ replicate (n - length l) v.

(** [std::clamp] and [std::min] on [std::size_t]. *)
Definition clamp_size_t (v lo hi : Z) : Z :=
  if v <? lo then lo else if hi <? v then hi else v.

(** ** fft_processor.hpp, fft_processor.cpp *)

Inductive WindowFunction : Type :=
  | Rectangular
  | Hann
  | Hamming
  | Blackman
  | FlatTop.

Record FFTConfig : Type := mkFFTConfig {
  fft_size : Z;
  window : WindowFunction;
  use_magnitude_db : bool;
  db_floor : float;
  db_ceiling : float
}.

(** [FFTProcessor::FFTWData]: whether [plan] is non-null, and the two
    FFTW buffers. *)
Record FFTWData : Type := mkFFTWData {
  plan : bool;
  input : list float;
  output : list (float * float)
}.

(** The members of [FFTProcessor]; [fftw_] is [None] when the pointer is
    null. *)
Record FFTProcessor : Type := mkFFTProcessor {
  config_ : FFTConfig;
  fftw_ : option FFTWData;
  window_ : list float
}.

Module FFT.
Section WithPlatform.
Variable P : Platform.

Definition bin_count (fp : FFTProcessor) : Z :=
  wrap (fft_size (config_ fp) / 2 + 1).

(** [FFTProcessor::allocate_buffers] *)
Definition allocate_buffers (fp : FFTProcessor) : outcome FFTProcessor :=
  let n := int_of_size_t (fft_size (config_ fp)) in
  let out_size := wrap (fft_size (config_ fp) / 2 + 1) in
  if negb (fftwf_alloc_real P (wrap n)) || negb (fftwf_alloc_complex P out_size)
  then Throw (runtime_error "Failed to allocate FFTW buffers")
  else if negb (fftwf_plan_dft_r2c_1d P n)
  then Throw (runtime_error "Failed to create FFTW plan")
  else
    let data :=
      mkFFTWData true
        (replicate (Z.to_nat (wrap n)) (uninitialised P))
        (replicate (Z.to_nat out_size) (uninitialised P, uninitialised P)) in
    Ok (mkFFTProcessor (config_ fp) (Some data)
          (resize (Z.to_nat (fft_size (config_ fp))) F32.zero (window_ fp))).

(** The loop [for (i = 0; i < n; ++i) window_[i] = f(i / (n - 1))]. *)
Definition window_loop (n : Z) (f : float -> float) (w : list float) : list float :=
  foldl (fun w i =>
           let x := F32.div (F32.of_Z (Z.of_nat i)) (F32.of_Z (wrap (n - 1))) in
           <[i := f x]> w)
        w (seq 0 (Z.to_nat n)).

(** [FFTProcessor::compute_window] *)
Definition compute_window (fp : FFTProcessor) : FFTProcessor :=
  let n := fft_size (config_ fp) in
  let cos2 x := cosf P (F32.mul (F32.mul F32.two F32.pi) x) in
  let cos4 x := cosf P (F32.mul (F32.mul (F32.of_Z 4) F32.pi) x) in
  let cos6 x := cosf P (F32.mul (F32.mul (F32.of_Z 6) F32.pi) x) in
  let cos8 x := cosf P (F32.mul (F32.mul (F32.of_Z 8) F32.pi) x) in
  let w :=
    match window (config_ fp) with
    | Rectangular => map (fun _ => F32.one) (window_ fp)
    | Hann =>
        window_loop n
          (fun x => F32.mul F32.half (F32.sub F32.one (cos2 x))) (window_ fp)
    | Hamming =>
        window_loop n
          (fun x => F32.sub (F32.dec 54 2) (F32.mul (F32.dec 46 2) (cos2 x)))
          (window_ fp)
    | Blackman =>
        window_loop n
          (fun x =>
             F32.add (F32.sub (F32.dec 42 2) (F32.mul F32.half (cos2 x)))
                     (F32.mul (F32.dec 8 2) (cos4 x)))
          (window_ fp)
    | FlatTop =>
        window_loop n
          (fun x =>
             F32.add
               (F32.sub
                  (F32.add
                     (F32.sub (F32.dec 21557895 8)
                              (F32.mul (F32.dec 41663158 8) (cos2 x)))
                     (F32.mul (F32.dec 277263158 9) (cos4 x)))
                  (F32.mul (F32.dec 83578947 9) (cos6 x)))
               (F32.mul (F32.dec 6947368 9) (cos8 x)))
          (window_ fp)
    end in
  mkFFTProcessor (config_ fp) (fftw_ fp) w.

(** [FFTProcessor::FFTProcessor(const FFTConfig&)] *)
Definition new (config : FFTConfig) : outcome FFTProcessor :=
  let fp := mkFFTProcessor config (Some (mkFFTWData false [] [])) [] in
  if negb (Z.land (fft_size config) (wrap (fft_size config - 1)) =? 0)
  then Throw (invalid_argument "FFT size must be a power of two")
  else
    match allocate_buffers fp with
    | Ok fp => Ok (compute_window fp)
    | Throw e => Throw e
    | Abort => Abort
    end.

(** The first loop of [compute]: [input[i] = 0.0f] for [i < offset]. *)
Definition zero_front (offset : Z) (inp : list float) : list float :=
  foldl (fun inp i => <[i := F32.zero]> inp) inp (seq 0 (Z.to_nat offset)).

(** The second loop of [compute]:
    [input[offset + i] = samples[samples.size() - copy_count + i] * window_[offset + i]]. *)
Definition copy_windowed (samples window : list float) (copy_count offset : Z)
    (inp : list float) : list float :=
  foldl (fun inp i =>
           let src := wrap (wrap (Z.of_nat (length samples) - copy_count) + Z.of_nat i) in
           let dst := wrap (offset + Z.of_nat i) in
           <[Z.to_nat dst :=
               F32.mul (nth (Z.to_nat src) samples F32.zero)
                       (nth (Z.to_nat dst) window F32.zero)]> inp)
        inp (seq 0 (Z.to_nat copy_count)).

(** The contents of the FFT input buffer after the two loops. *)
Definition fill_input (fp : FFTProcessor) (samples : list float) (inp : list float) : list float :=
  let n := fft_size (config_ fp) in
  let copy_count := Z.min (Z.of_nat (length samples)) n in
  let offset := wrap (n - copy_count) in
  copy_windowed samples (window_ fp) copy_count offset (zero_front offset inp).

(** The body of the magnitude loop of [compute] for bin [i]. *)
Definition bin_magnitude (cfg : FFTConfig) (num_bins : Z) (scale : float)
    (out : list (float * float)) (i : nat) : float :=
  let '(re, im) := nth i out (F32.zero, F32.zero) in
  let magnitude :=
    F32.mul (F32.sqrt (F32.add (F32.mul re re) (F32.mul im im))) scale in
  let magnitude :=
    if (Z.of_nat i =? 0) || (Z.of_nat i =? wrap (num_bins - 1))
    then F32.mul magnitude F32.half else magnitude in
  if use_magnitude_db cfg then
    let epsilon := F32.dec 1 10 in
    let db := F32.mul (F32.of_Z 20) (log10f P (F32.add magnitude epsilon)) in
    let db := F32.clamp db (db_floor cfg) (db_ceiling cfg) in
    F32.div (F32.sub db (db_floor cfg)) (F32.sub (db_ceiling cfg) (db_floor cfg))
  else magnitude.

(** [FFTProcessor::compute]: the count it returns, the output span and
    the processor.  [Abort] is the failure of one of its two
    assertions; it has no other way to fail. *)
Definition compute (fp : FFTProcessor) (samples : list float) (out : list float)
    : outcome (Z * list float * FFTProcessor) :=
  match fftw_ fp with
  | None => Abort
  | Some data =>
      if negb (plan data) || negb (Z.of_nat (length out) >=? bin_count fp)
      then Abort
      else
        let n := fft_size (config_ fp) in
        let inp := fill_input fp samples (input data) in
        let bins := fftwf_execute P inp in
        let num_bins := bin_count fp in
        let scale := F32.div F32.two (F32.of_Z n) in
        let out :=
          foldl (fun o i => <[i := bin_magnitude (config_ fp) num_bins scale bins i]> o)
                out (seq 0 (Z.to_nat num_bins)) in
        Ok (num_bins, out,
            mkFFTProcessor (config_ fp) (Some (mkFFTWData (plan data) inp bins))
                           (window_ fp))
  end.

(** One band of [compute_log_bands]: the body of its loop for index [i]. *)
Definition log_band (bin_count : Z) (log_min log_step sample_rate : float)
    (fft_size : Z) (i : Z) : Z * Z :=
  let freq_to_bin freq :=
    let bin :=
      size_t_of_float P (F32.div (F32.mul freq (F32.of_Z fft_size)) sample_rate) in
    clamp_size_t bin 0 (wrap (bin_count - 1)) in
  let freq_lo :=
    powf P (F32.of_Z 10) (F32.add log_min (F32.mul log_step (F32.of_Z i))) in
  let freq_hi :=
    powf P (F32.of_Z 10) (F32.add log_min (F32.mul log_step (F32.of_Z (wrap (i + 1))))) in
  let bin_lo := freq_to_bin freq_lo in
  let bin_hi := freq_to_bin freq_hi in
  let bin_hi := if bin_hi <=? bin_lo then wrap (bin_lo + 1) else bin_hi in
  let bin_hi := Z.min bin_hi bin_count in
  (bin_lo, bin_hi).

(** [compute_log_bands] *)
Definition compute_log_bands (bin_count num_bars : Z) (min_freq max_freq sample_rate : float)
    (fft_size : Z) : list (Z * Z) :=
  let log_min := log10f P min_freq in
  let log_max := log10f P max_freq in
  let log_step := F32.div (F32.sub log_max log_min) (F32.of_Z num_bars) in
  map (fun i => log_band bin_count log_min log_step sample_rate fft_size (Z.of_nat i))
      (seq 0 (Z.to_nat num_bars)).

(** What [allocate_buffers] and [compute_window] establish and [compute]
    relies on: a plan, and an input buffer and a window of [fft_size]
    elements. *)
Definition ready (fp : FFTProcessor) : Prop :=
  exists data,
    fftw_ fp = Some data /\ plan data = true /\
    0 <= fft_size (config_ fp) < modulus /\
    Z.of_nat (length (input data)) = fft_size (config_ fp) /\
    Z.of_nat (length (window_ fp)) = fft_size (config_ fp).

(** [FFTProcessor::frequency_to_bin] *)
Definition frequency_to_bin (fp : FFTProcessor) (frequency sample_rate : float) : Z :=
  let bin :=
    size_t_of_float P
      (F32.add (F32.div (F32.mul frequency (F32.of_Z (fft_size (config_ fp)))) sample_rate)
               F32.half) in
  Z.min bin (wrap (bin_count fp - 1)).

(** [FFTProcessor::bin_to_frequency] *)
Definition bin_to_frequency (fp : FFTProcessor) (bin_index : Z) (sample_rate : float) : float :=
  F32.div (F32.mul (F32.of_Z bin_index) sample_rate) (F32.of_Z (fft_size (config_ fp))).

(** [FFTProcessor::set_config] *)
Definition set_config (fp : FFTProcessor) (config : FFTConfig) : outcome FFTProcessor :=
  let size_changed := negb (fft_size config =? fft_size (config_ fp)) in
  let fp := mkFFTProcessor config (fftw_ fp) (window_ fp) in
  if size_changed then
    match allocate_buffers fp with
    | Ok fp => Ok (compute_window fp)
    | Throw e => Throw e
    | Abort => Abort
    end
  else Ok (compute_window fp).

End WithPlatform.
End FFT.

(** ** audio_capture.hpp, audio_capture.cpp *)

Record AudioConfig : Type := mkAudioConfig {
  sample_rate : Z;
  buffer_frames : Z;
  channels : Z;
  ring_buffer_seconds : float
}.

(** The members of [AudioCapture] the analyzer can reach. *)
Record AudioCapture : Type := mkAudioCapture {
  audio_config_ : AudioConfig;
  device_name_ : string;
  ring_buffer_ : RingBuffer float;
  running_ : bool;
  frames_captured_ : Z;
  overruns_ : Z;
  callback_count_ : Z;
  peak_amplitude_ : float
}.

(** [AudioStats] *)
Record AudioStats : Type := mkAudioStats {
  frames_captured : Z;
  overruns : Z;
  callback_count : Z;
  peak_amplitude : float
}.

Module Audio.
Section WithPlatform.
Variable P : Platform.

(** [AudioCapture::AudioCapture(const AudioConfig&)] *)
Definition new (config : AudioConfig) : outcome AudioCapture :=
  let buffer_samples :=
    size_t_of_float P
      (F32.mul (F32.mul (ring_buffer_seconds config) (F32.of_Z (sample_rate config)))
               (F32.of_Z (channels config))) in
  match RingBuffer_new F32.zero buffer_samples with
  | None => Abort
  | Some ring_buffer =>
      match Pa_GetDefaultInputDevice P with
      | None => Throw (runtime_error "No default audio input device available")
      | Some device =>
          match Pa_GetDeviceInfo P device with
          | None => Throw (runtime_error "Failed to get input device info")
          | Some name =>
              match Pa_OpenStream P (sample_rate config) (channels config)
                                  (buffer_frames config) with
              | Some text =>
                  Throw (runtime_error
                           (String.append "Failed to open audio stream: " text))
              | None =>
                  Ok (mkAudioCapture config name ring_buffer false 0 0 0 F32.zero)
              end
          end
      end
  end.

Definition store_ring_buffer (a : AudioCapture) (rb : RingBuffer float) : AudioCapture :=
  mkAudioCapture (audio_config_ a) (device_name_ a) rb (running_ a)
                 (frames_captured_ a) (overruns_ a) (callback_count_ a)
                 (peak_amplitude_ a).

End WithPlatform.

(** [AudioCapture::stats] *)
Definition stats (a : AudioCapture) : AudioStats :=
  mkAudioStats (frames_captured_ a) (overruns_ a) (callback_count_ a) (peak_amplitude_ a).

Definition store_running (a : AudioCapture) (running : bool) : AudioCapture :=
  mkAudioCapture (audio_config_ a) (device_name_ a) (ring_buffer_ a) running
                 (frames_captured_ a) (overruns_ a) (callback_count_ a)
                 (peak_amplitude_ a).

(** [AudioCapture::is_running] *)
Definition is_running (a : AudioCapture) : bool := running_ a.

(** [AudioCapture::start]; [Pa_StartStream] is what the call of that
    name returns: [None] for [paNoError], otherwise the error text. *)
Definition start (Pa_StartStream : option string) (a : AudioCapture) : outcome AudioCapture :=
  if running_ a then Ok a
  else
    match Pa_StartStream with
    | Some text =>
        Throw (runtime_error (String.append "Failed to start audio stream: " text))
    | None => Ok (store_running a true)
    end.

(** [AudioCapture::stop] *)
Definition stop (a : AudioCapture) : AudioCapture :=
  if negb (running_ a) then a else store_running a false.

(** The largest absolute value of a batch, as the first loop of
    [process_audio] computes it. *)
Definition batch_peak (samples : list float) : float :=
  foldl (fun peak sample => F32.max peak (F32.abs sample)) F32.zero samples.

(** [AudioCapture::process_audio], the body of the capture callback, run
    on its own; [paInputOverflow] is the flag bit of that name in
    portaudio.h.  The compare-and-swap loop on [peak_amplitude_] is the
    single store it amounts to without a competing writer. *)
Definition process_audio (paInputOverflow : Z) (a : AudioCapture) (samples : list float)
    (status_flags : Z) : AudioCapture :=
  let overruns :=
    if negb (Z.land status_flags paInputOverflow =? 0) then wrap (overruns_ a + 1)
    else overruns_ a in
  let peak := batch_peak samples in
  let current_peak := peak_amplitude_ a in
  let peak_amplitude := if F32.gtb peak current_peak then peak else current_peak in
  let '(written, ring_buffer) := try_push_span F32.zero (ring_buffer_ a) samples in
  let overruns :=
    if written <? Z.of_nat (length samples) then wrap (overruns + 1) else overruns in
  mkAudioCapture (audio_config_ a) (device_name_ a) ring_buffer (running_ a)
                 (wrap (frames_captured_ a + Z.of_nat (length samples)))
                 overruns
                 (wrap (callback_count_ a + 1))
                 peak_amplitude.

End Audio.

(** ** spectrum_analyzer.hpp, spectrum_analyzer.cpp *)

Record AnalyzerConfig : Type := mkAnalyzerConfig {
  num_bands : Z;
  min_frequency : float;
  max_frequency : float;
  smoothing_factor : float;
  peak_decay_rate : float;
  logarithmic_frequency : bool
}.

(** [timestamp] is the reading of [std::chrono::steady_clock]. *)
Record SpectrumData : Type := mkSpectrumData {
  magnitudes : list float;
  peaks : list float;
  rms_level : float;
  peak_level : float;
  timestamp : Z
}.

Record SpectrumAnalyzer : Type := mkSpectrumAnalyzer {
  audio_ : AudioCapture;
  fft_ : FFTProcessor;
  analyzer_config_ : AnalyzerConfig;
  sample_buffer_ : list float;
  magnitude_buffer_ : list float;
  smoothed_magnitudes_ : list float;
  peak_values_ : list float;
  band_bins_ : list (Z * Z)
}.

Module Analyzer.
Section WithPlatform.
Variable P : Platform.

(** [SpectrumAnalyzer::sample_rate] *)
Definition analyzer_sample_rate (sa : SpectrumAnalyzer) : float :=
  F32.of_Z (sample_rate (audio_config_ (audio_ sa))).

(** [SpectrumAnalyzer::recompute_band_mapping].  The linear branch
    divides by [num_bands]; with [num_bands = 0] the C++ division is
    undefined and the model ends the call. *)
Definition recompute_band_mapping (sa : SpectrumAnalyzer) : outcome SpectrumAnalyzer :=
  let cfg := analyzer_config_ sa in
  let store bands :=
    mkSpectrumAnalyzer (audio_ sa) (fft_ sa) cfg (sample_buffer_ sa) (magnitude_buffer_ sa)
                       (smoothed_magnitudes_ sa) (peak_values_ sa) bands in
  if logarithmic_frequency cfg then
    Ok (store (FFT.compute_log_bands P (FFT.bin_count (fft_ sa)) (num_bands cfg)
                 (min_frequency cfg) (max_frequency cfg) (analyzer_sample_rate sa)
                 (fft_size (config_ (fft_ sa)))))
  else if num_bands cfg =? 0 then Abort
  else
    let bins_per_band := FFT.bin_count (fft_ sa) / num_bands cfg in
    Ok (store (map (fun i =>
                      let start := wrap (Z.of_nat i * bins_per_band) in
                      let end_ := wrap (wrap (Z.of_nat i + 1) * bins_per_band) in
                      (start, Z.min end_ (FFT.bin_count (fft_ sa))))
                   (seq 0 (Z.to_nat (num_bands cfg))))).

(** [SpectrumAnalyzer::SpectrumAnalyzer] *)
Definition new (audio_config : AudioConfig) (fft_config : FFTConfig)
    (analyzer_config : AnalyzerConfig) : outcome SpectrumAnalyzer :=
  match Audio.new P audio_config with
  | Throw e => Throw e
  | Abort => Abort
  | Ok audio =>
      match FFT.new P fft_config with
      | Throw e => Throw e
      | Abort => Abort
      | Ok fft =>
          let bands := Z.to_nat (num_bands analyzer_config) in
          recompute_band_mapping
            (mkSpectrumAnalyzer audio fft analyzer_config
               (resize (Z.to_nat (fft_size (config_ fft))) F32.zero [])
               (resize (Z.to_nat (FFT.bin_count fft)) F32.zero [])
               (resize bands F32.zero [])
               (resize bands F32.zero [])
               [])
      end
  end.

(** [SpectrumAnalyzer::compute_band_magnitude] *)
Definition compute_band_magnitude (band_bins : list (Z * Z)) (magnitude_buffer : list float)
    (band_index : nat) : float :=
  let '(bin_start, bin_end) := nth band_index band_bins (0, 0) in
  if bin_start >=? bin_end then F32.zero
  else
    let sum :=
      foldl (fun sum i =>
               F32.add sum (nth (Z.to_nat (bin_start + Z.of_nat i)) magnitude_buffer F32.zero))
            F32.zero (seq 0 (Z.to_nat (bin_end - bin_start))) in
    F32.div sum (F32.of_Z (wrap (bin_end - bin_start))).

(** The RMS and peak loop of [update]: the sum of squares and the
    largest absolute value of the first [read_count] samples. *)
Definition level_loop (sample_buffer : list float) (read_count : Z) : float * float :=
  foldl (fun '(sum_squares, peak) i =>
           let s := nth i sample_buffer F32.zero in
           (F32.add sum_squares (F32.mul s s), F32.max peak (F32.abs s)))
        (F32.zero, F32.zero) (seq 0 (Z.to_nat read_count)).

(** The vectors the band loop of [update] writes: [smoothed_magnitudes_],
    [peak_values_], [result.magnitudes] and [result.peaks]. *)
Definition band_state : Type := list float * list float * list float * list float.

(** The body of the band loop of [update] for band [i] whose raw
    magnitude is [raw]. *)
Definition band_update (cfg : AnalyzerConfig) (raw : float) (i : nat) (st : band_state)
    : band_state :=
  let '(smoothed, peak_values, result_magnitudes, result_peaks) := st in
  let alpha := F32.sub F32.one (smoothing_factor cfg) in
  let smoothed :=
    <[i := F32.add (F32.mul alpha raw)
                   (F32.mul (smoothing_factor cfg) (nth i smoothed F32.zero))]> smoothed in
  let peak_values :=
    if F32.gtb (nth i smoothed F32.zero) (nth i peak_values F32.zero)
    then <[i := nth i smoothed F32.zero]> peak_values
    else <[i := F32.mul (nth i peak_values F32.zero) (peak_decay_rate cfg)]> peak_values in
  (smoothed, peak_values,
   <[i := nth i smoothed F32.zero]> result_magnitudes,
   <[i := nth i peak_values F32.zero]> result_peaks).

(** [SpectrumAnalyzer::update]; [now] is what [steady_clock::now()]
    returns. *)
Definition update (now : Z) (sa : SpectrumAnalyzer) : outcome (SpectrumData * SpectrumAnalyzer) :=
  let cfg := analyzer_config_ sa in
  let bands := Z.to_nat (num_bands cfg) in
  let result :=
    mkSpectrumData (resize bands F32.zero []) (resize bands F32.zero [])
                   F32.zero F32.zero now in
  let buffer := ring_buffer_ (audio_ sa) in
  let available := size buffer in
  let needed := fft_size (config_ (fft_ sa)) in
  if available <? needed / 4 then
    Ok (mkSpectrumData (smoothed_magnitudes_ sa) (peak_values_ sa)
                       (rms_level result) (peak_level result) (timestamp result),
        sa)
  else
    let buffer :=
      if available >? needed then snd (discard buffer (wrap (available - needed)))
      else buffer in
    let '(read_count, sample_buffer) := peek F32.zero buffer (sample_buffer_ sa) in
    let '(sum_squares, peak) := level_loop sample_buffer read_count in
    let rms := F32.sqrt (F32.div sum_squares (F32.of_Z read_count)) in
    match FFT.compute P (fft_ sa) (take (Z.to_nat read_count) sample_buffer)
                      (magnitude_buffer_ sa) with
    | Throw e => Throw e
    | Abort => Abort
    | Ok (_, magnitude_buffer, fft) =>
        let '(smoothed, peak_values, result_magnitudes, result_peaks) :=
          foldl (fun st i =>
                   band_update cfg
                     (compute_band_magnitude (band_bins_ sa) magnitude_buffer i) i st)
                (smoothed_magnitudes_ sa, peak_values_ sa,
                 magnitudes result, peaks result)
                (seq 0 bands) in
        let buffer := snd (discard buffer read_count) in
        Ok (mkSpectrumData result_magnitudes result_peaks rms peak now,
            mkSpectrumAnalyzer (Audio.store_ring_buffer (audio_ sa) buffer) fft cfg
                               sample_buffer magnitude_buffer smoothed peak_values
                               (band_bins_ sa))
    end.

(** *** The two rules of a band *)

(** Exponential smoothing, then peak hold with decay, on one band. *)
Definition band_rule (cfg : AnalyzerConfig) (raw : float) (st : float * float) : float * float :=
  let '(smoothed, peak) := st in
  let smoothed' :=
    F32.add (F32.mul (F32.sub F32.one (smoothing_factor cfg)) raw)
            (F32.mul (smoothing_factor cfg) smoothed) in
  (smoothed', if F32.gtb smoothed' peak then smoothed'
              else F32.mul peak (peak_decay_rate cfg)).

(** [k] frames in which the band's raw magnitude is zero. *)
Fixpoint silent_frames (cfg : AnalyzerConfig) (k : nat) (st : float * float) : float * float :=
  match k with
  | O => st
  | S k' => silent_frames cfg k' (band_rule cfg F32.zero st)
  end.


(** What the constructor establishes and [update] relies on. *)
Definition ready (sa : SpectrumAnalyzer) : Prop :=
  FFT.ready (fft_ sa) /\
  FFT.bin_count (fft_ sa) <= Z.of_nat (length (magnitude_buffer_ sa)) /\
  length (smoothed_magnitudes_ sa) = Z.to_nat (num_bands (analyzer_config_ sa)) /\
  length (peak_values_ sa) = Z.to_nat (num_bands (analyzer_config_ sa)).

(** The starvation test of [update]. *)
Definition starved (sa : SpectrumAnalyzer) : Prop :=
  size (ring_buffer_ (audio_ sa)) < fft_size (config_ (fft_ sa)) / 4.

(** [operator!=] on [float]: a NaN differs from everything, the two
    zeros do not differ. *)
Definition float_ne (x y : float) : bool := negb (SFeqb x y).

(** [SpectrumAnalyzer::set_config] *)
Definition set_config (sa : SpectrumAnalyzer) (config : AnalyzerConfig)
    : outcome SpectrumAnalyzer :=
  let old := analyzer_config_ sa in
  let bands_changed :=
    negb (num_bands config =? num_bands old) ||
    float_ne (min_frequency config) (min_frequency old) ||
    float_ne (max_frequency config) (max_frequency old) ||
    negb (Bool.eqb (logarithmic_frequency config) (logarithmic_frequency old)) in
  if bands_changed then
    let bands := Z.to_nat (num_bands config) in
    recompute_band_mapping
      (mkSpectrumAnalyzer (audio_ sa) (fft_ sa) config (sample_buffer_ sa)
         (magnitude_buffer_ sa)
         (resize bands F32.zero (smoothed_magnitudes_ sa))
         (resize bands F32.zero (peak_values_ sa))
         (band_bins_ sa))
  else
    Ok (mkSpectrumAnalyzer (audio_ sa) (fft_ sa) config (sample_buffer_ sa)
          (magnitude_buffer_ sa) (smoothed_magnitudes_ sa) (peak_values_ sa)
          (band_bins_ sa)).

(** What [update] relies on beyond [ready]: a well-formed ring buffer and
    a sample buffer of [fft_size] elements, as the constructor sizes it. *)
Definition consistent (sa : SpectrumAnalyzer) : Prop :=
  ready sa /\ wf (ring_buffer_ (audio_ sa)) /\
  Z.of_nat (length (sample_buffer_ sa)) = fft_size (config_ (fft_ sa)).

(** The capture callback firing between two frames: [audio_] owns the
    [AudioCapture] whose [process_audio] PortAudio calls. *)
Definition on_callback (paInputOverflow : Z) (sa : SpectrumAnalyzer) (samples : list float)
    (status_flags : Z) : SpectrumAnalyzer :=
  mkSpectrumAnalyzer
    (Audio.process_audio paInputOverflow (audio_ sa) samples status_flags)
    (fft_ sa) (analyzer_config_ sa) (sample_buffer_ sa) (magnitude_buffer_ sa)
    (smoothed_magnitudes_ sa) (peak_values_ sa) (band_bins_ sa).

End WithPlatform.
End Analyzer.

(** ** PortAudioGuard *)

(** The process-wide state the guard manages: the static [ref_count_]
    and how often [Pa_Initialize] has succeeded and [Pa_Terminate] has
    been called. *)
Record PaLibrary : Type := mkPaLibrary {
  ref_count_ : Z;
  initialisations : nat;
  terminations : nat
}.

(** Arithmetic of [std::atomic<int>]: it wraps in 32 bits. *)
Definition int_wrap (x : Z) : Z := (x + 2 ^ 31) mod 2 ^ 32 - 2 ^ 31.

Module Guard.

(** [PortAudioGuard::PortAudioGuard]; [Pa_Initialize] is what the call
    returns when it is made: [None] for [paNoError], otherwise the error
    text.  The result is the state the constructor leaves and the
    exception it throws, if any. *)
Definition construct (Pa_Initialize : option string) (lib : PaLibrary)
    : PaLibrary * option exception :=
  let old := ref_count_ lib in
  let lib := mkPaLibrary (int_wrap (old + 1)) (initialisations lib) (terminations lib) in
  if old =? 0 then
    match Pa_Initialize with
    | None =>
        (mkPaLibrary (ref_count_ lib) (S (initialisations lib)) (terminations lib), None)
    | Some text =>
        (mkPaLibrary (int_wrap (ref_count_ lib - 1)) (initialisations lib) (terminations lib),
         Some (runtime_error (String.append "Failed to initialize PortAudio: " text)))
    end
  else (lib, None).

(** [PortAudioGuard::~PortAudioGuard] *)
Definition destroy (lib : PaLibrary) : PaLibrary :=
  let old := ref_count_ lib in
  let lib := mkPaLibrary (int_wrap (old - 1)) (initialisations lib) (terminations lib) in
  if old =? 1 then mkPaLibrary (ref_count_ lib) (initialisations lib) (S (terminations lib))
  else lib.

(** The life of the guards of a process: constructions, each with the
    answer [Pa_Initialize] would give, and destructions. *)
Inductive event : Type :=
  | Construct (Pa_Initialize : option string)
  | Destroy.

(** The library state and the number of guards alive.  A destruction
    without a guard alive cannot happen and is skipped. *)
Definition step (st : PaLibrary * nat) (e : event) : PaLibrary * nat :=
  let '(lib, alive) := st in
  match e with
  | Construct r =>
      let '(lib', thrown) := construct r lib in
      (lib', match thrown with None => S alive | Some _ => alive end)
  | Destroy =>
      match alive with
      | O => st
      | S alive' => (destroy lib, alive')
      end
  end.

Definition run (events : list event) : PaLibrary * nat :=
  foldl step (mkPaLibrary 0 0 0, O) events.

End Guard.

(** The reference count is the number of guards alive, and the library
    is initialised once more than it is terminated exactly while a guard
    is alive. *)
Definition guard_balanced (st : PaLibrary * nat) : Prop :=
  ref_count_ (fst st) = Z.of_nat (snd st) /\
  initialisations (fst st) =
    (terminations (fst st) + match snd st with O => 0 | S _ => 1 end)%nat.

(** ** Instances that exercise the model *)

(** A platform in which every FFTW and PortAudio call succeeds and
    [fftwf_execute] returns the transform of silence, all bins zero.  It
    stands for a real platform wherever the input buffer is all zero and
    libm is not consulted. *)
Definition silence_platform : Platform :=
  mkPlatform
    (fun _ => F32.one) (fun _ => F32.zero) (fun _ _ => F32.one) (fun _ => 0)
    (fun _ => true) (fun _ => true) F32.zero (fun _ => true)
    (fun inp => replicate (length inp / 2 + 1)%nat (F32.zero, F32.zero))
    (Some 0) (fun _ => Some "default"%string) (fun _ _ _ => None).

(** Smoothing 0.75, peak decay 0.5, one band. *)
Definition slow_smoothing : AnalyzerConfig :=
  mkAnalyzerConfig 1 (F32.of_Z 20) (F32.of_Z 20000) (F32.dec 75 2) F32.half true.

(** An analyzer over a transform of four samples with a rectangular
    window and linear magnitudes, whose single band stands at one after
    a loud frame and whose ring buffer holds four samples of silence. *)
Definition after_loud_frame : SpectrumAnalyzer :=
  mkSpectrumAnalyzer
    (mkAudioCapture (mkAudioConfig 8 4 1 F32.half) "default"
       (mkRingBuffer 4 3 (replicate 4 F32.zero) 4 0) true 4 0 1 F32.one)
    (mkFFTProcessor
       (mkFFTConfig 4 Rectangular false (F32.of_Z (-80)) F32.zero)
       (Some (mkFFTWData true (replicate 4 F32.zero)
                         (replicate 3 (F32.zero, F32.zero))))
       (replicate 4 F32.one))
    slow_smoothing
    (replicate 4 F32.zero) (replicate 3 F32.zero)
    [F32.one] [F32.one] [(0, 1)].


(** The analyzer [SpectrumAnalyzer::SpectrumAnalyzer] leaves on that
    platform for a transform of four samples. *)
Definition just_constructed : SpectrumAnalyzer :=
  mkSpectrumAnalyzer
    (mkAudioCapture (mkAudioConfig 8 4 1 F32.half) "default"
       (mkRingBuffer 4 3 (replicate 4 F32.zero) 0 0) false 0 0 0 F32.zero)
    (fft_ after_loud_frame)
    slow_smoothing
    (replicate 4 F32.zero) (replicate 3 F32.zero)
    [F32.zero] [F32.zero] [(0, 1)].

(** The analyzer the constructor leaves on that platform for a
    transform of two samples: a quarter of the transform is no sample. *)
Definition small_transform : SpectrumAnalyzer :=
  mkSpectrumAnalyzer
    (audio_ just_constructed)
    (mkFFTProcessor
       (mkFFTConfig 2 Rectangular false (F32.of_Z (-80)) F32.zero)
       (Some (mkFFTWData true (replicate 2 F32.zero)
                         (replicate 2 (F32.zero, F32.zero))))
       (replicate 2 F32.one))
    slow_smoothing
    (replicate 2 F32.zero) (replicate 2 F32.zero)
    [F32.zero] [F32.zero] [(0, 1)].

(** [silence_platform] with a [log10f] that is right where the dB
    conversion of a zero magnitude consults it: at [1e-10], the value
    added to the magnitude, it returns [-10]. *)
Definition quiet_db_platform : Platform :=
  mkPlatform
    (cosf silence_platform)
    (fun x => if SFeqb x (F32.dec 1 10) then F32.of_Z (-10) else F32.zero)
    (powf silence_platform) (cast_unspecified silence_platform)
    (fftwf_alloc_real silence_platform) (fftwf_alloc_complex silence_platform)
    (uninitialised silence_platform) (fftwf_plan_dft_r2c_1d silence_platform)
    (fftwf_execute silence_platform)
    (Pa_GetDefaultInputDevice silence_platform) (Pa_GetDeviceInfo silence_platform)
    (Pa_OpenStream silence_platform).

(** * Part II: properties *)

(** ** 64-bit unsigned arithmetic *)

Lemma modulus_eq : modulus = 18446744073709551616.
Proof. reflexivity. Qed.

Lemma wrap_range x : in_range (wrap x).
Proof. unfold in_range, wrap. apply Z.mod_pos_bound. reflexivity. Qed.

Lemma wrap_small x : in_range x -> wrap x = x.
Proof. unfold in_range, wrap. intros H. apply Z.mod_small; exact H. Qed.

Lemma wrap_wrap x : wrap (wrap x) = wrap x.
Proof. unfold wrap. apply Z.mod_mod. rewrite modulus_eq. lia. Qed.

Lemma wrap_add_l x y : wrap (wrap x + y) = wrap (x + y).
Proof. unfold wrap. apply Zplus_mod_idemp_l. Qed.

Lemma wrap_add_r x y : wrap (x + wrap y) = wrap (x + y).
Proof. unfold wrap. apply Zplus_mod_idemp_r. Qed.

Lemma wrap_sub_l x y : wrap (wrap x - y) = wrap (x - y).
Proof. unfold wrap. apply Zminus_mod_idemp_l. Qed.

Lemma wrap_sub_r x y : wrap (x - wrap y) = wrap (x - y).
Proof. unfold wrap. apply Zminus_mod_idemp_r. Qed.

(** ** next_power_of_two *)

Example next_power_of_two_10 : next_power_of_two 10 = 16.
Proof. reflexivity. Qed.

Example next_power_of_two_16 : next_power_of_two 16 = 16.
Proof. reflexivity. Qed.

Example next_power_of_two_0 : next_power_of_two 0 = 1.
Proof. reflexivity. Qed.

Lemma smear_spec k n i :
  0 <= k -> 0 <= i ->
  Z.testbit (smear k n) i = Z.testbit n i || Z.testbit n (i + k).
Proof.
  intros Hk Hi. unfold smear.
  rewrite Z.lor_spec, Z.shiftr_spec by exact Hi. reflexivity.
Qed.

Lemma covers_start m : covers m 1 m.
Proof.
  intros i Hi. split.
  - intros H. exists i. split; [lia | exact H].
  - intros (j & Hj & H). replace i with j by lia. exact H.
Qed.

Lemma covers_smear m d x : 0 < d -> covers m d x -> covers m (2 * d) (smear d x).
Proof.
  intros Hd Hc i Hi. rewrite smear_spec by lia. rewrite orb_true_iff.
  rewrite (Hc i Hi), (Hc (i + d)) by lia. split.
  - intros [(j & Hj & H) | (j & Hj & H)]; exists j; (split; [lia | exact H]).
  - intros (j & Hj & H). destruct (Z_lt_ge_dec j (i + d)) as [Hlt | Hge].
    + left. exists j. split; [lia | exact H].
    + right. exists j. split; [lia | exact H].
Qed.

Lemma smear_all_covers m :
  covers m 64 (smear 32 (smear 16 (smear 8 (smear 4 (smear 2 (smear 1 m)))))).
Proof.
  pose proof (covers_start m) as H1.
  apply (covers_smear m 1) in H1; [| lia].
  apply (covers_smear m 2) in H1; [| lia].
  apply (covers_smear m 4) in H1; [| lia].
  apply (covers_smear m 8) in H1; [| lia].
  apply (covers_smear m 16) in H1; [| lia].
  apply (covers_smear m 32) in H1; [| lia].
  exact H1.
Qed.

(** Smearing a positive 64-bit value sets every bit up to its highest. *)
Lemma smear_all_ones m x :
  0 < m < modulus -> covers m 64 x -> 0 <= x -> x = Z.ones (Z.log2 m + 1).
Proof.
  intros Hm Hc Hx.
  assert (HL : 0 <= Z.log2 m) by apply Z.log2_nonneg.
  assert (HL64 : Z.log2 m < 64).
  { apply Z.log2_lt_pow2; [lia | exact (proj2 Hm)]. }
  apply Z.bits_inj'. intros i Hi.
  destruct (Z_lt_ge_dec i (Z.log2 m + 1)) as [Hlt | Hge].
  - rewrite Z.ones_spec_low by lia. apply (Hc i Hi).
    exists (Z.log2 m). split; [lia |]. apply Z.bit_log2. lia.
  - rewrite Z.ones_spec_high by lia.
    destruct (Z.testbit x i) eqn:E; [| reflexivity].
    apply (Hc i Hi) in E. destruct E as (j & Hj & E).
    rewrite Z.bits_above_log2 in E by lia. discriminate.
Qed.

Lemma smear_nonneg k n : 0 <= n -> 0 <= smear k n.
Proof.
  intros Hn. unfold smear. apply Z.lor_nonneg. split; [exact Hn |].
  apply Z.shiftr_nonneg. exact Hn.
Qed.

(** The value of [next_power_of_two] away from [0] and [1]. *)
Lemma next_power_of_two_eq n :
  1 < n <= modulus - 1 ->
  next_power_of_two n = wrap (2 ^ (Z.log2 (n - 1) + 1)).
Proof.
  intros Hn. unfold next_power_of_two.
  destruct (Z.eqb_spec n 0) as [-> | _]; [lia |].
  rewrite (wrap_small (n - 1)) by (unfold in_range; lia).
  set (x := smear 32 _).
  assert (Hx : x = Z.ones (Z.log2 (n - 1) + 1)).
  { apply smear_all_ones; [lia | apply smear_all_covers |].
    unfold x. repeat apply smear_nonneg. lia. }
  rewrite Hx, Z.ones_equiv. f_equal. lia.
Qed.

Lemma log2_pred_bounds n :
  1 < n -> 2 ^ Z.log2 (n - 1) < n <= 2 ^ (Z.log2 (n - 1) + 1).
Proof.
  intros Hn. pose proof (Z.log2_spec (n - 1) ltac:(lia)) as H.
  rewrite <- Z.add_1_r in H. lia.
Qed.

Lemma pow2_le_mono_inv a b : 0 <= a -> 0 <= b -> 2 ^ a < 2 ^ b -> a < b.
Proof. intros Ha Hb H. apply (Z.pow_lt_mono_r_iff 2); lia. Qed.

(** Below [2^63] nothing wraps: the result is the least power of two
    that is at least [max n 1]. *)
Lemma next_power_of_two_smallest n :
  0 <= n <= 2 ^ 63 ->
  smallest_power_of_two_ge (Z.max n 1) (next_power_of_two n) /\
  exists k, 0 <= k <= 63 /\ next_power_of_two n = 2 ^ k.
Proof.
  intros Hn.
  assert (H63 : 2 ^ 63 = 9223372036854775808) by reflexivity.
  destruct (Z_le_gt_dec n 1) as [Hle | Hgt].
  - assert (Hv : next_power_of_two n = 1).
    { assert (n = 0 \/ n = 1) as [-> | ->] by lia; reflexivity. }
    rewrite Hv. split.
    + split; [exists 0; split; [lia | reflexivity] |]. split; [lia |].
      intros c' (k' & Hk' & ->) _.
      pose proof (Z.pow_pos_nonneg 2 k' ltac:(lia) Hk'). lia.
    + exists 0. split; [lia | reflexivity].
  - pose proof (log2_pred_bounds n ltac:(lia)) as [Hlo Hhi].
    set (L := Z.log2 (n - 1)) in *.
    assert (HL : 0 <= L) by apply Z.log2_nonneg.
    assert (HL63 : L < 63).
    { apply pow2_le_mono_inv; lia. }
    assert (Hpow : 2 ^ (L + 1) <= 2 ^ 63).
    { apply Z.pow_le_mono_r; lia. }
    assert (Hv : next_power_of_two n = 2 ^ (L + 1)).
    { rewrite next_power_of_two_eq by (rewrite modulus_eq; lia).
      fold L. apply wrap_small. unfold in_range. rewrite modulus_eq.
      pose proof (Z.pow_pos_nonneg 2 (L + 1) ltac:(lia) ltac:(lia)). lia. }
    rewrite Hv. split.
    + split; [exists (L + 1); split; [lia | reflexivity] |]. split; [lia |].
      intros c' (k' & Hk' & ->) Hc'.
      apply Z.pow_le_mono_r; [lia |].
      assert (L < k') by (apply pow2_le_mono_inv; lia). lia.
    + exists (L + 1). split; [lia | reflexivity].
Qed.

(** ** Ring buffer: slots and views *)

Lemma land_mask_mod p k : 0 <= k -> Z.land p (2 ^ k - 1) = p mod 2 ^ k.
Proof.
  intros Hk. rewrite <- Z.land_ones by exact Hk.
  rewrite Z.ones_equiv. f_equal; lia.
Qed.

Lemma wrap_mod_pow2 x k : 0 <= k <= 64 -> wrap x mod 2 ^ k = x mod 2 ^ k.
Proof.
  intros Hk. unfold wrap.
  apply Z.mod_mod_divide.
  exists (2 ^ (64 - k)). unfold modulus, width.
  rewrite <- Z.pow_add_r by lia. f_equal. lia.
Qed.

Lemma mod_pow2_shift_neq a d k :
  0 <= k -> 0 < d < 2 ^ k -> (a + d) mod 2 ^ k <> a mod 2 ^ k.
Proof.
  intros Hk Hd Heq.
  assert (H : (a + d - a) mod 2 ^ k = 0).
  { rewrite Zminus_mod, Heq, Z.sub_diag. apply Z.mod_0_l. lia. }
  replace (a + d - a) with d in H by lia.
  rewrite Z.mod_small in H by lia. lia.
Qed.

(** Two positions less than a capacity apart never share a slot: closes
    a goal [(a + d) mod 2^k <> (a + d') mod 2^k] once the left side is
    written as the right side plus the distance. *)
Ltac slots_differ :=
  let Heq := fresh "Heq" in
  intros Heq; symmetry in Heq; revert Heq; apply mod_pow2_shift_neq; lia.

Section RingBufferFacts.
Context {T : Type}.
Variable zero : T.

Lemma contents_view (rb : RingBuffer T) :
  contents zero rb = view zero (mask_ rb) (buffer_ rb) (read_pos_ rb) (Z.to_nat (size rb)).
Proof.
  reflexivity.
Qed.

Lemma length_view mask b p n : length (view zero mask b p n) = n.
Proof. unfold view. rewrite length_map, length_seq. reflexivity. Qed.

Lemma cell_wrap mask b p : cell zero mask b (wrap p) = cell zero mask b p.
Proof. unfold cell. rewrite wrap_wrap. reflexivity. Qed.

Lemma cell_shift_wrap mask b p d : cell zero mask b (wrap p + d) = cell zero mask b (p + d).
Proof. unfold cell. rewrite wrap_add_l. reflexivity. Qed.

Lemma view_wrap mask b p n : view zero mask b (wrap p) n = view zero mask b p n.
Proof. unfold view. apply map_ext. intros i. apply cell_shift_wrap. Qed.

Lemma view_app mask b p n m :
  view zero mask b p (n + m) = view zero mask b p n ++ view zero mask b (p + Z.of_nat n) m.
Proof.
  unfold view. rewrite seq_app, map_app. f_equal.
  replace (seq (0 + n) m) with ((fun x => (n + x)%nat) <$> seq 0 m)
    by (rewrite fmap_add_seq; f_equal; lia).
  rewrite <- list_fmap_compose. apply map_ext. intros i. simpl.
  f_equal. lia.
Qed.

Lemma view_cons mask b p n :
  view zero mask b p (S n) = cell zero mask b p :: view zero mask b (p + 1) n.
Proof.
  change (S n) with (1 + n)%nat. rewrite view_app.
  unfold view at 1. simpl. rewrite Z.add_0_r. reflexivity.
Qed.

Lemma view_snoc mask b p n :
  view zero mask b p (S n) = view zero mask b p n ++ [cell zero mask b (p + Z.of_nat n)].
Proof.
  replace (S n) with (n + 1)%nat by lia. rewrite view_app.
  unfold view at 2. simpl. rewrite Z.add_0_r. reflexivity.
Qed.

Lemma slot_index (k p : Z) :
  0 <= k <= 63 ->
  Z.to_nat (Z.land (wrap p) (2 ^ k - 1)) = Z.to_nat (p mod 2 ^ k).
Proof.
  intros Hk. rewrite land_mask_mod by lia. rewrite wrap_mod_pow2 by lia. reflexivity.
Qed.

(** The index the code computes is inside the array. *)
Lemma slot_in_range (k : Z) (b : list T) p :
  0 <= k <= 63 -> Z.of_nat (length b) = 2 ^ k ->
  (Z.to_nat (Z.land (wrap p) (2 ^ k - 1)) < length b)%nat.
Proof.
  intros Hk Hlen. rewrite slot_index by exact Hk.
  pose proof (Z.mod_pos_bound p (2 ^ k) ltac:(apply Z.pow_pos_nonneg; lia)). lia.
Qed.

Lemma cell_insert_same (k : Z) (b : list T) p q v :
  0 <= k <= 63 -> Z.of_nat (length b) = 2 ^ k ->
  p mod 2 ^ k = q mod 2 ^ k ->
  cell zero (2 ^ k - 1) (<[Z.to_nat (Z.land (wrap q) (2 ^ k - 1)) := v]> b) p = v.
Proof.
  intros Hk Hlen Hpq. unfold cell. rewrite !slot_index, Hpq by exact Hk.
  rewrite nth_lookup, list_lookup_insert_eq; [reflexivity |].
  pose proof (Z.mod_pos_bound q (2 ^ k) ltac:(apply Z.pow_pos_nonneg; lia)). lia.
Qed.

Lemma cell_insert_other (k : Z) (b : list T) p q v :
  0 <= k <= 63 ->
  p mod 2 ^ k <> q mod 2 ^ k ->
  cell zero (2 ^ k - 1) (<[Z.to_nat (Z.land (wrap q) (2 ^ k - 1)) := v]> b) p =
  cell zero (2 ^ k - 1) b p.
Proof.
  intros Hk Hpq. unfold cell. rewrite !slot_index by exact Hk.
  rewrite !nth_lookup, list_lookup_insert_ne; [reflexivity |].
  pose proof (Z.mod_pos_bound q (2 ^ k) ltac:(apply Z.pow_pos_nonneg; lia)).
  pose proof (Z.mod_pos_bound p (2 ^ k) ltac:(apply Z.pow_pos_nonneg; lia)).
  intros Heq. apply Hpq. lia.
Qed.

(** Storing at position [q] leaves the cells of the positions
    [p, ..., p + n - 1] alone when none of them shares [q]'s slot. *)
Lemma view_insert_other (k : Z) (b : list T) p n q v :
  0 <= k <= 63 ->
  (forall i, 0 <= i < Z.of_nat n -> (p + i) mod 2 ^ k <> q mod 2 ^ k) ->
  view zero (2 ^ k - 1) (<[Z.to_nat (Z.land (wrap q) (2 ^ k - 1)) := v]> b) p n =
  view zero (2 ^ k - 1) b p n.
Proof.
  intros Hk Hne. unfold view. apply map_ext_in. intros i Hi.
  apply in_seq in Hi. apply cell_insert_other; [exact Hk |]. apply Hne. lia.
Qed.


End RingBufferFacts.

(** ** Ring buffer: what each operation does to the pending elements *)

Section RingBufferSpecs.
Context {T : Type}.
Variable zero : T.
Implicit Types rb : RingBuffer T.

Lemma size_range rb : in_range (size rb).
Proof. apply wrap_range. Qed.

(** [write_pos_] is [size] positions after [read_pos_]. *)
Lemma read_plus_size rb :
  in_range (write_pos_ rb) -> wrap (read_pos_ rb + size rb) = write_pos_ rb.
Proof.
  intros Hw. unfold size. rewrite wrap_add_r.
  replace (read_pos_ rb + (write_pos_ rb - read_pos_ rb)) with (write_pos_ rb) by lia.
  apply wrap_small, Hw.
Qed.

Lemma write_pos_mod rb k :
  0 <= k <= 63 -> in_range (write_pos_ rb) ->
  write_pos_ rb mod 2 ^ k = (read_pos_ rb + size rb) mod 2 ^ k.
Proof.
  intros Hk Hw. rewrite <- (read_plus_size rb Hw) at 1.
  apply wrap_mod_pow2. lia.
Qed.

Lemma pow2_le_63 k : 0 <= k <= 63 -> 0 < 2 ^ k <= 2 ^ 63.
Proof.
  intros Hk. split; [apply Z.pow_pos_nonneg; lia |].
  apply Z.pow_le_mono_r; lia.
Qed.

Lemma size_after_write rb d :
  wrap (wrap (write_pos_ rb + d) - read_pos_ rb) = wrap (size rb + d).
Proof.
  unfold size. rewrite wrap_sub_l, wrap_add_l. f_equal. lia.
Qed.

Lemma size_after_read rb d :
  wrap (write_pos_ rb - wrap (read_pos_ rb + d)) = wrap (size rb - d).
Proof.
  unfold size. rewrite wrap_sub_r, wrap_sub_l. f_equal. lia.
Qed.

Lemma empty_positions rb :
  in_range (write_pos_ rb) -> in_range (read_pos_ rb) ->
  size rb = 0 -> write_pos_ rb = read_pos_ rb.
Proof.
  intros Hw Hr Hs. pose proof (read_plus_size rb Hw) as H.
  rewrite Hs, Z.add_0_r, (wrap_small _ Hr) in H. congruence.
Qed.

(** *** try_push *)

Lemma try_push_full rb v :
  capacity_ rb <= size rb -> try_push rb v = (false, rb).
Proof.
  intros H. unfold try_push. fold (size rb).
  rewrite Z.geb_leb. destruct (Z.leb_spec (capacity_ rb) (size rb)); [reflexivity | lia].
Qed.

Lemma try_push_ok rb v :
  wf rb -> size rb < capacity_ rb ->
  exists rb',
    try_push rb v = (true, rb') /\ wf rb' /\
    contents zero rb' = contents zero rb ++ [v] /\
    size rb' = size rb + 1 /\
    capacity_ rb' = capacity_ rb /\
    read_pos_ rb' = read_pos_ rb /\
    write_pos_ rb' = wrap (write_pos_ rb + 1).
Proof.
  intros (k & Hk & Hcap & Hmask & Hlen & Hw & Hr & Hsz) Hroom.
  pose proof (size_range rb) as Hs0. pose proof (pow2_le_63 k Hk) as Hp.
  assert (H63 : 2 ^ 63 < modulus) by reflexivity.
  unfold try_push. fold (size rb). rewrite Z.geb_leb.
  destruct (Z.leb_spec (capacity_ rb) (size rb)) as [Hbad | _]; [lia |].
  eexists. split; [reflexivity |].
  assert (Hsize' : wrap (wrap (write_pos_ rb + 1) - read_pos_ rb) = size rb + 1).
  { rewrite size_after_write. apply wrap_small. unfold in_range in *. lia. }
  split; [| split; [| repeat split]].
  - exists k. unfold store_write_pos, store_buffer, size; simpl.
    rewrite length_insert, Hsize'.
    split_and!; try assumption; try lia; apply wrap_range.
  - rewrite !contents_view. unfold store_write_pos, store_buffer, size at 1; simpl.
    rewrite Hsize'. replace (Z.to_nat (size rb + 1)) with (S (Z.to_nat (size rb)))
      by (unfold in_range in Hs0; lia).
    rewrite view_snoc, Hmask. unfold slot_of. rewrite Hmask.
    rewrite <- (wrap_small (write_pos_ rb) Hw) at 1 2.
    rewrite (view_insert_other zero k); [| exact Hk |].
    + f_equal. f_equal. apply (cell_insert_same zero k); [exact Hk | exact Hlen |].
      rewrite (write_pos_mod rb k Hk Hw). f_equal.
      unfold in_range in Hs0. lia.
    + intros i Hi. rewrite (write_pos_mod rb k Hk Hw).
      replace (read_pos_ rb + size rb) with (read_pos_ rb + i + (size rb - i)) by lia.
      slots_differ.
  - exact Hsize'.
Qed.

(** *** try_pop *)

Lemma try_pop_fail rb out :
  write_pos_ rb <= read_pos_ rb -> try_pop zero rb out = (false, out, rb).
Proof.
  intros H. unfold try_pop. rewrite Z.geb_leb.
  destruct (Z.leb_spec (write_pos_ rb) (read_pos_ rb)); [reflexivity | lia].
Qed.

Lemma try_pop_ok rb out :
  wf rb -> read_pos_ rb < write_pos_ rb ->
  exists x rb',
    try_pop zero rb out = (true, x, rb') /\ wf rb' /\
    contents zero rb = x :: contents zero rb' /\
    size rb' = size rb - 1 /\
    read_pos_ rb' = read_pos_ rb + 1 /\
    write_pos_ rb' = write_pos_ rb.
Proof.
  intros (k & Hk & Hcap & Hmask & Hlen & Hw & Hr & Hsz) Hlt.
  pose proof (pow2_le_63 k Hk) as Hp.
  assert (Hs : size rb = write_pos_ rb - read_pos_ rb).
  { unfold size. apply wrap_small. unfold in_range in *. lia. }
  assert (Hr1 : wrap (read_pos_ rb + 1) = read_pos_ rb + 1).
  { apply wrap_small. unfold in_range in *. lia. }
  unfold try_pop. rewrite Z.geb_leb.
  destruct (Z.leb_spec (write_pos_ rb) (read_pos_ rb)) as [Hbad | _]; [lia |].
  eexists _, _. split; [reflexivity |].
  assert (Hsize' : wrap (write_pos_ rb - wrap (read_pos_ rb + 1)) = size rb - 1).
  { rewrite size_after_read. apply wrap_small. unfold in_range in *. lia. }
  split; [| split; [| repeat split]].
  - exists k. unfold store_read_pos, size; simpl. rewrite Hsize'.
    split_and!; try assumption; try lia; apply wrap_range.
  - rewrite !contents_view. unfold store_read_pos, size at 2; simpl.
    rewrite Hsize'.
    replace (Z.to_nat (size rb)) with (S (Z.to_nat (size rb - 1))) by lia.
    rewrite view_cons, view_wrap. f_equal.
    unfold buffer_at, slot_of, cell. rewrite (wrap_small _ Hr). reflexivity.
  - exact Hsize'.
  - simpl. exact Hr1.
Qed.

(** Whatever the counters, a single-element pop returns nothing or the
    oldest pending element. *)
Lemma try_pop_spec rb out :
  wf rb ->
  exists ok x rb',
    try_pop zero rb out = (ok, x, rb') /\ wf rb' /\
    contents zero rb = (if ok then [x] else []) ++ contents zero rb'.
Proof.
  intros Hwf. destruct (Z_lt_ge_dec (read_pos_ rb) (write_pos_ rb)) as [Hlt | Hge].
  - destruct (try_pop_ok rb out Hwf Hlt) as (x & rb' & E & Hwf' & Hc & _).
    exists true, x, rb'. repeat split; assumption.
  - exists false, out, rb. rewrite try_pop_fail by lia. repeat split; assumption.
Qed.

(** *** The consumer's bulk operations *)

Lemma view_take mask (b : list T) p n m :
  (n <= m)%nat -> view zero mask b p n = take n (view zero mask b p m).
Proof.
  intros Hnm. replace m with (n + (m - n))%nat by lia.
  rewrite view_app, take_app_length'; [reflexivity | symmetry; apply length_view].
Qed.

Lemma view_drop mask (b : list T) p n m :
  (n <= m)%nat ->
  view zero mask b (p + Z.of_nat n) (m - n) = drop n (view zero mask b p m).
Proof.
  intros Hnm. replace m with (n + (m - n))%nat at 2 by lia.
  rewrite view_app, drop_app_length'; [reflexivity | symmetry; apply length_view].
Qed.

Lemma copy_out_nat rb r (n : nat) out :
  (n <= length out)%nat ->
  copy_out zero rb r (Z.of_nat n) out =
  view zero (mask_ rb) (buffer_ rb) r n ++ drop n out.
Proof.
  unfold copy_out. rewrite Nat2Z.id. induction n as [| n IH]; intros Hn.
  - reflexivity.
  - rewrite view_snoc, <- app_assoc.
    rewrite seq_S, foldl_app, IH by lia.
    destruct (lookup_lt_is_Some_2 out n ltac:(lia)) as [y Hy].
    rewrite (drop_S _ _ _ Hy).
    cbn [foldl Nat.add].
    rewrite insert_app_r_alt by (rewrite length_view; lia).
    rewrite length_view, Nat.sub_diag. reflexivity.
Qed.

Lemma copy_out_spec rb r count out :
  0 <= count <= Z.of_nat (length out) ->
  copy_out zero rb r count out =
  view zero (mask_ rb) (buffer_ rb) r (Z.to_nat count) ++ drop (Z.to_nat count) out.
Proof.
  intros Hc. rewrite <- (Z2Nat.id count) at 1 by lia.
  apply copy_out_nat. lia.
Qed.

(** Advancing [read_pos_] by [n] drops the [n] oldest elements. *)
Lemma advance_read_spec rb n :
  wf rb -> 0 <= n <= size rb ->
  let rb' := store_read_pos rb (wrap (read_pos_ rb + n)) in
  wf rb' /\
  contents zero rb' = drop (Z.to_nat n) (contents zero rb) /\
  size rb' = size rb - n.
Proof.
  intros (k & Hk & Hcap & Hmask & Hlen & Hw & Hr & Hsz) Hn rb'.
  pose proof (pow2_le_63 k Hk) as Hp.
  assert (H63 : 2 ^ 63 < modulus) by reflexivity.
  assert (Hsize' : size rb' = size rb - n).
  { unfold rb', store_read_pos, size at 1; simpl.
    rewrite size_after_read. apply wrap_small. unfold in_range. lia. }
  split; [| split; [| exact Hsize']].
  - exists k. rewrite Hsize'. unfold rb', store_read_pos; simpl.
    split_and!; try assumption; try lia; apply wrap_range.
  - rewrite !contents_view, Hsize'. unfold rb', store_read_pos; simpl.
    rewrite view_wrap.
    replace (Z.to_nat (size rb - n)) with (Z.to_nat (size rb) - Z.to_nat n)%nat by lia.
    rewrite <- (Z2Nat.id n) at 1 by lia.
    apply view_drop. lia.
Qed.

Lemma discard_spec rb count :
  wf rb -> 0 <= count ->
  let n := Z.min (size rb) count in
  exists rb',
    discard rb count = (n, rb') /\ wf rb' /\
    contents zero rb' = drop (Z.to_nat n) (contents zero rb) /\
    size rb' = size rb - n.
Proof.
  intros Hwf Hc n. pose proof (size_range rb) as Hs. unfold in_range in Hs.
  eexists. split; [reflexivity |].
  apply advance_read_spec; [exact Hwf |]. fold (size rb). lia.
Qed.

Lemma try_pop_span_spec rb out :
  wf rb ->
  let n := Z.min (size rb) (Z.of_nat (length out)) in
  exists rb',
    try_pop_span zero rb out =
      (n, take (Z.to_nat n) (contents zero rb) ++ drop (Z.to_nat n) out, rb') /\
    wf rb' /\
    contents zero rb' = drop (Z.to_nat n) (contents zero rb) /\
    size rb' = size rb - n.
Proof.
  intros Hwf n. pose proof (size_range rb) as Hs. unfold in_range in Hs.
  eexists. split.
  - unfold try_pop_span. fold (size rb). fold n.
    rewrite copy_out_spec by lia. rewrite contents_view.
    rewrite <- view_take by lia. reflexivity.
  - apply advance_read_spec; [exact Hwf |]. fold (size rb). lia.
Qed.

(** *** The producer's bulk push *)

Lemma add_mod_pow2_congr a b d k :
  a mod 2 ^ k = b mod 2 ^ k -> (a + d) mod 2 ^ k = (b + d) mod 2 ^ k.
Proof.
  intros H. rewrite <- (Zplus_mod_idemp_l a), H, Zplus_mod_idemp_l. reflexivity.
Qed.

Lemma store_loop_spec rb k data (j : nat) :
  0 <= k <= 63 -> mask_ rb = 2 ^ k - 1 ->
  Z.of_nat (length (buffer_ rb)) = 2 ^ k ->
  in_range (write_pos_ rb) ->
  size rb + Z.of_nat j <= 2 ^ k -> (j <= length data)%nat ->
  let L := foldl (fun b i =>
                    <[slot_of rb (wrap (write_pos_ rb + Z.of_nat i)) := nth i data zero]> b)
                 (buffer_ rb) (seq 0 j) in
  length L = length (buffer_ rb) /\
  view zero (2 ^ k - 1) L (write_pos_ rb) j = take j data /\
  view zero (2 ^ k - 1) L (read_pos_ rb) (Z.to_nat (size rb)) =
  view zero (2 ^ k - 1) (buffer_ rb) (read_pos_ rb) (Z.to_nat (size rb)).
Proof.
  intros Hk Hmask Hlen Hw. pose proof (size_range rb) as Hs. unfold in_range in Hs.
  induction j as [| j IH]; intros Hroom Hj L.
  - split_and!; reflexivity.
  - destruct IH as (IH1 & IH2 & IH3); [lia | lia |].
    unfold L. rewrite seq_S, foldl_app. cbn [foldl Nat.add].
    set (L0 := foldl _ (buffer_ rb) (seq 0 j)) in *.
    unfold slot_of. rewrite Hmask.
    destruct (lookup_lt_is_Some_2 data j ltac:(lia)) as [y Hy].
    rewrite (nth_lookup_Some _ _ zero _ Hy).
    split_and!.
    + rewrite length_insert. exact IH1.
    + rewrite view_snoc, (take_S_r _ _ _ Hy). f_equal.
      * rewrite view_insert_other; [exact IH2 | exact Hk |].
        intros i Hi.
        replace (write_pos_ rb + Z.of_nat j)
          with (write_pos_ rb + i + (Z.of_nat j - i)) by lia.
        slots_differ.
      * f_equal. apply cell_insert_same; [exact Hk | lia | reflexivity].
    + rewrite view_insert_other; [exact IH3 | exact Hk |].
      intros i Hi.
      rewrite (add_mod_pow2_congr _ _ (Z.of_nat j) k (write_pos_mod rb k Hk Hw)).
      replace (read_pos_ rb + size rb + Z.of_nat j)
        with (read_pos_ rb + i + (size rb + Z.of_nat j - i)) by lia.
      slots_differ.
Qed.

Lemma try_push_span_spec rb data :
  wf rb ->
  let n := Z.min (capacity_ rb - size rb) (Z.of_nat (length data)) in
  exists rb',
    try_push_span zero rb data = (n, rb') /\ wf rb' /\
    contents zero rb' = contents zero rb ++ take (Z.to_nat n) data /\
    size rb' = size rb + n.
Proof.
  intros (k & Hk & Hcap & Hmask & Hlen & Hw & Hr & Hsz) n.
  pose proof (size_range rb) as Hs. unfold in_range in Hs.
  pose proof (pow2_le_63 k Hk) as Hp.
  assert (H63 : 2 ^ 63 < modulus) by reflexivity.
  assert (Hav : wrap (capacity_ rb - size rb) = capacity_ rb - size rb).
  { apply wrap_small. unfold in_range. lia. }
  unfold try_push_span. fold (size rb). rewrite Hav. fold n.
  eexists. split; [reflexivity |].
  destruct (store_loop_spec rb k data (Z.to_nat n) Hk Hmask Hlen Hw)
    as (L1 & L2 & L3); [lia | lia |].
  set (L := foldl _ (buffer_ rb) (seq 0 (Z.to_nat n))) in *.
  assert (Hsize' : wrap (wrap (write_pos_ rb + n) - read_pos_ rb) = size rb + n).
  { rewrite size_after_write. apply wrap_small. unfold in_range. lia. }
  split_and!.
  - exists k. unfold store_write_pos, store_buffer, size; simpl.
    rewrite Hsize', L1.
    split_and!; try assumption; try lia; apply wrap_range.
  - rewrite !contents_view. unfold store_write_pos, store_buffer, size at 1; simpl.
    rewrite Hsize', Hmask.
    replace (Z.to_nat (size rb + n)) with (Z.to_nat (size rb) + Z.to_nat n)%nat by lia.
    rewrite view_app, L3. f_equal.
    rewrite Z2Nat.id by lia.
    rewrite <- view_wrap, read_plus_size by exact Hw. exact L2.
  - exact Hsize'.
Qed.

(** *** push_overwrite *)

Lemma push_overwrite_room rb v :
  wf rb -> size rb < capacity_ rb ->
  push_overwrite rb v = snd (try_push rb v).
Proof.
  intros (k & Hk & Hcap & Hmask & Hlen & Hw & Hr & Hsz) Hroom.
  pose proof (size_range rb) as Hs. unfold in_range in Hs.
  pose proof (pow2_le_63 k Hk) as Hp.
  assert (H63 : 2 ^ 63 < modulus) by reflexivity.
  unfold push_overwrite, try_push. fold (size rb). simpl.
  rewrite size_after_write, (wrap_small (size rb + 1)) by (unfold in_range; lia).
  rewrite Z.geb_leb, Z.gtb_ltb.
  destruct (Z.leb_spec (capacity_ rb) (size rb)); [lia |].
  destruct (Z.ltb_spec (capacity_ rb) (size rb + 1)); [lia |].
  reflexivity.
Qed.

Lemma push_overwrite_full rb v :
  wf rb -> size rb = capacity_ rb ->
  let rb' := push_overwrite rb v in
  wf rb' /\
  read_pos_ rb' = wrap (read_pos_ rb + 1) /\
  write_pos_ rb' = wrap (write_pos_ rb + 1) /\
  capacity_ rb' = capacity_ rb /\
  size rb' = capacity_ rb /\
  contents zero rb' = tail (contents zero rb) ++ [v].
Proof.
  intros (k & Hk & Hcap & Hmask & Hlen & Hw & Hr & Hsz) Hfull rb'.
  pose proof (size_range rb) as Hs. unfold in_range in Hs.
  pose proof (pow2_le_63 k Hk) as Hp.
  assert (H63 : 2 ^ 63 + 1 < modulus) by reflexivity.
  assert (Hr' : wrap (wrap (write_pos_ rb + 1) - capacity_ rb) = wrap (read_pos_ rb + 1)).
  { rewrite wrap_sub_l. rewrite <- (read_plus_size rb Hw), Hfull.
    rewrite <- wrap_sub_l, wrap_add_l, wrap_sub_l. f_equal. lia. }
  assert (E : rb' = store_read_pos
                      (store_write_pos
                         (store_buffer rb (<[slot_of rb (write_pos_ rb) := v]> (buffer_ rb)))
                         (wrap (write_pos_ rb + 1)))
                      (wrap (read_pos_ rb + 1))).
  { unfold rb', push_overwrite. simpl.
    rewrite size_after_write, (wrap_small (size rb + 1)) by (unfold in_range; lia).
    rewrite Z.gtb_ltb.
    destruct (Z.ltb_spec (capacity_ rb) (size rb + 1)); [| lia].
    rewrite Hr'. reflexivity. }
  assert (Hsize' : size rb' = capacity_ rb).
  { rewrite E. unfold size, store_read_pos, store_write_pos, store_buffer; simpl.
    rewrite wrap_sub_r, wrap_sub_l.
    replace (write_pos_ rb + 1 - (read_pos_ rb + 1))
      with (write_pos_ rb - read_pos_ rb) by lia.
    exact Hfull. }
  split_and!.
  - exists k. rewrite Hsize'. rewrite E.
    unfold store_read_pos, store_write_pos, store_buffer; simpl.
    rewrite length_insert.
    split_and!; try assumption; try lia; apply wrap_range.
  - rewrite E. reflexivity.
  - rewrite E. reflexivity.
  - rewrite E. reflexivity.
  - exact Hsize'.
  - rewrite !contents_view, Hsize', <- Hfull. rewrite E.
    unfold store_read_pos, store_write_pos, store_buffer; simpl.
    assert (Hn : Z.to_nat (size rb) = S (Z.to_nat (size rb - 1))) by lia.
    rewrite Hn. set (n' := Z.to_nat (size rb - 1)).
    rewrite (view_cons zero (mask_ rb) (buffer_ rb) (read_pos_ rb)). cbn [tail].
    rewrite view_snoc, view_wrap, cell_shift_wrap, Hmask.
    unfold slot_of. rewrite Hmask.
    rewrite <- (wrap_small (write_pos_ rb) Hw) at 1 2.
    f_equal.
    + apply view_insert_other; [exact Hk |]. intros i Hi.
      rewrite (write_pos_mod rb k Hk Hw).
      replace (read_pos_ rb + size rb)
        with (read_pos_ rb + 1 + i + (size rb - 1 - i)) by lia.
      slots_differ.
    + f_equal. apply cell_insert_same; [exact Hk | exact Hlen |].
      rewrite (write_pos_mod rb k Hk Hw). f_equal. lia.
Qed.

End RingBufferSpecs.

(** ** The power-of-two test [n & (n - 1)] *)

Lemma land_pred_pow2 k : 0 <= k -> Z.land (2 ^ k) (2 ^ k - 1) = 0.
Proof.
  intros Hk. rewrite land_mask_mod by exact Hk. apply Z.mod_same.
  pose proof (Z.pow_pos_nonneg 2 k ltac:(lia) Hk). lia.
Qed.

Lemma land_pred_not_pow2 n :
  0 < n -> ~ is_power_of_two n -> Z.land n (n - 1) <> 0.
Proof.
  intros Hn Hnp Hz.
  pose proof (Z.log2_spec n Hn) as [Hlo Hhi].
  pose proof (Z.log2_nonneg n) as HL.
  assert (Hne : n <> 2 ^ Z.log2 n).
  { intros E. apply Hnp. exists (Z.log2 n). split; [exact HL | exact E]. }
  assert (HL' : Z.log2 (n - 1) = Z.log2 n).
  { apply Z.log2_unique; [exact HL |]. rewrite <- Z.add_1_r in Hhi |- *. lia. }
  assert (Hb : Z.testbit (Z.land n (n - 1)) (Z.log2 n) = true).
  { rewrite Z.land_spec, Z.bit_log2 by lia.
    rewrite <- HL' at 1. rewrite Z.bit_log2 by lia. reflexivity. }
  rewrite Hz, Z.bits_0 in Hb. discriminate.
Qed.

Lemma land_pred_zero_pow2 n :
  0 < n -> Z.land n (n - 1) = 0 -> is_power_of_two n.
Proof.
  intros Hn Hz.
  destruct (Z.eq_dec n (2 ^ Z.log2 n)) as [E | Hne].
  - exists (Z.log2 n). split; [apply Z.log2_nonneg | exact E].
  - exfalso. apply (land_pred_not_pow2 n Hn); [| exact Hz].
    intros (k & Hk & E). apply Hne. rewrite E at 2.
    rewrite Z.log2_pow2 by exact Hk. exact E.
Qed.

(** ** Ring buffer: construction *)

Section RingBufferTheorems.
Context {T : Type}.
Variable zero : T.
Implicit Types rb : RingBuffer T.

Lemma next_power_of_two_range n : in_range (next_power_of_two n).
Proof.
  unfold next_power_of_two. destruct (n =? 0).
  - unfold in_range. rewrite modulus_eq. lia.
  - apply wrap_range.
Qed.

(** A buffer whose constructor ran through its [assert] satisfies the
    class invariant and is empty. *)
Lemma RingBuffer_new_wf n rb :
  RingBuffer_new zero n = Some rb ->
  wf rb /\ size rb = 0 /\ write_pos_ rb = 0 /\ read_pos_ rb = 0 /\
  capacity_ rb = next_power_of_two n.
Proof.
  unfold RingBuffer_new. set (c := next_power_of_two n).
  pose proof (next_power_of_two_range n) as Hc. fold c in Hc. unfold in_range in Hc.
  destruct (Z.ltb_spec 0 c) as [Hpos | ]; [| discriminate].
  rewrite (wrap_small (c - 1)) by (unfold in_range; lia).
  destruct (Z.eqb_spec (Z.land c (c - 1)) 0) as [Hz | ]; [| discriminate].
  simpl. intros [= <-]. simpl.
  destruct (land_pred_zero_pow2 c Hpos Hz) as (k & Hk & Ek).
  assert (Hk63 : k <= 63).
  { assert (k < 64); [| lia]. apply pow2_le_mono_inv; [lia | lia |].
    rewrite <- Ek. exact (proj2 Hc). }
  split; [| split_and!; reflexivity].
  exists k. simpl. rewrite length_replicate.
  unfold size, in_range; simpl. rewrite modulus_eq.
  split_and!; try lia.
  change (wrap (0 - 0)) with 0. lia.
Qed.

Lemma RingBuffer_new_pow2 n k :
  0 <= k <= 63 -> next_power_of_two n = 2 ^ k ->
  RingBuffer_new zero n =
  Some (mkRingBuffer (2 ^ k) (2 ^ k - 1) (replicate (Z.to_nat (2 ^ k)) zero) 0 0).
Proof.
  intros Hk E. unfold RingBuffer_new. rewrite E.
  pose proof (pow2_le_63 k Hk) as Hp.
  assert (H63 : 2 ^ 63 < modulus) by reflexivity.
  rewrite (wrap_small (2 ^ k - 1)) by (unfold in_range; lia).
  rewrite land_pred_pow2 by lia.
  destruct (Z.ltb_spec 0 (2 ^ k)); [reflexivity | lia].
Qed.

(** C3, as amended.  For every requested minimum capacity [n] with
    [0 <= n <= 2^63] the constructor produces a buffer whose [capacity()]
    is the smallest power of two greater than or equal to [max n 1]; a
    request of [0] yields capacity [1]. *)
Theorem RingBuffer_capacity_rounding (n : Z) :
  0 <= n <= 2 ^ 63 ->
  exists rb,
    RingBuffer_new zero n = Some rb /\
    smallest_power_of_two_ge (Z.max n 1) (capacity rb) /\
    (n = 0 -> capacity rb = 1).
Proof.
  intros Hn.
  destruct (next_power_of_two_smallest n Hn) as (Hsm & k & Hk & E).
  eexists. split; [apply (RingBuffer_new_pow2 n k Hk E) |].
  unfold capacity; simpl. rewrite <- E. split; [exact Hsm |].
  intros ->. reflexivity.
Qed.

End RingBufferTheorems.

(** A request of ten elements gives sixteen. *)
Lemma RingBuffer_capacity_rounding_witness :
  exists rb : RingBuffer Z,
    RingBuffer_new 0 10 = Some rb /\
    smallest_power_of_two_ge (Z.max 10 1) (capacity rb) /\
    (10 = 0 -> capacity rb = 1).
Proof.
  apply (RingBuffer_capacity_rounding 0 10). vm_compute. split; discriminate.
Defined.

(** C3 as stated fails above [2^63]: the 64-bit computation wraps to a
    capacity of [0] and the constructor's assertion fails. *)
Lemma RingBuffer_capacity_rounding_counterexample :
  next_power_of_two (2 ^ 63 + 1) = 0 /\
  ~ exists rb : RingBuffer Z,
      RingBuffer_new 0 (2 ^ 63 + 1) = Some rb /\
      smallest_power_of_two_ge (Z.max (2 ^ 63 + 1) 1) (capacity rb).
Proof.
  split; [vm_compute; reflexivity |].
  intros (rb & E & _). vm_compute in E. discriminate.
Qed.

(** ** Ring buffer: FIFO order *)

Section RingBufferFifo.
Context {T : Type}.
Variable zero : T.
Implicit Types rb : RingBuffer T.

(** Every call keeps the invariant, and the accepted values are always
    the returned ones followed by the pending ones. *)
Lemma step_invariant rb pushed popped o :
  wf rb -> pushed = popped ++ contents zero rb ->
  exists rb' pushed' popped',
    step zero (rb, pushed, popped) o = (rb', pushed', popped') /\
    wf rb' /\ pushed' = popped' ++ contents zero rb'.
Proof.
  intros Hwf Hinv. destruct o as [v | data | out | out]; unfold step.
  - destruct (Z_lt_ge_dec (size rb) (capacity_ rb)) as [Hroom | Hfull].
    + destruct (try_push_ok zero rb v Hwf Hroom) as (rb' & E & Hwf' & Hc & _).
      rewrite E. eexists _, _, _. split; [reflexivity |]. split; [exact Hwf' |].
      rewrite Hc, Hinv, app_assoc. reflexivity.
    + rewrite try_push_full by lia.
      eexists _, _, _. split; [reflexivity |]. split; assumption.
  - destruct (try_push_span_spec zero rb data Hwf) as (rb' & E & Hwf' & Hc & _).
    rewrite E. eexists _, _, _. split; [reflexivity |]. split; [exact Hwf' |].
    rewrite Hc, Hinv, app_assoc. reflexivity.
  - destruct (try_pop_spec zero rb out Hwf) as (ok & x & rb' & E & Hwf' & Hc).
    rewrite E. eexists _, _, _. split; [reflexivity |]. split; [exact Hwf' |].
    rewrite Hinv, Hc. destruct ok; simpl.
    + rewrite <- app_assoc. reflexivity.
    + reflexivity.
  - destruct (try_pop_span_spec zero rb out Hwf) as (rb' & E & Hwf' & Hc & _).
    rewrite E. eexists _, _, _. split; [reflexivity |]. split; [exact Hwf' |].
    set (n := Z.min (size rb) (Z.of_nat (length out))) in *.
    pose proof (size_range rb) as Hs. unfold in_range in Hs.
    rewrite take_app_length'.
    2:{ rewrite length_take, contents_view, length_view. lia. }
    rewrite Hc, <- app_assoc, take_drop. exact Hinv.
Qed.

Lemma run_invariant ops rb pushed popped :
  wf rb -> pushed = popped ++ contents zero rb ->
  exists rb' pushed' popped',
    foldl (step zero) (rb, pushed, popped) ops = (rb', pushed', popped') /\
    wf rb' /\ pushed' = popped' ++ contents zero rb'.
Proof.
  revert rb pushed popped. induction ops as [| o ops IH]; intros rb pushed popped Hwf Hinv.
  - eexists _, _, _. split; [reflexivity |]. split; assumption.
  - destruct (step_invariant rb pushed popped o Hwf Hinv)
      as (rb1 & pushed1 & popped1 & E & Hwf1 & Hinv1).
    cbn [foldl]. rewrite E. apply IH; assumption.
Qed.

(** C4.  For every sequence of [try_push] and [try_pop] calls (of either
    overload) executed one after the other on a constructed buffer, the
    values the pops returned are a prefix of the values the pushes
    accepted, in the same order. *)
Theorem RingBuffer_fifo (n : Z) (rb : RingBuffer T) (ops : list (op (T:=T))) :
  RingBuffer_new zero n = Some rb ->
  let '(_, pushed, popped) := run zero rb ops in
  popped `prefix_of` pushed.
Proof.
  intros Hnew. destruct (RingBuffer_new_wf zero n rb Hnew) as (Hwf & Hsz & _).
  assert (Hc : contents zero rb = []).
  { unfold contents. rewrite Hsz. reflexivity. }
  destruct (run_invariant ops rb [] [] Hwf) as (rb' & pushed' & popped' & E & _ & Hinv).
  { rewrite Hc. reflexivity. }
  unfold run. rewrite E. exists (contents zero rb'). exact Hinv.
Qed.

(** C5.  For every buffer state and every output span, [peek] into the
    span followed by [discard] of the span's length copies the same
    values, returns the same count and leaves the same buffer state as
    the span [try_pop]. *)
Theorem peek_discard_try_pop (rb : RingBuffer T) (out : list T) :
  let k := Z.of_nat (length out) in
  let '(copied, out_peek) := peek zero rb out in
  let '(discarded, rb_discard) := discard rb k in
  try_pop_span zero rb out = (copied, out_peek, rb_discard) /\
  discarded = copied.
Proof. split; reflexivity. Qed.

End RingBufferFifo.

(** The end-to-end scenario of the specification on a buffer of four
    elements: push 1..4, a fifth push is refused, pop two, push 10 and 11,
    pop four. *)
Example RingBuffer_scenario :
  match RingBuffer_new 0 4 with
  | Some rb =>
      run 0 rb
        [OpPush 1; OpPush 2; OpPush 3; OpPush 4; OpPush 5;
         OpPop 0; OpPop 0; OpPush 10; OpPush 11;
         OpPop 0; OpPop 0; OpPop 0; OpPop 0]
  | None => (mkRingBuffer 0 0 [] 0 0, [], [])
  end
  = (mkRingBuffer 4 3 [10; 11; 3; 4] 6 6, [1; 2; 3; 4; 10; 11], [1; 2; 3; 4; 10; 11]).
Proof. vm_compute. reflexivity. Qed.

Lemma RingBuffer_fifo_witness :
  let '(_, pushed, popped) :=
    run 0 (mkRingBuffer 4 3 [0; 0; 0; 0] 0 0)
        [OpPush 1; OpPushSpan [2; 3; 4; 5]; OpPop 0; OpPopSpan [0; 0]] in
  popped `prefix_of` pushed.
Proof.
  apply (RingBuffer_fifo 0 4 (mkRingBuffer 4 3 [0; 0; 0; 0] 0 0)). reflexivity.
Defined.

(** ** Ring buffer: overwriting pushes *)

Section RingBufferOverwrite.
Context {T : Type}.
Variable zero : T.
Implicit Types rb : RingBuffer T.

Lemma length_contents rb : length (contents zero rb) = Z.to_nat (size rb).
Proof. rewrite contents_view. apply length_view. Qed.

Lemma push_all_spec vs rb :
  wf rb -> size rb + Z.of_nat (length vs) <= capacity_ rb ->
  let rb' := push_all rb vs in
  wf rb' /\
  contents zero rb' = contents zero rb ++ vs /\
  size rb' = size rb + Z.of_nat (length vs) /\
  capacity_ rb' = capacity_ rb /\
  read_pos_ rb' = read_pos_ rb /\
  write_pos_ rb' = wrap (write_pos_ rb + Z.of_nat (length vs)).
Proof.
  revert rb. induction vs as [| v vs IH]; intros rb Hwf Hroom; simpl.
  - rewrite app_nil_r, !Z.add_0_r. split_and!; try reflexivity; [exact Hwf |].
    destruct Hwf as (k & _ & _ & _ & _ & Hw & _). symmetry. apply wrap_small, Hw.
  - simpl length in Hroom.
    destruct (try_push_ok zero rb v Hwf) as (rb1 & E & Hwf1 & Hc1 & Hs1 & Hcap1 & Hr1 & Hw1);
      [lia |].
    unfold push_all in *. rewrite E. cbn [snd].
    destruct (IH rb1 Hwf1) as (H1 & H2 & H3 & H4 & H5 & H6); [lia |].
    split_and!.
    + exact H1.
    + rewrite H2, Hc1, <- app_assoc. reflexivity.
    + lia.
    + congruence.
    + congruence.
    + rewrite H6, Hw1, wrap_add_l. f_equal. lia.
Qed.

Lemma overwrite_all_full ws rb :
  wf rb -> size rb = capacity_ rb ->
  let rb' := overwrite_all rb ws in
  wf rb' /\
  size rb' = capacity_ rb /\
  capacity_ rb' = capacity_ rb /\
  contents zero rb' = drop (length ws) (contents zero rb ++ ws) /\
  read_pos_ rb' = wrap (read_pos_ rb + Z.of_nat (length ws)) /\
  write_pos_ rb' = wrap (write_pos_ rb + Z.of_nat (length ws)).
Proof.
  revert rb. induction ws as [| v ws IH]; intros rb Hwf Hfull; simpl.
  - rewrite app_nil_r, !Z.add_0_r.
    split_and!; try reflexivity; try assumption.
    + destruct Hwf as (k & _ & _ & _ & _ & _ & Hr & _). symmetry. apply wrap_small, Hr.
    + destruct Hwf as (k & _ & _ & _ & _ & Hw & _). symmetry. apply wrap_small, Hw.
  - destruct (push_overwrite_full zero rb v Hwf Hfull)
      as (Hwf1 & Hr1 & Hw1 & Hcap1 & Hs1 & Hc1).
    unfold overwrite_all in *.
    destruct (IH (push_overwrite rb v) Hwf1) as (H1 & H2 & H3 & H4 & H5 & H6);
      [congruence |].
    assert (Hne : exists x, contents zero rb = x :: tail (contents zero rb)).
    { pose proof (length_contents rb) as Hl.
      destruct Hwf as (k & Hk & Hcap & _).
      pose proof (pow2_le_63 k Hk).
      destruct (contents zero rb) as [| x c']; [simpl in Hl; lia |].
      exists x. reflexivity. }
    destruct Hne as [x Hx].
    split_and!.
    + exact H1.
    + congruence.
    + congruence.
    + rewrite H4, Hc1, Hx. cbn [tail]. rewrite <- app_assoc. reflexivity.
    + rewrite H5, Hr1, wrap_add_l. f_equal. lia.
    + rewrite H6, Hw1, wrap_add_l. f_equal. lia.
Qed.

(** While [read_pos_ <= write_pos_] holds numerically, successive
    single-element pops return the pending elements, oldest first. *)
Lemma pop_n_spec n rb :
  wf rb -> read_pos_ rb <= write_pos_ rb ->
  fst (pop_n zero n rb) = take n (contents zero rb) /\
  contents zero (snd (pop_n zero n rb)) = drop n (contents zero rb).
Proof.
  revert rb. induction n as [| n IH]; intros rb Hwf Hle.
  - split; reflexivity.
  - destruct (Z_lt_ge_dec (read_pos_ rb) (write_pos_ rb)) as [Hlt | Hge].
    + destruct (try_pop_ok zero rb zero Hwf Hlt)
        as (x & rb1 & E & Hwf1 & Hc & _ & Hr1 & Hw1).
      destruct (IH rb1 Hwf1) as [IH1 IH2]; [lia |].
      cbn [pop_n]. rewrite E. destruct (pop_n zero n rb1) as [vs rb2].
      cbn [fst snd] in *. rewrite Hc. cbn [take drop]. split; congruence.
    + assert (Hc : contents zero rb = []).
      { unfold contents, size. replace (write_pos_ rb - read_pos_ rb) with 0 by lia.
        reflexivity. }
      destruct (IH rb Hwf Hle) as [IH1 IH2].
      cbn [pop_n]. rewrite try_pop_fail by lia.
      destruct (pop_n zero n rb) as [vs rb2]. cbn [fst snd] in *.
      rewrite IH1, IH2, Hc. rewrite !take_nil, !drop_nil. split; reflexivity.
Qed.

(** X30.  For every empty ring buffer of capacity [C] whose
    write counter stays below [2^64] during the scenario, after filling
    it with [C] values and then calling [push_overwrite] [k] more times
    the buffer still holds exactly [C] values and [C] successive
    [try_pop] calls return the last [C] pushed values in order; each
    [push_overwrite] on a full buffer discards exactly the oldest element
    by advancing [read_pos_] by one. *)
Theorem push_overwrite_keeps_newest (rb : RingBuffer T) (vs ws : list T) :
  wf rb -> size rb = 0 ->
  Z.of_nat (length vs) = capacity_ rb ->
  write_pos_ rb + capacity_ rb + Z.of_nat (length ws) < modulus ->
  let filled := push_all rb vs in
  let rb' := overwrite_all filled ws in
  (size filled = capacity_ rb /\ contents zero filled = vs) /\
  size rb' = capacity_ rb /\
  fst (pop_n zero (length vs) rb') = drop (length ws) (vs ++ ws) /\
  (forall rb0 v, wf rb0 -> full rb0 = true ->
     read_pos_ (push_overwrite rb0 v) = wrap (read_pos_ rb0 + 1) /\
     size (push_overwrite rb0 v) = capacity_ rb0 /\
     contents zero (push_overwrite rb0 v) = tail (contents zero rb0) ++ [v]).
Proof.
  intros Hwf Hempty Hlen Hnowrap filled rb'.
  assert (Hc0 : contents zero rb = []).
  { unfold contents. rewrite Hempty. reflexivity. }
  destruct (push_all_spec vs rb Hwf) as (Hwf1 & Hc1 & Hs1 & Hcap1 & Hr1 & Hw1); [lia |].
  fold filled in Hwf1, Hc1, Hs1, Hcap1, Hr1, Hw1.
  rewrite Hc0 in Hc1. simpl in Hc1.
  destruct (overwrite_all_full ws filled Hwf1) as (Hwf2 & Hs2 & Hcap2 & Hc2 & Hr2 & Hw2);
    [lia |].
  fold rb' in Hwf2, Hs2, Hcap2, Hc2, Hr2, Hw2.
  split; [split; [lia | exact Hc1] |]. split; [lia |]. split.
  - destruct Hwf as (k & Hk & Hcap & Hmask & Hlenb & Hw & Hr & Hsz).
    pose proof (empty_positions rb Hw Hr Hempty) as Hwr.
    pose proof (pow2_le_63 k Hk) as Hp.
    unfold in_range in Hw, Hr.
    assert (Hle : read_pos_ rb' <= write_pos_ rb').
    { rewrite Hr2, Hw2, Hr1, Hw1, wrap_add_l.
      rewrite !wrap_small by (unfold in_range; lia). lia. }
    destruct (pop_n_spec (length vs) rb' Hwf2 Hle) as [Hp1 _].
    rewrite Hp1, Hc2, Hc1. apply take_ge.
    rewrite length_drop, length_app. lia.
  - intros rb0 v Hwf0 Hfull0. unfold full in Hfull0.
    apply Z.eqb_eq in Hfull0.
    destruct (push_overwrite_full zero rb0 v Hwf0 Hfull0) as (_ & H1 & _ & _ & H2 & H3).
    split_and!; assumption.
Qed.

(** A freshly constructed buffer meets the conditions of the scenario
    unless its capacity is [2^63] and as many values are pushed over it. *)
Lemma RingBuffer_new_scenario n rb k :
  RingBuffer_new zero n = Some rb ->
  0 <= k <= capacity_ rb -> capacity_ rb + k < modulus ->
  wf rb /\ size rb = 0 /\ write_pos_ rb + capacity_ rb + k < modulus.
Proof.
  intros Hnew Hk Hc.
  destruct (RingBuffer_new_wf zero n rb Hnew) as (Hwf & Hs & Hw & _).
  rewrite Hw. split_and!; [exact Hwf | exact Hs | lia].
Qed.

End RingBufferOverwrite.

(** The test [PushOverwriteDropsOldData] and its continuation: a buffer
    of four, filled with 0..3, then 100 and 101 pushed over it. *)
Lemma push_overwrite_keeps_newest_witness :
  let rb := mkRingBuffer 4 3 [0; 0; 0; 0] 0 0 in
  let rb' := overwrite_all (push_all rb [0; 1; 2; 3]) [100; 101] in
  size rb' = 4 /\ fst (pop_n 0 4 rb') = [2; 3; 100; 101].
Proof.
  pose proof (push_overwrite_keeps_newest 0
                (mkRingBuffer 4 3 [0; 0; 0; 0] 0 0) [0; 1; 2; 3] [100; 101]) as H.
  destruct H as (_ & Hs & Hp & _).
  - exists 2. vm_compute. split_and!; congruence.
  - reflexivity.
  - reflexivity.
  - reflexivity.
  - split; [exact Hs | exact Hp].
Defined.

(** Each round of [churn] advances both counters by one. *)
Lemma churn_counters (n : nat) :
  Z.of_nat n < modulus - 1 ->
  churn 0 0 n (mkRingBuffer 2 1 [0; 0] 0 0) =
  mkRingBuffer 2 1 [0; 0] (Z.of_nat n) (Z.of_nat n).
Proof.
  induction n as [| n IH]; intros Hn; [reflexivity |].
  change (churn 0 0 (S n) ?rb) with (snd (try_pop 0 (snd (try_push (churn 0 0 n rb) 0)) 0)).
  rewrite IH by lia. clear IH.
  assert (Hw : wrap (Z.of_nat n + 1) = Z.of_nat (S n)).
  { rewrite wrap_small by (unfold in_range; lia). lia. }
  unfold try_push, try_pop, store_buffer, store_write_pos, store_read_pos, slot_of.
  cbn [write_pos_ read_pos_ capacity_ mask_ buffer_ fst snd].
  rewrite Z.sub_diag. change (wrap 0 >=? 2) with false. cbv iota.
  cbn [write_pos_ read_pos_ capacity_ mask_ buffer_ fst snd].
  rewrite Hw.
  destruct (Z.geb_spec (Z.of_nat n) (Z.of_nat (S n))) as [Hbad | _]; [lia |].
  cbn [write_pos_ read_pos_ capacity_ mask_ buffer_ fst snd].
  f_equal.
  change 1 with (Z.ones 1) at 1. rewrite Z.land_ones by lia. change (2 ^ 1) with 2.
  pose proof (Z.mod_pos_bound (Z.of_nat n) 2 ltac:(lia)) as Hm.
  assert (Hc : Z.of_nat n mod 2 = 0 \/ Z.of_nat n mod 2 = 1) by lia.
  destruct Hc as [-> | ->]; reflexivity.
Qed.

(** C6.  The overwrite scenario on a buffer of capacity two whose counters
    have come to [2^64 - 2], as [2^64 - 2] rounds of a push and a pop
    leave them on a constructed buffer: after filling it with [1; 2] and
    one [push_overwrite] of [3] the buffer holds [2; 3] and [size()] is
    two, and the bulk [try_pop] returns both values; the single-element
    [try_pop] compares the raw counters, finds [read_pos_ >= write_pos_]
    because [write_pos_] has wrapped to one, reports an empty buffer and
    returns nothing. *)
Theorem try_pop_reports_empty_after_wrap :
  let fresh := mkRingBuffer 2 1 [0; 0] 0 0 in
  let rb := churn 0 0 (Z.to_nat (2 ^ 64 - 2)) fresh in
  let rb' := overwrite_all (push_all rb [1; 2]) [3] in
  RingBuffer_new 0 2 = Some fresh /\
  rb = mkRingBuffer 2 1 [0; 0] (2 ^ 64 - 2) (2 ^ 64 - 2) /\
  (wf rb' /\ size rb' = 2 /\ empty rb' = false /\ contents 0 rb' = [2; 3]) /\
  (write_pos_ rb' = 1 /\ read_pos_ rb' = 2 ^ 64 - 1) /\
  try_pop 0 rb' 7 = (false, 7, rb') /\
  fst (pop_n 0 2 rb') = [] /\
  fst (try_pop_span 0 rb' [0; 0]) = (2, [2; 3]).
Proof.
  intros fresh rb rb'.
  assert (E : rb = mkRingBuffer 2 1 [0; 0] (2 ^ 64 - 2) (2 ^ 64 - 2)).
  { unfold rb, fresh. rewrite churn_counters.
    - rewrite Z2Nat.id by lia. reflexivity.
    - rewrite Z2Nat.id by lia. rewrite modulus_eq. lia. }
  split; [reflexivity |]. split; [exact E |].
  unfold rb'. rewrite E. clear E rb' rb.
  split; [split; [exists 1; vm_compute; split_and!; congruence |] |];
    vm_compute; split_and!; congruence.
Qed.

(** ** FFT processor: construction *)

Section FFTConstruction.
Variable P : Platform.

Lemma FFT_new_guard_passes cfg :
  Z.land (fft_size cfg) (wrap (fft_size cfg - 1)) = 0 ->
  FFT.new P cfg =
  match FFT.allocate_buffers P (mkFFTProcessor cfg (Some (mkFFTWData false [] [])) []) with
  | Ok fp => Ok (FFT.compute_window P fp)
  | Throw e => Throw e
  | Abort => Abort
  end.
Proof.
  intros H. unfold FFT.new. rewrite H. reflexivity.
Qed.

(** X10.  Every positive size that is not a power of two is rejected. *)
Lemma FFT_new_rejects_non_power_of_two cfg :
  0 < fft_size cfg < modulus -> ~ is_power_of_two (fft_size cfg) ->
  FFT.new P cfg = Throw (invalid_argument "FFT size must be a power of two").
Proof.
  intros Hn Hnp. unfold FFT.new.
  rewrite (wrap_small (fft_size cfg - 1)) by (unfold in_range; lia).
  destruct (Z.eqb_spec (Z.land (fft_size cfg) (fft_size cfg - 1)) 0) as [Hz | _].
  - exfalso. exact (land_pred_not_pow2 _ (proj1 Hn) Hnp Hz).
  - reflexivity.
Qed.

(** A power of two passes the test of the constructor. *)
Lemma FFT_new_accepts_power_of_two cfg :
  fft_size cfg < modulus -> is_power_of_two (fft_size cfg) ->
  forall what, FFT.new P cfg <> Throw (invalid_argument what).
Proof.
  intros Hn (k & Hk & E) what.
  pose proof (Z.pow_pos_nonneg 2 k ltac:(lia) Hk) as Hp.
  rewrite FFT_new_guard_passes.
  - unfold FFT.allocate_buffers.
    destruct (_ || _); [discriminate |]. destruct (negb _); discriminate.
  - rewrite (wrap_small (fft_size cfg - 1)) by (unfold in_range; lia).
    rewrite E. apply land_pred_pow2. exact Hk.
Qed.

(** Zero is not a power of two. *)
Lemma zero_not_power_of_two : ~ is_power_of_two 0.
Proof.
  intros (k & Hk & E). pose proof (Z.pow_pos_nonneg 2 k ltac:(lia) Hk). lia.
Qed.

(** C1 at [fft_size = 0].  Zero is not a power of two, yet the test
    [(fft_size & (fft_size - 1)) != 0] of the constructor lets it
    through: the constructor goes on to [allocate_buffers] and never
    throws [std::invalid_argument], whatever FFTW answers. *)
Theorem FFT_new_zero_size_not_rejected
    (w : WindowFunction) (db : bool) (lo hi : float) :
  let cfg := mkFFTConfig 0 w db lo hi in
  ~ is_power_of_two (fft_size cfg) /\
  FFT.new P cfg =
    match FFT.allocate_buffers P (mkFFTProcessor cfg (Some (mkFFTWData false [] [])) []) with
    | Ok fp => Ok (FFT.compute_window P fp)
    | Throw e => Throw e
    | Abort => Abort
    end /\
  forall what, FFT.new P cfg <> Throw (invalid_argument what).
Proof.
  intros cfg. split; [exact zero_not_power_of_two |]. split.
  - apply FFT_new_guard_passes. reflexivity.
  - intros what. rewrite FFT_new_guard_passes by reflexivity.
    unfold FFT.allocate_buffers.
    destruct (_ || _); [discriminate |]. destruct (negb _); discriminate.
Qed.

End FFTConstruction.

(** ** Logarithmic bands *)

Section LogBands.
Variable P : Platform.

Lemma clamp_size_t_range v hi : 0 <= hi -> 0 <= clamp_size_t v 0 hi <= hi.
Proof.
  intros Hhi. unfold clamp_size_t.
  destruct (Z.ltb_spec v 0); [lia |]. destruct (Z.ltb_spec hi v); lia.
Qed.

Lemma log_band_range bin_count log_min log_step sample_rate fft_size i :
  1 <= bin_count < modulus ->
  let '(bin_lo, bin_hi) := FFT.log_band P bin_count log_min log_step sample_rate fft_size i in
  0 <= bin_lo < bin_hi /\ bin_hi <= bin_count.
Proof.
  intros Hb. unfold FFT.log_band.
  rewrite (wrap_small (bin_count - 1)) by (unfold in_range; lia).
  set (lo := clamp_size_t _ 0 (bin_count - 1)).
  set (hi := clamp_size_t _ 0 (bin_count - 1)).
  pose proof (clamp_size_t_range
    (size_t_of_float P
       (F32.div
          (F32.mul
             (powf P (F32.of_Z 10) (F32.add log_min (F32.mul log_step (F32.of_Z i))))
             (F32.of_Z fft_size)) sample_rate))
    (bin_count - 1) ltac:(lia)) as Hlo.
  fold lo in Hlo.
  pose proof (clamp_size_t_range
    (size_t_of_float P
       (F32.div
          (F32.mul
             (powf P (F32.of_Z 10)
                (F32.add log_min (F32.mul log_step (F32.of_Z (wrap (i + 1))))))
             (F32.of_Z fft_size)) sample_rate))
    (bin_count - 1) ltac:(lia)) as Hhi.
  fold hi in Hhi.
  rewrite (wrap_small (lo + 1)) by (unfold in_range; lia).
  destruct (Z.leb_spec hi lo); lia.
Qed.

(** C8.  Whatever the frequencies, the sample rate, the FFT size and the
    number of bars, and whatever libm and the float-to-integer
    conversion return, every pair of [compute_log_bands] for a bin count
    of at least one satisfies [bin_lo < bin_hi <= bin_count]; there is
    one pair per bar. *)
Theorem compute_log_bands_ranges
    (bin_count num_bars : Z) (min_freq max_freq sample_rate : float) (fft_size : Z) :
  1 <= bin_count < modulus ->
  let bands :=
    FFT.compute_log_bands P bin_count num_bars min_freq max_freq sample_rate fft_size in
  length bands = Z.to_nat num_bars /\
  forall bin_lo bin_hi, In (bin_lo, bin_hi) bands -> bin_lo < bin_hi <= bin_count.
Proof.
  intros Hb bands. unfold bands, FFT.compute_log_bands. split.
  - rewrite length_map, length_seq. reflexivity.
  - intros bin_lo bin_hi Hin. apply in_map_iff in Hin.
    destruct Hin as (i & E & _).
    pose proof (log_band_range bin_count (log10f P min_freq)
                  (F32.div (F32.sub (log10f P max_freq) (log10f P min_freq))
                           (F32.of_Z num_bars))
                  sample_rate fft_size (Z.of_nat i) Hb) as H.
    rewrite E in H. lia.
Qed.

End LogBands.

(** ** FFT processor: the input buffer of [compute] *)

Section FFTCompute.
Variable P : Platform.

Lemma zero_front_nat (k : nat) (inp : list float) :
  (k <= length inp)%nat ->
  foldl (fun inp i => <[i := F32.zero]> inp) inp (seq 0 k) =
  replicate k F32.zero ++ drop k inp.
Proof.
  induction k as [| k IH]; intros Hk.
  - reflexivity.
  - rewrite seq_S, foldl_app, IH by lia. cbn [foldl Nat.add].
    destruct (lookup_lt_is_Some_2 inp k ltac:(lia)) as [y Hy].
    rewrite (drop_S _ _ _ Hy).
    rewrite insert_app_r_alt by (rewrite length_replicate; lia).
    rewrite length_replicate, Nat.sub_diag. cbn [insert list_insert].
    rewrite replicate_S_end, <- app_assoc. reflexivity.
Qed.

Lemma zero_front_spec offset (inp : list float) :
  0 <= offset <= Z.of_nat (length inp) ->
  FFT.zero_front offset inp =
  replicate (Z.to_nat offset) F32.zero ++ drop (Z.to_nat offset) inp.
Proof. intros H. unfold FFT.zero_front. apply zero_front_nat. lia. Qed.

Lemma copy_windowed_nat (samples window inp : list float) (a c j : nat) :
  (c <= length samples)%nat -> (a + c <= length inp)%nat ->
  Z.of_nat (length samples) < modulus -> Z.of_nat (length inp) < modulus ->
  (j <= c)%nat ->
  foldl (fun inp i =>
           let src := wrap (wrap (Z.of_nat (length samples) - Z.of_nat c) + Z.of_nat i) in
           let dst := wrap (Z.of_nat a + Z.of_nat i) in
           <[Z.to_nat dst :=
               F32.mul (nth (Z.to_nat src) samples F32.zero)
                       (nth (Z.to_nat dst) window F32.zero)]> inp)
        inp (seq 0 j) =
  take a inp ++
  map (fun i => F32.mul (nth (length samples - c + i) samples F32.zero)
                        (nth (a + i) window F32.zero)) (seq 0 j) ++
  drop (a + j) inp.
Proof.
  intros Hc Ha Hs Hi. induction j as [| j IH]; intros Hj.
  - cbn [seq foldl map app]. rewrite Nat.add_0_r, take_drop. reflexivity.
  - rewrite seq_S, foldl_app, IH by lia. cbn [foldl Nat.add].
    rewrite (wrap_small (Z.of_nat (length samples) - Z.of_nat c)) by (unfold in_range; lia).
    rewrite (wrap_small (Z.of_nat (length samples) - Z.of_nat c + Z.of_nat j))
      by (unfold in_range; lia).
    rewrite (wrap_small (Z.of_nat a + Z.of_nat j)) by (unfold in_range; lia).
    replace (Z.to_nat (Z.of_nat (length samples) - Z.of_nat c + Z.of_nat j))
      with (length samples - c + j)%nat by lia.
    replace (Z.to_nat (Z.of_nat a + Z.of_nat j)) with (a + j)%nat by lia.
    destruct (lookup_lt_is_Some_2 inp (a + j) ltac:(lia)) as [y Hy].
    rewrite (drop_S _ _ _ Hy).
    rewrite insert_app_r_alt by (rewrite length_take; lia).
    rewrite length_take, Nat.min_l by lia.
    rewrite insert_app_r_alt by (rewrite length_map, length_seq; lia).
    rewrite length_map, length_seq.
    replace (a + j - a - j)%nat with 0%nat by lia. cbn [insert list_insert].
    rewrite map_app. cbn [map]. rewrite <- app_assoc. cbn [app].
    replace (a + S j)%nat with (S (a + j)) by lia. reflexivity.
Qed.

Lemma copy_windowed_spec (samples window inp : list float) (c offset : Z) :
  0 <= c <= Z.of_nat (length samples) -> 0 <= offset ->
  offset + c <= Z.of_nat (length inp) ->
  Z.of_nat (length samples) < modulus -> Z.of_nat (length inp) < modulus ->
  FFT.copy_windowed samples window c offset inp =
  take (Z.to_nat offset) inp ++
  map (fun i => F32.mul (nth (length samples - Z.to_nat c + i) samples F32.zero)
                        (nth (Z.to_nat offset + i) window F32.zero))
      (seq 0 (Z.to_nat c)) ++
  drop (Z.to_nat offset + Z.to_nat c) inp.
Proof.
  intros Hc Ho Hoc Hs Hi. unfold FFT.copy_windowed.
  pose proof (copy_windowed_nat samples window inp (Z.to_nat offset) (Z.to_nat c)
                (Z.to_nat c) ltac:(lia) ltac:(lia) Hs Hi ltac:(lia)) as H.
  rewrite !Z2Nat.id in H by lia. exact H.
Qed.

Lemma map_nth_zip_with (f : float -> float -> float) (l1 l2 : list float) (a b c : nat) :
  length l1 = (a + c)%nat -> length l2 = (b + c)%nat ->
  map (fun i => f (nth (a + i) l1 F32.zero) (nth (b + i) l2 F32.zero)) (seq 0 c) =
  zip_with f (drop a l1) (drop b l2).
Proof.
  revert a b. induction c as [| c IH]; intros a b H1 H2.
  - rewrite drop_ge by lia. reflexivity.
  - destruct (lookup_lt_is_Some_2 l1 a ltac:(lia)) as [x Hx].
    destruct (lookup_lt_is_Some_2 l2 b ltac:(lia)) as [y Hy].
    rewrite (drop_S _ _ _ Hx), (drop_S _ _ _ Hy). cbn [zip_with seq map].
    rewrite !Nat.add_0_r.
    rewrite (nth_lookup_Some _ _ F32.zero _ Hx), (nth_lookup_Some _ _ F32.zero _ Hy).
    f_equal. rewrite <- (IH (S a) (S b)) by lia.
    rewrite <- seq_shift, map_map. apply map_ext. intros i.
    rewrite !Nat.add_succ_r. reflexivity.
Qed.

(** The input buffer after the two loops of [compute]: zeros in front,
    then the last [copy_count] samples times the tail of the window. *)
Lemma fill_input_spec fp samples inp :
  0 <= fft_size (config_ fp) < modulus ->
  Z.of_nat (length samples) < modulus ->
  Z.of_nat (length inp) = fft_size (config_ fp) ->
  Z.of_nat (length (window_ fp)) = fft_size (config_ fp) ->
  let n := fft_size (config_ fp) in
  let copy_count := Z.min (Z.of_nat (length samples)) n in
  FFT.fill_input fp samples inp =
  replicate (Z.to_nat (n - copy_count)) F32.zero ++
  zip_with F32.mul (drop (length samples - Z.to_nat copy_count) samples)
                   (drop (Z.to_nat (n - copy_count)) (window_ fp)).
Proof.
  intros Hn Hs Hi Hw n c. unfold FFT.fill_input. fold n. fold c.
  assert (Hc : 0 <= c <= n) by (unfold c; lia).
  rewrite (wrap_small (n - c)) by (unfold in_range; lia).
  rewrite zero_front_spec by lia.
  set (a := Z.to_nat (n - c)).
  assert (Hl : length (replicate a F32.zero ++ drop a inp) = Z.to_nat n).
  { rewrite length_app, length_replicate, length_drop. lia. }
  rewrite copy_windowed_spec by (rewrite ?Hl; unfold c; lia).
  fold a.
  rewrite take_app_length' by (rewrite length_replicate; reflexivity).
  rewrite drop_ge by lia.
  rewrite app_nil_r. f_equal.
  apply map_nth_zip_with; lia.
Qed.

Lemma bin_count_eq fp :
  0 <= fft_size (config_ fp) < modulus ->
  FFT.bin_count fp = fft_size (config_ fp) / 2 + 1.
Proof.
  intros Hn. unfold FFT.bin_count. apply wrap_small. unfold in_range.
  set (n := fft_size (config_ fp)) in *.
  pose proof (Z.div_pos n 2 ltac:(lia) ltac:(lia)).
  assert (1 < modulus) by reflexivity.
  destruct (Z.eq_dec n 0) as [E | E].
  - assert (n / 2 = 0) by (rewrite E; reflexivity). lia.
  - pose proof (Z.div_lt n 2 ltac:(lia) ltac:(lia)). lia.
Qed.

(** With its two assertions satisfied, [compute] runs through. *)
Lemma compute_runs fp data samples out :
  fftw_ fp = Some data -> plan data = true ->
  0 <= fft_size (config_ fp) < modulus ->
  FFT.bin_count fp <= Z.of_nat (length out) ->
  exists out',
    FFT.compute P fp samples out =
    Ok (fft_size (config_ fp) / 2 + 1, out',
        mkFFTProcessor (config_ fp)
          (Some (mkFFTWData true (FFT.fill_input fp samples (input data))
                            (fftwf_execute P (FFT.fill_input fp samples (input data)))))
          (window_ fp)).
Proof.
  intros Hd Hplan Hn Hout.
  unfold FFT.compute. rewrite Hd, Hplan. cbn [negb orb].
  rewrite Z.geb_leb.
  destruct (Z.leb_spec (FFT.bin_count fp) (Z.of_nat (length out))) as [_ | Hbad]; [| lia].
  cbn [negb]. rewrite (bin_count_eq fp Hn).
  eexists. reflexivity.
Qed.

(** C7.  On a constructed processor and an output span of at least
    [bin_count] elements, [compute] returns [fft_size / 2 + 1] without
    failing.  For an input shorter than [fft_size] it leaves in the FFT
    input buffer [offset = fft_size - len] zeros followed by the samples
    multiplied element-wise by [window[offset..fft_size]]; for a longer
    input, the last [fft_size] samples multiplied by the window. *)
Theorem compute_fills_input (fp : FFTProcessor) (samples out : list float) :
  FFT.ready fp ->
  FFT.bin_count fp <= Z.of_nat (length out) ->
  let n := fft_size (config_ fp) in
  let len := Z.of_nat (length samples) in
  exists out' fp' data',
    FFT.compute P fp samples out = Ok (n / 2 + 1, out', fp') /\
    fftw_ fp' = Some data' /\
    (len < n ->
       input data' =
       replicate (Z.to_nat (n - len)) F32.zero ++
       zip_with F32.mul samples (drop (Z.to_nat (n - len)) (window_ fp))) /\
    (n <= len < modulus ->
       input data' =
       zip_with F32.mul (drop (Z.to_nat (len - n)) samples) (window_ fp)).
Proof.
  intros (data & Hd & Hplan & Hn & Hin & Hw) Hout n len.
  destruct (compute_runs fp data samples out Hd Hplan Hn Hout) as [out' E].
  eexists _, _, _. split; [exact E |]. split; [reflexivity |].
  cbn [input]. split.
  - intros Hshort. rewrite fill_input_spec by lia. fold n.
    replace (Z.min (Z.of_nat (length samples)) n) with len by (unfold len; lia).
    replace (length samples - Z.to_nat len)%nat with 0%nat by (unfold len; lia).
    reflexivity.
  - intros Hlong. rewrite fill_input_spec by lia. fold n.
    replace (Z.min (Z.of_nat (length samples)) n) with n by (unfold len in Hlong; lia).
    rewrite Z.sub_diag. cbn [Z.to_nat replicate app drop].
    replace (length samples - Z.to_nat n)%nat with (Z.to_nat (len - n))
      by (unfold len; lia).
    reflexivity.
Qed.

End FFTCompute.

(** ** Spectrum analyzer: starvation *)

Section AnalyzerStarvation.
Variable P : Platform.

Lemma resize_nil (n : nat) (v : float) : resize n v [] = replicate n v.
Proof. unfold resize. rewrite take_nil, Nat.sub_0_r. reflexivity. Qed.

Lemma recompute_band_mapping_keeps sa sa' :
  Analyzer.recompute_band_mapping P sa = Ok sa' ->
  audio_ sa' = audio_ sa /\ fft_ sa' = fft_ sa /\
  analyzer_config_ sa' = analyzer_config_ sa /\
  sample_buffer_ sa' = sample_buffer_ sa /\
  magnitude_buffer_ sa' = magnitude_buffer_ sa /\
  smoothed_magnitudes_ sa' = smoothed_magnitudes_ sa /\
  peak_values_ sa' = peak_values_ sa.
Proof.
  unfold Analyzer.recompute_band_mapping.
  destruct (logarithmic_frequency (analyzer_config_ sa)).
  - intros [= <-]. split_and!; reflexivity.
  - destruct (num_bands (analyzer_config_ sa) =? 0); [discriminate |].
    intros [= <-]. split_and!; reflexivity.
Qed.

(** Right after construction the smoothing and the peak state are zero
    and the ring buffer is empty. *)
Lemma new_state ac fc cfg sa :
  Analyzer.new P ac fc cfg = Ok sa ->
  analyzer_config_ sa = cfg /\
  smoothed_magnitudes_ sa = replicate (Z.to_nat (num_bands cfg)) F32.zero /\
  peak_values_ sa = replicate (Z.to_nat (num_bands cfg)) F32.zero /\
  size (ring_buffer_ (audio_ sa)) = 0.
Proof.
  unfold Analyzer.new.
  destruct (Audio.new P ac) as [audio | |] eqn:Ea; try discriminate.
  destruct (FFT.new P fc) as [fft | |]; try discriminate.
  intros H. apply recompute_band_mapping_keeps in H. cbn in H.
  destruct H as (Hau & _ & Hc & _ & _ & Hs & Hp).
  rewrite Hc, Hs, Hp, Hau, !resize_nil. split_and!; try reflexivity.
  unfold Audio.new in Ea.
  destruct (RingBuffer_new F32.zero _) as [rb |] eqn:Erb; [| discriminate].
  destruct (Pa_GetDefaultInputDevice P); [| discriminate].
  destruct (Pa_GetDeviceInfo P _); [| discriminate].
  destruct (Pa_OpenStream P _ _ _); [discriminate |].
  injection Ea as <-. cbn.
  apply (RingBuffer_new_wf F32.zero _ rb Erb).
Qed.

Lemma update_starved now sa :
  Analyzer.starved sa ->
  Analyzer.update P now sa =
  Ok (mkSpectrumData (smoothed_magnitudes_ sa) (peak_values_ sa) F32.zero F32.zero now, sa).
Proof.
  unfold Analyzer.starved, Analyzer.update. intros H.
  destruct (Z.ltb_spec (size (ring_buffer_ (audio_ sa)))
                       (fft_size (config_ (fft_ sa)) / 4)); [reflexivity | lia].
Qed.

(** C2, as amended.  In every analyzer state whose ring buffer holds
    fewer than [fft_size / 4] samples, [update] returns a snapshot whose
    [magnitudes] are the current [smoothed_magnitudes_], whose [peaks]
    are the current [peak_values_] and whose [rms_level] and
    [peak_level] are zero; in particular, right after the construction
    of an analyzer whose [fft_size] is at least four, it returns
    all-zero magnitudes and peaks and zero levels. *)
Theorem update_starved_holds_state (now : Z) (sa : SpectrumAnalyzer) :
  (Analyzer.starved sa ->
   exists data sa',
     Analyzer.update P now sa = Ok (data, sa') /\
     magnitudes data = smoothed_magnitudes_ sa /\
     peaks data = peak_values_ sa /\
     rms_level data = F32.zero /\
     peak_level data = F32.zero) /\
  (forall ac fc cfg,
     Analyzer.new P ac fc cfg = Ok sa ->
     4 <= fft_size (config_ (fft_ sa)) ->
     exists data sa',
       Analyzer.update P now sa = Ok (data, sa') /\
       magnitudes data = replicate (Z.to_nat (num_bands cfg)) F32.zero /\
       peaks data = replicate (Z.to_nat (num_bands cfg)) F32.zero /\
       rms_level data = F32.zero /\
       peak_level data = F32.zero).
Proof.
  split.
  - intros Hst. eexists _, _. split; [apply update_starved, Hst |].
    cbn. split_and!; reflexivity.
  - intros ac fc cfg Hnew H4. apply new_state in Hnew.
    destruct Hnew as (_ & Hs & Hp & Hz).
    assert (Hst : Analyzer.starved sa).
    { unfold Analyzer.starved. rewrite Hz.
      apply Z.div_str_pos. lia. }
    eexists _, _. split; [apply update_starved, Hst |].
    cbn. split_and!; try reflexivity; assumption.
Qed.

(** C10.  When [update] takes the starvation branch the analyzer it
    leaves is the analyzer it found: the ring buffer with its counters
    and contents, the smoothing and peak state, the band mapping and
    every other member are unchanged. *)
Theorem update_starved_changes_nothing (now : Z) (sa : SpectrumAnalyzer) :
  Analyzer.starved sa ->
  exists data, Analyzer.update P now sa = Ok (data, sa).
Proof.
  intros Hst. eexists. apply update_starved, Hst.
Qed.

(** A freshly constructed analyzer is starved exactly when
    [fft_size >= 4]: its buffer is empty. *)
Lemma new_starved ac fc cfg sa :
  Analyzer.new P ac fc cfg = Ok sa ->
  Analyzer.starved sa <-> 0 < fft_size (config_ (fft_ sa)) / 4.
Proof.
  intros Hnew. apply new_state in Hnew. destruct Hnew as (_ & _ & _ & Hz).
  unfold Analyzer.starved. rewrite Hz. reflexivity.
Qed.

End AnalyzerStarvation.

(** ** Rounding and order of non-negative binary32 values *)






Lemma pow2_split k : 0 < k -> 2 ^ k = 2 * 2 ^ (k - 1).
Proof.
  intros Hk. replace k with (Z.succ (k - 1)) at 1 by lia.
  rewrite Z.pow_succ_r by lia. reflexivity.
Qed.









Lemma pow2_lt_mono a b : 0 <= a < b -> 2 ^ a < 2 ^ b.
Proof. intros H. apply Z.pow_lt_mono_r; lia. Qed.



































(** ** Spectrum analyzer: smoothing and peak hold *)

Section BandLoop.

Lemma nth_app_drop (A l : list float) (j : nat) :
  length A = j -> nth j (A ++ drop j l) F32.zero = nth j l F32.zero.
Proof.
  intros HA. rewrite !nth_lookup.
  rewrite lookup_app_r by lia. rewrite lookup_drop. do 2 f_equal. lia.
Qed.

Lemma insert_app_drop (A l : list float) (j : nat) (v : float) :
  length A = j -> (j < length l)%nat ->
  <[j := v]> (A ++ drop j l) = (A ++ [v]) ++ drop (S j) l.
Proof.
  intros HA Hj. destruct (lookup_lt_is_Some_2 l j Hj) as [y Hy].
  rewrite (drop_S _ _ _ Hy), insert_app_r_alt by lia.
  rewrite HA, Nat.sub_diag, <- app_assoc. reflexivity.
Qed.

Lemma nth_snoc_app (A l : list float) (j : nat) (v : float) :
  length A = j -> nth j ((A ++ [v]) ++ l) F32.zero = v.
Proof.
  intros HA. rewrite nth_lookup, <- app_assoc.
  rewrite lookup_app_r by lia. rewrite HA, Nat.sub_diag. reflexivity.
Qed.

(** The band loop applies [band_rule] to each band, independently of
    the others, and copies the outcome into the result. *)
Lemma band_loop_spec cfg (raw : nat -> float) (sm pk m0 p0 : list float) (j : nat) :
  (j <= length sm)%nat -> (j <= length pk)%nat ->
  (j <= length m0)%nat -> (j <= length p0)%nat ->
  let R := map (fun i => Analyzer.band_rule cfg (raw i)
                           (nth i sm F32.zero, nth i pk F32.zero)) (seq 0 j) in
  foldl (fun st i => Analyzer.band_update cfg (raw i) i st) (sm, pk, m0, p0) (seq 0 j) =
  (map fst R ++ drop j sm, map snd R ++ drop j pk,
   map fst R ++ drop j m0, map snd R ++ drop j p0).
Proof.
  induction j as [| j IH]; intros H1 H2 H3 H4 R.
  - reflexivity.
  - unfold R. rewrite seq_S, foldl_app, IH by lia. cbn [foldl Nat.add].
    rewrite !map_app. cbn [map].
    set (R0 := map _ (seq 0 j)).
    assert (HA : length (map fst R0) = j)
      by (unfold R0; rewrite !length_map, length_seq; reflexivity).
    assert (HB : length (map snd R0) = j)
      by (unfold R0; rewrite !length_map, length_seq; reflexivity).
    unfold Analyzer.band_update, Analyzer.band_rule.
    rewrite (nth_app_drop _ sm j HA).
    rewrite (insert_app_drop _ sm j _ HA) by lia.
    rewrite (nth_snoc_app _ _ j _ HA).
    rewrite (nth_app_drop _ pk j HB).
    rewrite (insert_app_drop _ m0 j _ HA) by lia.
    destruct (F32.gtb _ (nth j pk F32.zero)).
    + rewrite (insert_app_drop _ pk j _ HB) by lia.
      rewrite (nth_snoc_app _ _ j _ HB).
      rewrite (insert_app_drop _ p0 j _ HB) by lia. reflexivity.
    + rewrite (insert_app_drop _ pk j _ HB) by lia.
      rewrite (nth_snoc_app _ _ j _ HB).
      rewrite (insert_app_drop _ p0 j _ HB) by lia. reflexivity.
Qed.

(** *** Zero raw magnitude, no smoothing *)







(** *** Zero raw magnitude, smoothing no slower than the decay *)










End BandLoop.

Section AnalyzerBands.
Variable P : Platform.

Lemma nth_map_seq (f : nat -> float * float) (n i : nat) :
  (i < n)%nat ->
  nth i (map fst (map f (seq 0 n))) F32.zero = fst (f i) /\
  nth i (map snd (map f (seq 0 n))) F32.zero = snd (f i).
Proof.
  intros Hi. rewrite !nth_lookup, !list_lookup_fmap.
  rewrite (lookup_seq_lt 0 n i Hi). split; reflexivity.
Qed.

(** A frame that is not starved: [update] succeeds and has applied
    [band_rule] to every band with the band's raw magnitude. *)
Lemma update_applies_band_rule now sa :
  Analyzer.ready sa -> ~ Analyzer.starved sa ->
  exists data sa',
    Analyzer.update P now sa = Ok (data, sa') /\
    analyzer_config_ sa' = analyzer_config_ sa /\
    band_bins_ sa' = band_bins_ sa /\
    magnitudes data = smoothed_magnitudes_ sa' /\
    peaks data = peak_values_ sa' /\
    length (smoothed_magnitudes_ sa') = Z.to_nat (num_bands (analyzer_config_ sa)) /\
    length (peak_values_ sa') = Z.to_nat (num_bands (analyzer_config_ sa)) /\
    forall i, (i < Z.to_nat (num_bands (analyzer_config_ sa)))%nat ->
      let raw :=
        Analyzer.compute_band_magnitude (band_bins_ sa') (magnitude_buffer_ sa') i in
      (nth i (smoothed_magnitudes_ sa') F32.zero, nth i (peak_values_ sa') F32.zero) =
      Analyzer.band_rule (analyzer_config_ sa) raw
        (nth i (smoothed_magnitudes_ sa) F32.zero, nth i (peak_values_ sa) F32.zero).
Proof.
  intros (Hfft & Hmb & Hsm & Hpk) Hns.
  unfold Analyzer.starved in Hns. unfold Analyzer.update.
  destruct (Z.ltb_spec (size (ring_buffer_ (audio_ sa)))
                       (fft_size (config_ (fft_ sa)) / 4)) as [Hbad | _]; [contradiction |].
  set (buffer := if _ >? _ then _ else _).
  destruct (peek F32.zero buffer (sample_buffer_ sa)) as [read_count sample_buffer].
  destruct (Analyzer.level_loop sample_buffer read_count) as [sum_squares peak].
  destruct Hfft as (fdata & Hfd & Hplan & Hn & _).
  destruct (compute_runs P (fft_ sa) fdata (take (Z.to_nat read_count) sample_buffer)
              (magnitude_buffer_ sa) Hfd Hplan Hn Hmb) as (out' & Ecomp).
  rewrite Ecomp.
  set (cfg := analyzer_config_ sa) in *.
  set (nb := Z.to_nat (num_bands cfg)) in *.
  rewrite (band_loop_spec cfg
             (fun i => Analyzer.compute_band_magnitude (band_bins_ sa) out' i))
    by (cbn [magnitudes peaks]; rewrite ?resize_nil, ?length_replicate; lia).
  cbn [magnitudes peaks].
  rewrite !resize_nil.
  rewrite !(drop_ge _ nb) by (rewrite ?length_replicate; lia).
  rewrite !app_nil_r.
  eexists _, _. split; [reflexivity |].
  cbn [analyzer_config_ band_bins_ magnitudes peaks smoothed_magnitudes_
       peak_values_ magnitude_buffer_].
  split_and!; try reflexivity.
  - rewrite !length_map, length_seq. reflexivity.
  - rewrite !length_map, length_seq. reflexivity.
  - intros i Hi.
    destruct (nth_map_seq
                (fun i => Analyzer.band_rule cfg
                            (Analyzer.compute_band_magnitude (band_bins_ sa) out' i)
                            (nth i (smoothed_magnitudes_ sa) F32.zero,
                             nth i (peak_values_ sa) F32.zero)) nb i Hi) as [E1 E2].
    rewrite E1, E2. symmetry. apply surjective_pairing.
Qed.


End AnalyzerBands.

(** ** What the constructors establish *)

Section Constructed.
Variable P : Platform.

Lemma window_loop_length n f w : length (FFT.window_loop n f w) = length w.
Proof.
  unfold FFT.window_loop. generalize (Z.to_nat n). intros k.
  induction k as [| k IH].
  - reflexivity.
  - rewrite seq_S, foldl_app. cbn [foldl]. rewrite length_insert. exact IH.
Qed.

Lemma compute_window_keeps fp :
  config_ (FFT.compute_window P fp) = config_ fp /\
  fftw_ (FFT.compute_window P fp) = fftw_ fp /\
  length (window_ (FFT.compute_window P fp)) = length (window_ fp).
Proof.
  unfold FFT.compute_window. cbn [config_ fftw_ window_].
  split_and!; try reflexivity.
  destruct (window (config_ fp)); rewrite ?window_loop_length, ?length_map; reflexivity.
Qed.

Lemma length_resize (n : nat) (v : float) (l : list float) : length (resize n v l) = n.
Proof. unfold resize. rewrite length_app, length_take, length_replicate. lia. Qed.

Lemma int_of_size_t_small n : 0 <= n < 2 ^ 31 -> int_of_size_t n = n.
Proof.
  intros Hn. unfold int_of_size_t.
  assert (H31 : 2 ^ 31 = 2147483648) by reflexivity.
  assert (H32 : 2 ^ 32 = 4294967296) by reflexivity.
  rewrite Z.mod_small by lia.
  destruct (Z.ltb_spec n (2 ^ 31)); [reflexivity | lia].
Qed.

(** A processor that was constructed for a size below [2^31] is ready
    for [compute]. *)
Lemma FFT_new_ready cfg fp :
  FFT.new P cfg = Ok fp -> 0 <= fft_size cfg < 2 ^ 31 ->
  FFT.ready fp /\ config_ fp = cfg.
Proof.
  intros Hnew Hn. unfold FFT.new in Hnew.
  destruct (negb _); [discriminate |].
  destruct (FFT.allocate_buffers P _) as [fp0 | |] eqn:Ea; try discriminate.
  injection Hnew as <-.
  unfold FFT.allocate_buffers in Ea. cbn [config_ window_] in Ea.
  destruct (_ || _); [discriminate |]. destruct (negb _); [discriminate |].
  injection Ea as <-.
  destruct (compute_window_keeps
              (mkFFTProcessor cfg
                 (Some (mkFFTWData true
                          (replicate (Z.to_nat (wrap (int_of_size_t (fft_size cfg))))
                                     (uninitialised P))
                          (replicate (Z.to_nat (wrap (fft_size cfg / 2 + 1)))
                                     (uninitialised P, uninitialised P))))
                 (resize (Z.to_nat (fft_size cfg)) F32.zero [])))
    as (Hc & Hf & Hw).
  cbn [config_ fftw_ window_] in Hc, Hf, Hw.
  assert (H31 : 2 ^ 31 < modulus) by reflexivity.
  split; [| exact Hc].
  eexists. rewrite Hf, Hc, Hw. split; [reflexivity |]. cbn [plan input].
  rewrite int_of_size_t_small by lia.
  rewrite (wrap_small (fft_size cfg)) by (unfold in_range; lia).
  rewrite length_replicate, length_resize.
  split_and!; try reflexivity; lia.
Qed.

(** An analyzer that was constructed is ready for [update]. *)
Lemma Analyzer_new_ready ac fc cfg sa :
  Analyzer.new P ac fc cfg = Ok sa -> 0 <= fft_size fc < 2 ^ 31 ->
  Analyzer.ready sa.
Proof.
  unfold Analyzer.new. intros Hnew Hn.
  destruct (Audio.new P ac) as [audio | |]; try discriminate.
  destruct (FFT.new P fc) as [fft | |] eqn:Ef; try discriminate.
  apply recompute_band_mapping_keeps in Hnew. cbn in Hnew.
  destruct Hnew as (_ & Hfft & Hc & _ & Hmb & Hs & Hp).
  destruct (FFT_new_ready fc fft Ef Hn) as [Hready _].
  unfold Analyzer.ready. rewrite Hfft, Hc, Hmb, Hs, Hp, !length_resize.
  split_and!; try reflexivity; [exact Hready |].
  pose proof (wrap_range (fft_size (config_ fft) / 2 + 1)) as Hr.
  unfold FFT.bin_count, in_range in *. lia.
Qed.

End Constructed.

(** ** The instances *)

Lemma just_constructed_new :
  Analyzer.new silence_platform (mkAudioConfig 8 4 1 F32.half)
    (mkFFTConfig 4 Rectangular false (F32.of_Z (-80)) F32.zero) slow_smoothing
  = Ok just_constructed.
Proof. vm_compute. reflexivity. Qed.

Lemma just_constructed_starved : Analyzer.starved just_constructed.
Proof. vm_compute. reflexivity. Qed.

Lemma after_loud_frame_ready : Analyzer.ready after_loud_frame.
Proof.
  unfold Analyzer.ready, FFT.ready. split_and!.
  - eexists. split_and!; try reflexivity; cbn; rewrite ?modulus_eq; lia.
  - vm_compute. discriminate.
  - reflexivity.
  - reflexivity.
Qed.

Lemma after_loud_frame_not_starved : ~ Analyzer.starved after_loud_frame.
Proof. vm_compute. discriminate. Qed.

(** A frame right after construction is held at zero. *)
Lemma update_starved_holds_state_witness :
  exists data sa',
    Analyzer.update silence_platform 0 just_constructed = Ok (data, sa') /\
    magnitudes data = [F32.zero] /\ peaks data = [F32.zero] /\
    rms_level data = F32.zero /\ peak_level data = F32.zero.
Proof.
  destruct (update_starved_holds_state silence_platform 0 just_constructed) as [_ H].
  destruct (H _ _ _ just_constructed_new) as (data & sa' & E & Hm & Hp & Hr & Hl).
  - cbn. lia.
  - exists data, sa'. split_and!; assumption.
Defined.

(** C2 as stated fails for a transform of fewer than four samples: a
    quarter of it is no sample, so the empty buffer the constructor
    leaves is not below the threshold and the first [update] analyses
    nothing.  With a transform of two samples, magnitudes in dB and a
    floor of -300 dB, the band of the silent spectrum stands a third of
    the way up the scale, the smoothed magnitude and the peak it returns
    are a quarter of that and not zero, and [rms_level], zero divided by
    zero, is a NaN. *)
Lemma update_after_construction_counterexample :
  exists sa data sa',
    Analyzer.new quiet_db_platform (mkAudioConfig 8 4 1 F32.half)
      (mkFFTConfig 2 Rectangular true (F32.of_Z (-300)) F32.zero) slow_smoothing = Ok sa /\
    size (ring_buffer_ (audio_ sa)) = 0 /\
    smoothed_magnitudes_ sa = [F32.zero] /\ peak_values_ sa = [F32.zero] /\
    Analyzer.update quiet_db_platform 0 sa = Ok (data, sa') /\
    magnitudes data = [S754_finite false 11184811 (-27)] /\
    peaks data = [S754_finite false 11184811 (-27)] /\
    magnitudes data <> [F32.zero] /\ peaks data <> [F32.zero] /\
    rms_level data = S754_nan /\ rms_level data <> F32.zero.
Proof.
  eexists _, _, _.
  split; [vm_compute; reflexivity |].
  split; [vm_compute; reflexivity |].
  split; [vm_compute; reflexivity |].
  split; [vm_compute; reflexivity |].
  split; [vm_compute; reflexivity |].
  split_and!; vm_compute; (reflexivity || discriminate).
Qed.

Lemma update_starved_changes_nothing_witness :
  exists data, Analyzer.update silence_platform 7 just_constructed = Ok (data, just_constructed).
Proof.
  apply update_starved_changes_nothing. exact just_constructed_starved.
Defined.

(** Two samples into a transform of four: two zeros in front, then the
    samples times the last two window coefficients. *)
Lemma compute_fills_input_witness :
  exists out' fp' data',
    FFT.compute silence_platform (fft_ after_loud_frame) [F32.one; F32.two]
                (replicate 3 F32.zero) = Ok (3, out', fp') /\
    fftw_ fp' = Some data' /\
    input data' = [F32.zero; F32.zero; F32.one; F32.two].
Proof.
  destruct (compute_fills_input silence_platform (fft_ after_loud_frame)
              [F32.one; F32.two] (replicate 3 F32.zero))
    as (out' & fp' & data' & E & Hd & Hshort & _).
  - exact (proj1 after_loud_frame_ready).
  - vm_compute. discriminate.
  - exists out', fp', data'. split_and!; [exact E | exact Hd |].
    rewrite Hshort by (vm_compute; reflexivity). vm_compute. reflexivity.
Defined.

(** The band layout of the specification: 32 bars over 1025 bins. *)
Lemma compute_log_bands_ranges_witness :
  let bands :=
    FFT.compute_log_bands silence_platform 1025 32 (F32.of_Z 20) (F32.of_Z 20000)
                          (F32.of_Z 48000) 2048 in
  length bands = 32%nat /\
  forall bin_lo bin_hi, In (bin_lo, bin_hi) bands -> bin_lo < bin_hi <= 1025.
Proof.
  apply (compute_log_bands_ranges silence_platform 1025 32).
  rewrite modulus_eq. lia.
Defined.



(** The decay is a binary32 product and can stand still: with the
    default decay rate of 0.95 a peak of nine times the smallest
    positive value is its own product with the rate, so a peak that has
    fallen that far stays there and does not reach zero. *)
Lemma peak_decay_stalls :
  F32.mul (S754_finite false 9 (-149)) (F32.dec 95 2) = S754_finite false 9 (-149) /\
  forall k,
    snd (Analyzer.silent_frames
           (mkAnalyzerConfig 64 (F32.of_Z 20) (F32.of_Z 20000) (F32.dec 7 1) (F32.dec 95 2) true)
           k (F32.zero, S754_finite false 9 (-149)))
    = S754_finite false 9 (-149).
Proof.
  split; [vm_compute; reflexivity |].
  induction k as [| k IH]; [reflexivity |].
  cbn [Analyzer.silent_frames].
  change (Analyzer.band_rule _ F32.zero (F32.zero, S754_finite false 9 (-149)))
    with (F32.zero, S754_finite false 9 (-149)).
  exact IH.
Qed.

(** * Part III: further properties of the ring buffer *)

Section RingBufferMore.
Context {T : Type}.
Variable zero : T.
Implicit Types rb : RingBuffer T.

Lemma wf_capacity rb : wf rb -> 0 < capacity_ rb <= 2 ^ 63.
Proof.
  intros (k & Hk & Hcap & _). rewrite Hcap. apply pow2_le_63, Hk.
Qed.

Lemma clear_spec rb :
  wf rb ->
  wf (clear rb) /\ size (clear rb) = 0 /\ contents zero (clear rb) = [] /\
  write_pos_ (clear rb) = write_pos_ rb /\ buffer_ (clear rb) = buffer_ rb.
Proof.
  intros (k & Hk & Hcap & Hmask & Hlen & Hw & Hr & Hsz).
  pose proof (pow2_le_63 k Hk) as Hp.
  assert (Hs : size (clear rb) = 0).
  { unfold size, clear, store_read_pos; simpl. rewrite Z.sub_diag. reflexivity. }
  split_and!; try reflexivity.
  - exists k. rewrite Hs. unfold clear, store_read_pos; simpl.
    split_and!; try assumption; lia.
  - exact Hs.
  - unfold contents. rewrite Hs. reflexivity.
Qed.

(** X1.  Every operation keeps the class invariant and the capacity. *)
Theorem RingBuffer_operations_keep_invariant rb :
  wf rb ->
  forall (v : T) (data out : list T) (count : Z), 0 <= count ->
    let keeps rb' := wf rb' /\ capacity_ rb' = capacity_ rb in
    keeps (snd (try_push rb v)) /\
    keeps (snd (try_push_span zero rb data)) /\
    keeps (push_overwrite rb v) /\
    keeps (snd (try_pop zero rb v)) /\
    keeps (snd (try_pop_span zero rb out)) /\
    keeps (snd (discard rb count)) /\
    keeps (clear rb).
Proof.
  intros Hwf v data out count Hcount keeps. unfold keeps.
  pose proof (size_range rb) as Hs. unfold in_range in Hs.
  assert (H1 : wf (snd (try_push rb v)) /\ capacity_ (snd (try_push rb v)) = capacity_ rb).
  { destruct (Z_lt_ge_dec (size rb) (capacity_ rb)) as [Hroom | Hfull].
    - destruct (try_push_ok zero rb v Hwf Hroom) as (rb' & E & Hwf' & _ & _ & Hc & _).
      rewrite E. split; assumption.
    - rewrite try_push_full by lia. split; [exact Hwf | reflexivity]. }
  assert (H2 : wf (snd (try_push_span zero rb data)) /\
               capacity_ (snd (try_push_span zero rb data)) = capacity_ rb).
  { destruct (try_push_span_spec zero rb data Hwf) as (rb' & E & Hwf' & _).
    split; [rewrite E; exact Hwf' | reflexivity]. }
  assert (H3 : wf (push_overwrite rb v) /\ capacity_ (push_overwrite rb v) = capacity_ rb).
  { destruct (Z_lt_ge_dec (size rb) (capacity_ rb)) as [Hroom | Hfull].
    - rewrite push_overwrite_room by assumption. exact H1.
    - assert (size rb = capacity_ rb) as Hfull'.
      { destruct Hwf as (k & _ & _ & _ & _ & _ & _ & Hsz). lia. }
      destruct (push_overwrite_full zero rb v Hwf Hfull') as (Hwf' & _ & _ & Hc & _).
      split; assumption. }
  assert (H4 : wf (snd (try_pop zero rb v)) /\
               capacity_ (snd (try_pop zero rb v)) = capacity_ rb).
  { destruct (try_pop_spec zero rb v Hwf) as (ok & x & rb' & E & Hwf' & _).
    split; [rewrite E; exact Hwf' |].
    unfold try_pop. destruct (_ >=? _); reflexivity. }
  assert (H5 : wf (snd (try_pop_span zero rb out)) /\
               capacity_ (snd (try_pop_span zero rb out)) = capacity_ rb).
  { destruct (try_pop_span_spec zero rb out Hwf) as (rb' & E & Hwf' & _).
    split; [rewrite E; exact Hwf' | reflexivity]. }
  assert (H6 : wf (snd (discard rb count)) /\
               capacity_ (snd (discard rb count)) = capacity_ rb).
  { destruct (discard_spec zero rb count Hwf Hcount) as (rb' & E & Hwf' & _).
    split; [rewrite E; exact Hwf' | reflexivity]. }
  assert (H7 : wf (clear rb) /\ capacity_ (clear rb) = capacity_ rb).
  { split; [apply (clear_spec rb Hwf) | reflexivity]. }
  exact (conj H1 (conj H2 (conj H3 (conj H4 (conj H5 (conj H6 H7)))))).
Qed.

End RingBufferMore.

Section RingBufferObservers.
Context {T : Type}.
Variable zero : T.
Implicit Types rb : RingBuffer T.

(** X2.  [size() + available() == capacity()], and what [empty()] and [full()]
    say about the pending elements. *)
Theorem RingBuffer_size_available rb :
  wf rb ->
  size rb + available rb = capacity rb /\
  0 <= size rb <= capacity rb /\
  Z.of_nat (length (contents zero rb)) = size rb /\
  (empty rb = true <-> contents zero rb = []) /\
  (full rb = true <-> available rb = 0).
Proof.
  intros Hwf. pose proof (wf_capacity rb Hwf) as Hc.
  destruct Hwf as (k & Hk & Hcap & Hmask & Hlen & Hw & Hr & Hsz).
  pose proof (size_range rb) as Hs. unfold in_range in Hs.
  assert (H63 : 2 ^ 63 < modulus) by reflexivity.
  assert (Hav : available rb = capacity_ rb - size rb).
  { unfold available. apply wrap_small. unfold in_range. lia. }
  pose proof (length_contents zero rb) as Hl.
  unfold capacity, empty, full. split_and!; try lia.
  rewrite Z.eqb_eq. split.
  - intros E. apply length_zero_iff_nil. lia.
  - intros E. rewrite E in Hl. simpl in Hl. lia.
Qed.

(** X3.  A single push is refused exactly when the buffer is full, and then
    nothing changes; a bulk push into a full buffer writes nothing. *)
Theorem try_push_refused_iff_full rb (v : T) (data : list T) :
  wf rb ->
  (fst (try_push rb v) = false <-> full rb = true) /\
  (full rb = true ->
     try_push rb v = (false, rb) /\
     fst (try_push_span zero rb data) = 0 /\
     contents zero (snd (try_push_span zero rb data)) = contents zero rb) /\
  (full rb = false ->
     fst (try_push rb v) = true /\
     contents zero (snd (try_push rb v)) = contents zero rb ++ [v]).
Proof.
  intros Hwf. unfold full.
  assert (Hsz : size rb <= capacity_ rb)
    by (destruct Hwf as (k & _ & _ & _ & _ & _ & _ & Hsz); exact Hsz).
  destruct (Z.eqb_spec (size rb) (capacity_ rb)) as [Hfull | Hroom].
  - assert (E : try_push rb v = (false, rb)) by (apply try_push_full; lia).
    destruct (try_push_span_spec zero rb data Hwf) as (rb' & Es & _ & Hc & _).
    rewrite E, Es. cbn [fst snd]. split; [split; reflexivity |]. split.
    + intros _. split; [reflexivity |]. split; [lia |].
      rewrite Hc. replace (Z.to_nat _) with 0%nat by lia.
      rewrite take_0, app_nil_r. reflexivity.
    + discriminate.
  - destruct (try_push_ok zero rb v Hwf ltac:(lia)) as (rb' & E & _ & Hc & _).
    rewrite E. cbn [fst snd]. split; [split; discriminate |]. split.
    + discriminate.
    + intros _. split; [reflexivity | exact Hc].
Qed.

(** X4.  A pop from an empty buffer is refused and changes neither the
    output argument nor the buffer; while the counters have not wrapped,
    a pop from a buffer that is not empty returns the oldest element. *)
Theorem try_pop_refused_iff_empty rb (out : T) :
  wf rb ->
  (empty rb = true -> try_pop zero rb out = (false, out, rb)) /\
  (read_pos_ rb <= write_pos_ rb -> empty rb = false ->
     exists x rb',
       try_pop zero rb out = (true, x, rb') /\
       contents zero rb = x :: contents zero rb').
Proof.
  intros Hwf. unfold empty. split.
  - intros E. apply Z.eqb_eq in E.
    destruct Hwf as (k & _ & _ & _ & _ & Hw & Hr & _).
    apply try_pop_fail. rewrite (empty_positions rb Hw Hr E). lia.
  - intros Hle E. apply Z.eqb_neq in E.
    assert (Hlt : read_pos_ rb < write_pos_ rb).
    { destruct (Z.eq_dec (read_pos_ rb) (write_pos_ rb)) as [Heq | Hne]; [| lia].
      exfalso. apply E. unfold size. rewrite Heq, Z.sub_diag. reflexivity. }
    destruct (try_pop_ok zero rb out Hwf Hlt) as (x & rb' & Ep & _ & Hc & _).
    exists x, rb'. split; assumption.
Qed.

(** X5.  [clear] drops every pending element and touches neither the array
    nor [write_pos_]. *)
Theorem clear_empties rb :
  wf rb ->
  contents zero (clear rb) = [] /\ empty (clear rb) = true /\
  available (clear rb) = capacity rb /\
  write_pos_ (clear rb) = write_pos_ rb /\ buffer_ (clear rb) = buffer_ rb.
Proof.
  intros Hwf. pose proof (wf_capacity rb Hwf) as Hc.
  destruct (clear_spec zero rb Hwf) as (_ & Hs & Hcont & Hw & Hb).
  assert (H63 : 2 ^ 63 < modulus) by reflexivity.
  unfold empty, available, capacity. rewrite Hs.
  split_and!; try assumption; try reflexivity.
  rewrite Z.sub_0_r. apply wrap_small. unfold in_range.
  change (capacity_ (clear rb)) with (capacity_ rb). lia.
Qed.

(** X6.  [peek] copies the oldest pending elements, as many as the span
    holds, in front of the rest of the span. *)
Theorem peek_shows_oldest rb (out : list T) :
  wf rb ->
  let n := Z.min (size rb) (Z.of_nat (length out)) in
  peek zero rb out =
  (n, take (Z.to_nat n) (contents zero rb) ++ drop (Z.to_nat n) out).
Proof.
  intros Hwf n. pose proof (size_range rb) as Hs. unfold in_range in Hs.
  unfold peek. fold (size rb). fold n.
  rewrite copy_out_spec by lia. rewrite contents_view.
  rewrite <- view_take by lia. reflexivity.
Qed.

(** X7.  [discard] removes the oldest pending elements, as many as asked for
    and at most all of them, and returns how many. *)
Theorem discard_drops_oldest rb (count : Z) :
  wf rb -> 0 <= count ->
  let n := Z.min (size rb) count in
  fst (discard rb count) = n /\
  contents zero (snd (discard rb count)) = drop (Z.to_nat n) (contents zero rb) /\
  size (snd (discard rb count)) = size rb - n /\
  write_pos_ (snd (discard rb count)) = write_pos_ rb.
Proof.
  intros Hwf Hc n.
  destruct (discard_spec zero rb count Hwf Hc) as (rb' & E & _ & Hcont & Hs).
  split_and!; [reflexivity | | | reflexivity].
  - rewrite E. exact Hcont.
  - rewrite E. exact Hs.
Qed.

(** X8.  What is pushed in bulk comes out in bulk: after a bulk push that
    fits, a bulk pop into a span as long as the buffer's contents returns
    the elements that were pending followed by the pushed ones, and
    leaves the buffer empty. *)
Theorem push_pop_round_trip rb (data out : list T) :
  wf rb ->
  size rb + Z.of_nat (length data) <= capacity_ rb ->
  Z.of_nat (length out) = size rb + Z.of_nat (length data) ->
  let '(pushed, rb1) := try_push_span zero rb data in
  let '(popped, out', rb2) := try_pop_span zero rb1 out in
  pushed = Z.of_nat (length data) /\
  popped = Z.of_nat (length out) /\
  out' = contents zero rb ++ data /\
  contents zero rb2 = [].
Proof.
  intros Hwf Hroom Hout.
  pose proof (size_range rb) as Hs. unfold in_range in Hs.
  destruct (try_push_span_spec zero rb data Hwf) as (rb1 & E1 & Hwf1 & Hc1 & Hs1).
  rewrite E1.
  destruct (try_pop_span_spec zero rb1 out Hwf1) as (rb2 & E2 & _ & Hc2 & _).
  rewrite E2.
  replace (Z.min (capacity_ rb - size rb) (Z.of_nat (length data)))
    with (Z.of_nat (length data)) in * by lia.
  rewrite Nat2Z.id, firstn_all in Hc1.
  replace (Z.min (size rb1) (Z.of_nat (length out))) with (Z.of_nat (length out)) in * by lia.
  rewrite Nat2Z.id in *.
  assert (Hl : length (contents zero rb1) = length out).
  { rewrite length_contents. lia. }
  split_and!; try reflexivity.
  - rewrite drop_all, app_nil_r, <- Hl, firstn_all. exact Hc1.
  - rewrite Hc2, <- Hl. apply drop_all.
Qed.

(** X9.  [push_overwrite] always makes its value the newest element; on a
    full buffer it gives up the oldest one, otherwise none. *)
Theorem push_overwrite_newest rb (v : T) :
  wf rb ->
  contents zero (push_overwrite rb v) =
    (if full rb then tail (contents zero rb) else contents zero rb) ++ [v] /\
  size (push_overwrite rb v) = Z.min (size rb + 1) (capacity_ rb).
Proof.
  intros Hwf. unfold full.
  assert (Hsz : size rb <= capacity_ rb)
    by (destruct Hwf as (k & _ & _ & _ & _ & _ & _ & Hsz); exact Hsz).
  destruct (Z.eqb_spec (size rb) (capacity_ rb)) as [Hfull | Hroom].
  - destruct (push_overwrite_full zero rb v Hwf Hfull) as (_ & _ & _ & _ & Hs & Hc).
    split; [exact Hc | lia].
  - rewrite push_overwrite_room by (assumption || lia).
    destruct (try_push_ok zero rb v Hwf ltac:(lia)) as (rb' & E & _ & Hc & Hs & _).
    rewrite E. cbn [snd]. split; [exact Hc | lia].
Qed.

End RingBufferObservers.

(** A buffer of four integers holding 7 and 8, with room for two more. *)
Lemma half_full_wf : wf (mkRingBuffer 4 3 [7; 8; 0; 0] 2 0).
Proof. exists 2. vm_compute. split_and!; congruence. Qed.

Lemma RingBuffer_operations_keep_invariant_witness :
  wf (snd (try_push (mkRingBuffer 4 3 [7; 8; 0; 0] 2 0) 9)) /\
  wf (push_overwrite (mkRingBuffer 4 3 [7; 8; 0; 0] 2 0) 9).
Proof.
  pose proof (RingBuffer_operations_keep_invariant 0 _ half_full_wf 9 [] [] 1
                ltac:(lia)) as H.
  cbv zeta in H. destruct H as ((H1 & _) & _ & (H3 & _) & _).
  split; assumption.
Defined.

Lemma RingBuffer_size_available_witness :
  size (mkRingBuffer 4 3 [7; 8; 0; 0] 2 0) + available (mkRingBuffer 4 3 [7; 8; 0; 0] 2 0)
  = 4.
Proof. apply (RingBuffer_size_available 0 _ half_full_wf). Defined.

Lemma try_push_refused_iff_full_witness :
  fst (try_push (mkRingBuffer 4 3 [7; 8; 0; 0] 2 0) 9) = true.
Proof.
  apply (try_push_refused_iff_full 0 _ 9 [] half_full_wf). reflexivity.
Defined.

Lemma try_pop_refused_iff_empty_witness :
  exists x rb',
    try_pop 0 (mkRingBuffer 4 3 [7; 8; 0; 0] 2 0) 0 = (true, x, rb') /\
    contents 0 (mkRingBuffer 4 3 [7; 8; 0; 0] 2 0) = x :: contents 0 rb'.
Proof.
  apply (try_pop_refused_iff_empty 0 _ 0 half_full_wf); [simpl; lia | reflexivity].
Defined.

Lemma clear_empties_witness :
  contents 0 (clear (mkRingBuffer 4 3 [7; 8; 0; 0] 2 0)) = [].
Proof. apply (clear_empties 0 _ half_full_wf). Defined.

Lemma peek_shows_oldest_witness :
  peek 0 (mkRingBuffer 4 3 [7; 8; 0; 0] 2 0) [0; 0; 0] = (2, [7; 8; 0]).
Proof. apply (peek_shows_oldest 0 _ [0; 0; 0] half_full_wf). Defined.

Lemma discard_drops_oldest_witness :
  contents 0 (snd (discard (mkRingBuffer 4 3 [7; 8; 0; 0] 2 0) 1)) = [8].
Proof.
  apply (discard_drops_oldest 0 _ 1 half_full_wf). lia.
Defined.

Lemma push_pop_round_trip_witness :
  let '(pushed, rb1) := try_push_span 0 (mkRingBuffer 4 3 [7; 8; 0; 0] 2 0) [9; 10] in
  let '(popped, out', rb2) := try_pop_span 0 rb1 [0; 0; 0; 0] in
  pushed = 2 /\ popped = 4 /\ out' = [7; 8; 9; 10] /\ contents 0 rb2 = [].
Proof.
  apply (push_pop_round_trip 0 _ [9; 10] [0; 0; 0; 0] half_full_wf); vm_compute;
    (reflexivity || discriminate).
Defined.

Lemma push_overwrite_newest_witness :
  contents 0 (push_overwrite (mkRingBuffer 4 3 [7; 8; 0; 0] 2 0) 9) = [7; 8; 9].
Proof. apply (push_overwrite_newest 0 _ 9 half_full_wf). Defined.

(** * Part IV: further properties of the FFT processor *)

Section FFTMore.
Variable P : Platform.

Lemma foldl_insert_seq (f : nat -> float) (l : list float) (k : nat) :
  (k <= length l)%nat ->
  foldl (fun o i => <[i := f i]> o) l (seq 0 k) = map f (seq 0 k) ++ drop k l.
Proof.
  induction k as [| k IH]; intros Hk.
  - reflexivity.
  - rewrite seq_S, foldl_app, IH by lia. cbn [foldl Nat.add].
    rewrite insert_app_drop by (rewrite ?length_map, ?length_seq; lia).
    rewrite map_app. reflexivity.
Qed.

Lemma size_t_of_float_range x : in_range (size_t_of_float P x).
Proof.
  unfold size_t_of_float. destruct (F32.trunc x) as [z |]; [| apply wrap_range].
  destruct (Z.leb_spec 0 z); [| apply wrap_range].
  destruct (Z.ltb_spec z modulus); [| apply wrap_range].
  simpl. unfold in_range. lia.
Qed.

(** X12.  [frequency_to_bin] returns a valid bin index whatever the frequency
    and the sample rate are: negative, zero, infinite or NaN. *)
Theorem frequency_to_bin_in_range (fp : FFTProcessor) (frequency sample_rate : float) :
  0 <= fft_size (config_ fp) < modulus ->
  0 <= FFT.frequency_to_bin P fp frequency sample_rate < FFT.bin_count fp.
Proof.
  intros Hn. unfold FFT.frequency_to_bin.
  pose proof (bin_count_eq fp Hn) as Hb.
  pose proof (Z.div_pos (fft_size (config_ fp)) 2 ltac:(lia) ltac:(lia)) as Hd.
  pose proof (wrap_range (fft_size (config_ fp) / 2 + 1)) as Hr.
  fold (FFT.bin_count fp) in Hr. unfold in_range in Hr.
  rewrite (wrap_small (FFT.bin_count fp - 1)) by (unfold in_range; lia).
  match goal with |- context [size_t_of_float P ?x] =>
    pose proof (size_t_of_float_range x) as Hx end.
  unfold in_range in Hx. lia.
Qed.

(** X11.  What the constructor does for a power of two below [2^31]: it fails
    with a [std::runtime_error] when FFTW returns no memory or no plan,
    and otherwise leaves a processor that is ready for [compute]. *)
Theorem FFT_new_outcomes (cfg : FFTConfig) :
  is_power_of_two (fft_size cfg) -> fft_size cfg < 2 ^ 31 ->
  let n := fft_size cfg in
  let allocated := fftwf_alloc_real P n && fftwf_alloc_complex P (n / 2 + 1) in
  (allocated = false ->
     FFT.new P cfg = Throw (runtime_error "Failed to allocate FFTW buffers")) /\
  (allocated = true -> fftwf_plan_dft_r2c_1d P n = false ->
     FFT.new P cfg = Throw (runtime_error "Failed to create FFTW plan")) /\
  (allocated = true -> fftwf_plan_dft_r2c_1d P n = true ->
     exists fp data,
       FFT.new P cfg = Ok fp /\ FFT.ready fp /\ config_ fp = cfg /\
       fftw_ fp = Some data /\
       Z.of_nat (length (output data)) = n / 2 + 1 /\
       (window cfg = Rectangular -> window_ fp = replicate (Z.to_nat n) F32.one)).
Proof.
  intros (k & Hk & E) Hn n allocated.
  pose proof (Z.pow_pos_nonneg 2 k ltac:(lia) Hk) as Hp.
  assert (H31 : 2 ^ 31 < modulus) by reflexivity.
  assert (Hrange : 0 <= fft_size cfg < modulus) by lia.
  assert (Hguard : Z.land (fft_size cfg) (wrap (fft_size cfg - 1)) = 0).
  { rewrite (wrap_small (fft_size cfg - 1)) by (unfold in_range; lia).
    rewrite E. apply land_pred_pow2. exact Hk. }
  assert (Hbc : wrap (n / 2 + 1) = n / 2 + 1).
  { apply (bin_count_eq (mkFFTProcessor cfg None [])). exact Hrange. }
  assert (Hnew : FFT.new P cfg =
    if negb (fftwf_alloc_real P n) || negb (fftwf_alloc_complex P (n / 2 + 1))
    then Throw (runtime_error "Failed to allocate FFTW buffers")
    else if negb (fftwf_plan_dft_r2c_1d P n)
    then Throw (runtime_error "Failed to create FFTW plan")
    else Ok (FFT.compute_window P
               (mkFFTProcessor cfg
                  (Some (mkFFTWData true (replicate (Z.to_nat n) (uninitialised P))
                           (replicate (Z.to_nat (n / 2 + 1))
                                      (uninitialised P, uninitialised P))))
                  (resize (Z.to_nat n) F32.zero [])))).
  { rewrite FFT_new_guard_passes by exact Hguard.
    unfold FFT.allocate_buffers. cbn [config_ window_]. fold n.
    rewrite int_of_size_t_small by lia. fold n.
    rewrite (wrap_small n) by (unfold in_range, n; lia). rewrite Hbc.
    destruct (_ || _); [reflexivity |]. destruct (negb _); reflexivity. }
  unfold allocated. rewrite Hnew.
  destruct (fftwf_alloc_real P n), (fftwf_alloc_complex P (n / 2 + 1));
    cbn [andb negb orb]; (split; [| split]); try discriminate; try reflexivity.
  - intros _ Hplan. rewrite Hplan. reflexivity.
  - intros _ Hplan. rewrite Hplan. cbn [negb].
    set (fp0 := mkFFTProcessor _ _ _).
    destruct (compute_window_keeps P fp0) as (Hc & Hf & Hw).
    exists (FFT.compute_window P fp0). eexists.
    split; [reflexivity |].
    assert (Hlen : length (window_ (FFT.compute_window P fp0)) = Z.to_nat n).
    { rewrite Hw. unfold fp0. cbn [window_]. apply length_resize. }
    split_and!.
    + eexists. rewrite Hf, Hc, Hlen. unfold fp0. cbn [fftw_].
      split; [reflexivity |]. cbn [plan input config_].
      rewrite length_replicate. unfold n in *. split_and!; try reflexivity; lia.
    + exact Hc.
    + rewrite Hf. reflexivity.
    + cbn [output]. rewrite length_replicate. unfold n.
      pose proof (Z.div_pos (fft_size cfg) 2 ltac:(lia) ltac:(lia)). lia.
    + intros Hrect. unfold FFT.compute_window, fp0. cbn [config_ window_].
      rewrite Hrect, resize_nil.
      generalize (Z.to_nat n). intros m. induction m as [| m IH]; [reflexivity |].
      cbn [replicate map]. rewrite IH. reflexivity.
Qed.

End FFTMore.

Section FFTComputeMore.
Variable P : Platform.

Lemma fill_input_length fp samples inp :
  0 <= fft_size (config_ fp) < modulus ->
  Z.of_nat (length samples) < modulus ->
  Z.of_nat (length inp) = fft_size (config_ fp) ->
  Z.of_nat (length (window_ fp)) = fft_size (config_ fp) ->
  Z.of_nat (length (FFT.fill_input fp samples inp)) = fft_size (config_ fp).
Proof.
  intros Hn Hs Hi Hw. rewrite fill_input_spec by assumption.
  rewrite length_app, length_replicate, length_zip_with, !length_drop. lia.
Qed.

Lemma compute_unfold fp data samples out :
  fftw_ fp = Some data -> plan data = true ->
  0 <= fft_size (config_ fp) < modulus ->
  FFT.bin_count fp <= Z.of_nat (length out) ->
  let inp := FFT.fill_input fp samples (input data) in
  let bins := fftwf_execute P inp in
  let num_bins := FFT.bin_count fp in
  let scale := F32.div F32.two (F32.of_Z (fft_size (config_ fp))) in
  FFT.compute P fp samples out =
  Ok (num_bins,
      map (FFT.bin_magnitude P (config_ fp) num_bins scale bins) (seq 0 (Z.to_nat num_bins))
        ++ drop (Z.to_nat num_bins) out,
      mkFFTProcessor (config_ fp) (Some (mkFFTWData true inp bins)) (window_ fp)).
Proof.
  intros Hd Hplan Hn Hout inp bins num_bins scale.
  unfold FFT.compute. rewrite Hd, Hplan. cbn [negb orb].
  rewrite Z.geb_leb.
  destruct (Z.leb_spec (FFT.bin_count fp) (Z.of_nat (length out))) as [_ | Hbad]; [| lia].
  cbn [negb]. fold inp. fold bins. fold num_bins. fold scale.
  rewrite foldl_insert_seq; [reflexivity |].
  unfold num_bins. lia.
Qed.

(** X13.  [compute] can be called again and again: it leaves the processor
    ready, with the same configuration and window, returns [bin_count],
    writes the first [bin_count] elements of the output span and leaves
    the rest of it alone. *)
Theorem compute_keeps_ready (fp : FFTProcessor) (samples out : list float) :
  FFT.ready fp ->
  FFT.bin_count fp <= Z.of_nat (length out) ->
  Z.of_nat (length samples) < modulus ->
  exists out' fp',
    FFT.compute P fp samples out = Ok (FFT.bin_count fp, out', fp') /\
    FFT.ready fp' /\
    config_ fp' = config_ fp /\ window_ fp' = window_ fp /\
    length out' = length out /\
    drop (Z.to_nat (FFT.bin_count fp)) out' = drop (Z.to_nat (FFT.bin_count fp)) out.
Proof.
  intros (data & Hd & Hplan & Hn & Hin & Hw) Hout Hs.
  pose proof (wrap_range (fft_size (config_ fp) / 2 + 1)) as Hb.
  fold (FFT.bin_count fp) in Hb. unfold in_range in Hb.
  eexists _, _. split; [apply (compute_unfold fp data samples out Hd Hplan Hn Hout) |].
  assert (Hl : length (map (FFT.bin_magnitude P (config_ fp) (FFT.bin_count fp)
                   (F32.div F32.two (F32.of_Z (fft_size (config_ fp))))
                   (fftwf_execute P (FFT.fill_input fp samples (input data))))
                   (seq 0 (Z.to_nat (FFT.bin_count fp)))) = Z.to_nat (FFT.bin_count fp)).
  { rewrite length_map, length_seq. reflexivity. }
  split_and!; try reflexivity.
  - eexists. split; [reflexivity |]. cbn [plan input config_ window_].
    split_and!; try reflexivity; try lia; try assumption.
    apply fill_input_length; assumption.
  - rewrite length_app, Hl, length_drop. lia.
  - rewrite drop_app_length'; [reflexivity | symmetry; exact Hl].
Qed.

End FFTComputeMore.

Lemma bin_count_eq_raw n : 0 <= n < modulus -> wrap (n / 2 + 1) = n / 2 + 1.
Proof.
  intros Hn.
  apply (bin_count_eq (mkFFTProcessor (mkFFTConfig n Rectangular false F32.zero F32.zero)
                                      None [])).
  exact Hn.
Qed.

Section FFTConfigure.
Variable P : Platform.

Lemma window_loop_closed n f (w : list float) :
  (Z.to_nat n <= length w)%nat ->
  FFT.window_loop n f w =
  map (fun i => f (F32.div (F32.of_Z (Z.of_nat i)) (F32.of_Z (wrap (n - 1)))))
      (seq 0 (Z.to_nat n)) ++ drop (Z.to_nat n) w.
Proof.
  intros Hn. unfold FFT.window_loop.
  apply (foldl_insert_seq
           (fun i => f (F32.div (F32.of_Z (Z.of_nat i)) (F32.of_Z (wrap (n - 1)))))).
  exact Hn.
Qed.

Lemma map_const_length (c : float) (l1 l2 : list float) :
  length l1 = length l2 -> map (fun _ => c) l1 = map (fun _ => c) l2.
Proof.
  revert l2. induction l1 as [| x l1 IH]; intros [| y l2] H; try discriminate.
  - reflexivity.
  - cbn [map]. f_equal. apply IH. simpl in H. lia.
Qed.

(** X14.  [compute_window] overwrites the whole window: what it leaves depends
    on the configuration only, never on the coefficients that were there
    before. *)
Theorem compute_window_overwrites (fp1 fp2 : FFTProcessor) :
  config_ fp1 = config_ fp2 ->
  length (window_ fp1) = Z.to_nat (fft_size (config_ fp1)) ->
  length (window_ fp2) = Z.to_nat (fft_size (config_ fp1)) ->
  window_ (FFT.compute_window P fp1) = window_ (FFT.compute_window P fp2).
Proof.
  intros Hc H1 H2. unfold FFT.compute_window. cbn [window_]. rewrite <- Hc.
  destruct (window (config_ fp1)).
  - apply map_const_length. congruence.
  - rewrite !window_loop_closed by lia. rewrite !drop_ge by lia. reflexivity.
  - rewrite !window_loop_closed by lia. rewrite !drop_ge by lia. reflexivity.
  - rewrite !window_loop_closed by lia. rewrite !drop_ge by lia. reflexivity.
  - rewrite !window_loop_closed by lia. rewrite !drop_ge by lia. reflexivity.
Qed.

(** X15.  [set_config] with an unchanged [fft_size] reuses the FFTW buffers and
    the plan, takes over the new configuration and leaves the processor
    ready. *)
Theorem set_config_same_size (fp : FFTProcessor) (config : FFTConfig) :
  FFT.ready fp -> fft_size config = fft_size (config_ fp) ->
  exists fp',
    FFT.set_config P fp config = Ok fp' /\
    config_ fp' = config /\ fftw_ fp' = fftw_ fp /\
    length (window_ fp') = length (window_ fp) /\
    FFT.ready fp'.
Proof.
  intros (data & Hd & Hplan & Hn & Hin & Hw) Hsame.
  unfold FFT.set_config. rewrite Hsame, Z.eqb_refl. cbn [negb].
  eexists. split; [reflexivity |].
  destruct (compute_window_keeps P (mkFFTProcessor config (fftw_ fp) (window_ fp)))
    as (Hc & Hf & Hl).
  cbn [config_ fftw_ window_] in Hc, Hf, Hl.
  split_and!; try assumption.
  exists data. rewrite Hf, Hc, Hl, Hsame. split_and!; try assumption; lia.
Qed.

(** X16.  [set_config] does not repeat the constructor's power-of-two test: it
    never throws [std::invalid_argument], and for any new size below
    [2^31] for which FFTW returns memory and a plan it leaves a ready
    processor of that size. *)
Theorem set_config_skips_size_check (fp : FFTProcessor) (config : FFTConfig) :
  (forall what, FFT.set_config P fp config <> Throw (invalid_argument what)) /\
  (fft_size config <> fft_size (config_ fp) ->
   0 <= fft_size config < 2 ^ 31 ->
   fftwf_alloc_real P (fft_size config) = true ->
   fftwf_alloc_complex P (fft_size config / 2 + 1) = true ->
   fftwf_plan_dft_r2c_1d P (fft_size config) = true ->
   exists fp',
     FFT.set_config P fp config = Ok fp' /\ config_ fp' = config /\ FFT.ready fp').
Proof.
  split.
  - intros what. unfold FFT.set_config. destruct (negb _); [| discriminate].
    unfold FFT.allocate_buffers.
    destruct (_ || _); [discriminate |]. destruct (negb _); discriminate.
  - intros Hne Hn Ha Hc Hp.
    assert (H31 : 2 ^ 31 < modulus) by reflexivity.
    unfold FFT.set_config.
    destruct (Z.eqb_spec (fft_size config) (fft_size (config_ fp))) as [E | _];
      [contradiction |].
    cbn [negb]. unfold FFT.allocate_buffers. cbn [config_ window_].
    rewrite int_of_size_t_small by lia.
    rewrite (wrap_small (fft_size config)) by (unfold in_range; lia).
    rewrite (bin_count_eq_raw (fft_size config)) by lia.
    rewrite Ha, Hc, Hp. cbn [negb orb].
    set (fp0 := mkFFTProcessor _ _ _).
    destruct (compute_window_keeps P fp0) as (Hcfg & Hf & Hl).
    eexists. split; [reflexivity |]. split; [exact Hcfg |].
    eexists. rewrite Hf, Hcfg, Hl. unfold fp0. cbn [fftw_ config_ window_].
    split; [reflexivity |]. cbn [plan input].
    rewrite length_replicate, length_resize. split_and!; try reflexivity; lia.
Qed.

End FFTConfigure.

(** * Part V: further properties of the spectrum analyzer *)

Section AnalyzerMore.
Variable P : Platform.

Lemma peek_spec (rb : RingBuffer float) (out : list float) :
  wf rb ->
  let n := Z.min (size rb) (Z.of_nat (length out)) in
  peek F32.zero rb out =
  (n, take (Z.to_nat n) (contents F32.zero rb) ++ drop (Z.to_nat n) out).
Proof.
  intros Hwf n. pose proof (size_range rb) as Hs. unfold in_range in Hs.
  unfold peek. fold (size rb). fold n.
  rewrite copy_out_spec by lia. rewrite contents_view.
  rewrite <- view_take by lia. reflexivity.
Qed.

(** The samples [update] keeps for analysis: the [fft_size] most recent
    ones when more are pending. *)
Lemma update_trims rb needed :
  wf rb -> 0 <= needed ->
  let buffer :=
    if size rb >? needed then snd (discard rb (wrap (size rb - needed))) else rb in
  let m := Z.min (size rb) needed in
  wf buffer /\ size buffer = m /\
  contents F32.zero buffer = drop (Z.to_nat (size rb - m)) (contents F32.zero rb).
Proof.
  intros Hwf Hn buffer m. pose proof (size_range rb) as Hs. unfold in_range in Hs.
  unfold buffer. rewrite Z.gtb_ltb.
  destruct (Z.ltb_spec needed (size rb)) as [Hgt | Hle].
  - rewrite (wrap_small (size rb - needed)) by (unfold in_range; lia).
    destruct (discard_spec F32.zero rb (size rb - needed) Hwf ltac:(lia))
      as (rb' & E & Hwf' & Hc & Hs').
    rewrite E. cbn [snd]. unfold m.
    replace (Z.min (size rb) (size rb - needed)) with (size rb - needed) in * by lia.
    replace (Z.min (size rb) needed) with needed by lia.
    split_and!; [exact Hwf' | lia | exact Hc].
  - unfold m. replace (Z.min (size rb) needed) with (size rb) by lia.
    rewrite Z.sub_diag. split_and!; [exact Hwf | reflexivity | reflexivity].
Qed.

(** A frame that is not starved, in full: what [update] returns and
    what it leaves in the ring buffer, the sample buffer and the FFT
    processor. *)
Lemma update_not_starved_spec now sa :
  Analyzer.consistent sa -> ~ Analyzer.starved sa ->
  let ring := ring_buffer_ (audio_ sa) in
  let m := Z.min (size ring) (fft_size (config_ (fft_ sa))) in
  let recent := drop (Z.to_nat (size ring - m)) (contents F32.zero ring) in
  exists data sa',
    Analyzer.update P now sa = Ok (data, sa') /\
    wf (ring_buffer_ (audio_ sa')) /\
    size (ring_buffer_ (audio_ sa')) = 0 /\
    capacity_ (ring_buffer_ (audio_ sa')) = capacity_ ring /\
    write_pos_ (ring_buffer_ (audio_ sa')) = write_pos_ ring /\
    sample_buffer_ sa' = recent ++ drop (Z.to_nat m) (sample_buffer_ sa) /\
    length recent = Z.to_nat m /\
    FFT.ready (fft_ sa') /\ config_ (fft_ sa') = config_ (fft_ sa) /\
    window_ (fft_ sa') = window_ (fft_ sa) /\
    length (magnitude_buffer_ sa') = length (magnitude_buffer_ sa) /\
    rms_level data =
      F32.sqrt (F32.div (fst (Analyzer.level_loop (sample_buffer_ sa') m)) (F32.of_Z m)) /\
    peak_level data = snd (Analyzer.level_loop (sample_buffer_ sa') m) /\
    timestamp data = now.
Proof.
  intros ((Hfft & Hmb & Hsm & Hpk) & Hwf & Hsb) Hns ring m recent.
  unfold Analyzer.starved in Hns. unfold Analyzer.update.
  destruct (Z.ltb_spec (size (ring_buffer_ (audio_ sa)))
                       (fft_size (config_ (fft_ sa)) / 4)) as [Hbad | _]; [contradiction |].
  fold ring.
  destruct Hfft as (fdata & Hfd & Hplan & Hn & Hin & Hw).
  destruct (update_trims ring (fft_size (config_ (fft_ sa))) Hwf ltac:(lia))
    as (Hwf1 & Hs1 & Hc1).
  set (buffer := if _ >? _ then _ else _) in *.
  fold m in Hs1, Hc1. fold recent in Hc1.
  assert (Hm : 0 <= m <= fft_size (config_ (fft_ sa))).
  { pose proof (size_range ring) as Hr. unfold in_range in Hr. unfold m. lia. }
  assert (Hrec : length recent = Z.to_nat m).
  { rewrite <- Hc1, length_contents, Hs1. reflexivity. }
  rewrite (peek_spec buffer (sample_buffer_ sa) Hwf1). rewrite Hs1, Hc1.
  replace (Z.min m (Z.of_nat (length (sample_buffer_ sa)))) with m by lia.
  rewrite (take_ge recent) by lia.
  set (sample_buffer := recent ++ drop (Z.to_nat m) (sample_buffer_ sa)).
  destruct (Analyzer.level_loop sample_buffer m) as [sum_squares peak] eqn:Elev.
  assert (Hsamples : Z.of_nat (length (take (Z.to_nat m) sample_buffer)) < modulus).
  { rewrite length_take. lia. }
  rewrite (compute_unfold P (fft_ sa) fdata (take (Z.to_nat m) sample_buffer)
             (magnitude_buffer_ sa) Hfd Hplan Hn Hmb).
  set (cfg := analyzer_config_ sa) in *.
  set (nb := Z.to_nat (num_bands cfg)) in *.
  set (mb := map _ _ ++ drop _ (magnitude_buffer_ sa)).
  rewrite (band_loop_spec cfg (fun i => Analyzer.compute_band_magnitude (band_bins_ sa) mb i))
    by (cbn [magnitudes peaks]; rewrite ?resize_nil, ?length_replicate; lia).
  destruct (discard_spec F32.zero buffer m Hwf1 ltac:(lia)) as (rb2 & E2 & Hwf2 & _ & Hs2).
  rewrite E2. cbn [snd].
  eexists _, _. split; [reflexivity |].
  cbn [audio_ fft_ sample_buffer_ magnitude_buffer_ rms_level peak_level timestamp
       Audio.store_ring_buffer ring_buffer_ config_ window_ fst snd].
  assert (Hcap2 : capacity_ rb2 = capacity_ ring /\ write_pos_ rb2 = write_pos_ ring).
  { assert (rb2 = snd (discard buffer m)) as -> by (rewrite E2; reflexivity).
    unfold discard, store_read_pos. cbn [snd capacity_ write_pos_].
    unfold buffer. destruct (_ >? _); split; reflexivity. }
  pose proof (wrap_range (fft_size (config_ (fft_ sa)) / 2 + 1)) as Hb.
  fold (FFT.bin_count (fft_ sa)) in Hb. unfold in_range in Hb.
  split_and!; try reflexivity; try apply Hcap2.
  - exact Hwf2.
  - rewrite Hs2, Hs1. lia.
  - exact Hrec.
  - eexists. split; [reflexivity |]. cbn [plan input config_ window_].
    split; [reflexivity |]. split; [exact Hn |]. split; [| exact Hw].
    apply fill_input_length; assumption.
  - unfold mb. rewrite length_app, length_map, length_seq, length_drop. lia.
  - fold sample_buffer. rewrite Elev. reflexivity.
  - fold sample_buffer. rewrite Elev. reflexivity.
Qed.

End AnalyzerMore.

Section AnalyzerFrames.
Variable P : Platform.

(** X17.  An analyzer that was constructed satisfies the invariant
    of the frame loop; its capture is not running, its counters are
    zero, its ring buffer is empty with the next power of two of the
    requested number of samples as capacity, and its FFT processor
    carries the requested configuration. *)
Theorem Analyzer_new_establishes_invariant ac fc cfg sa :
  Analyzer.new P ac fc cfg = Ok sa -> 0 <= fft_size fc < 2 ^ 31 ->
  Analyzer.consistent sa /\
  Audio.is_running (audio_ sa) = false /\
  Audio.stats (audio_ sa) = mkAudioStats 0 0 0 F32.zero /\
  contents F32.zero (ring_buffer_ (audio_ sa)) = [] /\
  capacity_ (ring_buffer_ (audio_ sa)) =
    next_power_of_two
      (size_t_of_float P
         (F32.mul (F32.mul (ring_buffer_seconds ac) (F32.of_Z (sample_rate ac)))
                  (F32.of_Z (channels ac)))) /\
  config_ (fft_ sa) = fc /\ analyzer_config_ sa = cfg.
Proof.
  intros Hnew Hn. pose proof (Analyzer_new_ready P ac fc cfg sa Hnew Hn) as Hready.
  unfold Analyzer.new in Hnew.
  destruct (Audio.new P ac) as [audio | |] eqn:Ea; try discriminate.
  destruct (FFT.new P fc) as [fft | |] eqn:Ef; try discriminate.
  apply recompute_band_mapping_keeps in Hnew. cbn in Hnew.
  destruct Hnew as (Ha & Hfft & Hcf & Hsb & _).
  destruct (FFT_new_ready P fc fft Ef Hn) as [_ Hcfg].
  unfold Audio.new in Ea.
  destruct (RingBuffer_new F32.zero _) as [rb |] eqn:Er; try discriminate.
  apply RingBuffer_new_wf in Er. destruct Er as (Hwf & Hz & _ & _ & Hcap).
  destruct (Pa_GetDefaultInputDevice P); try discriminate.
  destruct (Pa_GetDeviceInfo P _); try discriminate.
  destruct (Pa_OpenStream P _ _ _); try discriminate.
  injection Ea as <-.
  rewrite Ha, Hfft, Hcfg, Hcf. cbn [ring_buffer_].
  split_and!; try reflexivity.
  - split; [exact Hready |]. rewrite Ha, Hfft, Hsb, Hcfg. cbn [ring_buffer_].
    split; [exact Hwf |]. rewrite length_resize. lia.
  - apply length_zero_iff_nil. rewrite length_contents, Hz. reflexivity.
  - exact Hcap.
Qed.

(** X18.  A frame that is not starved analyses the most recent samples
    and consumes all that are pending: with [m] the smaller of the
    number of pending samples and [fft_size], the first [m] elements of
    the sample buffer become the [m] newest pending samples, the rest of
    the sample buffer is kept, and the ring buffer is left empty with
    its capacity and its write position unchanged. *)
Theorem update_takes_most_recent now sa :
  Analyzer.consistent sa -> ~ Analyzer.starved sa ->
  let ring := ring_buffer_ (audio_ sa) in
  let m := Z.min (size ring) (fft_size (config_ (fft_ sa))) in
  exists data sa',
    Analyzer.update P now sa = Ok (data, sa') /\
    sample_buffer_ sa' =
      drop (Z.to_nat (size ring - m)) (contents F32.zero ring) ++
      drop (Z.to_nat m) (sample_buffer_ sa) /\
    length (sample_buffer_ sa') = length (sample_buffer_ sa) /\
    size (ring_buffer_ (audio_ sa')) = 0 /\
    contents F32.zero (ring_buffer_ (audio_ sa')) = [] /\
    capacity_ (ring_buffer_ (audio_ sa')) = capacity_ ring /\
    write_pos_ (ring_buffer_ (audio_ sa')) = write_pos_ ring.
Proof.
  intros Hc Hns ring m.
  destruct (update_not_starved_spec P now sa Hc Hns)
    as (data & sa' & E & Hwf' & Hs' & Hcap & Hw & Hsb & Hrec & _).
  fold ring in Hs', Hcap, Hw, Hsb, Hrec. fold m in Hsb, Hrec.
  destruct Hc as (_ & Hwf & Hlen).
  pose proof (size_range ring) as Hr. unfold in_range in Hr.
  exists data, sa'. split_and!; try assumption.
  - rewrite Hsb, length_app, Hrec, length_drop. unfold m in *. lia.
  - apply length_zero_iff_nil. rewrite length_contents, Hs'. reflexivity.
Qed.

(** X19.  [update] never fails on a consistent analyzer and leaves it
    consistent, whether the frame is starved or not; the snapshot has
    one magnitude and one peak per band and carries the time of the
    call, and the configurations are unchanged. *)
Theorem update_keeps_consistent now sa :
  Analyzer.consistent sa ->
  exists data sa',
    Analyzer.update P now sa = Ok (data, sa') /\
    Analyzer.consistent sa' /\
    length (magnitudes data) = Z.to_nat (num_bands (analyzer_config_ sa)) /\
    length (peaks data) = Z.to_nat (num_bands (analyzer_config_ sa)) /\
    timestamp data = now /\
    analyzer_config_ sa' = analyzer_config_ sa /\
    config_ (fft_ sa') = config_ (fft_ sa) /\
    band_bins_ sa' = band_bins_ sa.
Proof.
  intros Hc.
  destruct (Z.lt_ge_cases (size (ring_buffer_ (audio_ sa)))
                          (fft_size (config_ (fft_ sa)) / 4)) as [Hst | Hns].
  - exists (mkSpectrumData (smoothed_magnitudes_ sa) (peak_values_ sa) F32.zero F32.zero now), sa.
    split; [apply update_starved; exact Hst |].
    destruct Hc as ((Hf & Hmb & Hsm & Hpk) & Hwf & Hsb).
    cbn [magnitudes peaks timestamp].
    split_and!; try reflexivity; try assumption.
    split; [split_and!; assumption | split; assumption].
  - assert (Hns' : ~ Analyzer.starved sa) by (unfold Analyzer.starved; lia).
    destruct (update_not_starved_spec P now sa Hc Hns')
      as (data & sa' & E & Hwf' & _ & _ & _ & Hsb' & Hrec & Hf' & Hcfg & _ & Hmb' & _ & _ & Ht).
    destruct (update_applies_band_rule P now sa (proj1 Hc) Hns')
      as (data2 & sa2 & E2 & Hac & Hbb & Hmag & Hpks & Hsm' & Hpk' & _).
    assert (Heq : Ok (data2, sa2) = Ok (data, sa')) by (rewrite <- E, <- E2; reflexivity).
    injection Heq as -> ->.
    destruct Hc as ((Hf & Hmb & Hsm & Hpk) & Hwf & Hsb).
    pose proof (size_range (ring_buffer_ (audio_ sa))) as Hr. unfold in_range in Hr.
    exists data, sa'. split; [exact E |].
    split_and!; try assumption.
    + unfold Analyzer.consistent, Analyzer.ready.
      rewrite Hac. unfold FFT.bin_count in *. rewrite Hcfg, Hmb'.
      split_and!; try assumption.
      rewrite Hsb', length_app, Hrec, length_drop. lia.
    + rewrite Hmag. exact Hsm'.
    + rewrite Hpks. exact Hpk'.
Qed.

(** X20.  A frame that finds the ring buffer empty and is not starved,
    which takes a transform of fewer than four samples, divides zero
    by zero: its [rms_level] is a NaN.  Its
    [peak_level] is zero. *)
Theorem update_empty_buffer_rms_nan now sa :
  Analyzer.consistent sa -> ~ Analyzer.starved sa ->
  size (ring_buffer_ (audio_ sa)) = 0 ->
  fft_size (config_ (fft_ sa)) < 4 /\
  exists data sa',
    Analyzer.update P now sa = Ok (data, sa') /\
    rms_level data = S754_nan /\ peak_level data = F32.zero /\
    sample_buffer_ sa' = sample_buffer_ sa.
Proof.
  intros Hc Hns Hz.
  destruct (update_not_starved_spec P now sa Hc Hns)
    as (data & sa' & E & _ & _ & _ & _ & Hsb' & _ & _ & _ & _ & _ & Hrms & Hpk & _).
  destruct Hc as ((Hf & _) & _ & _). destruct Hf as (fd & _ & _ & Hn & _).
  unfold Analyzer.starved in Hns. rewrite Hz in *.
  assert (Hdiv : fft_size (config_ (fft_ sa)) / 4 <= 0) by lia.
  assert (Hsmall : fft_size (config_ (fft_ sa)) < 4).
  { destruct (Z.lt_ge_cases (fft_size (config_ (fft_ sa))) 4) as [H | H]; [exact H |].
    pose proof (Z.div_le_mono 4 (fft_size (config_ (fft_ sa))) 4 ltac:(lia) H) as Hd.
    change (4 / 4) with 1 in Hd. lia. }
  split; [exact Hsmall |].
  replace (Z.min 0 (fft_size (config_ (fft_ sa)))) with 0 in * by lia.
  exists data, sa'. split; [exact E |]. split_and!.
  - rewrite Hrms. reflexivity.
  - rewrite Hpk. reflexivity.
  - rewrite Hsb'. rewrite Z.sub_0_r. cbn [Z.to_nat drop].
    pose proof (length_contents F32.zero (ring_buffer_ (audio_ sa))) as Hl.
    rewrite Hz in Hl. apply length_zero_iff_nil in Hl. rewrite Hl. reflexivity.
Qed.

(** X21.  When no samples arrive between two frames and the transform
    has at least four samples, the second frame is starved: it repeats
    the magnitudes and the peaks of the first, reports zero levels and
    changes nothing. *)
Theorem update_repeats_without_new_samples now later sa :
  Analyzer.consistent sa -> ~ Analyzer.starved sa ->
  4 <= fft_size (config_ (fft_ sa)) ->
  exists data sa',
    Analyzer.update P now sa = Ok (data, sa') /\
    Analyzer.update P later sa' =
      Ok (mkSpectrumData (magnitudes data) (peaks data) F32.zero F32.zero later, sa').
Proof.
  intros Hc Hns H4.
  destruct (update_not_starved_spec P now sa Hc Hns)
    as (data & sa' & E & _ & Hs' & _ & _ & _ & _ & _ & Hcfg & _).
  destruct (update_applies_band_rule P now sa (proj1 Hc) Hns)
    as (data2 & sa2 & E2 & _ & _ & Hmag & Hpks & _).
  assert (Heq : Ok (data2, sa2) = Ok (data, sa')) by (rewrite <- E, <- E2; reflexivity).
  injection Heq as -> ->.
  exists data, sa'. split; [exact E |].
  rewrite Hmag, Hpks. apply update_starved.
  unfold Analyzer.starved. rewrite Hs', Hcfg.
  pose proof (Z.div_le_mono 4 (fft_size (config_ (fft_ sa))) 4 ltac:(lia) H4) as Hd.
  change (4 / 4) with 1 in Hd. lia.
Qed.

End AnalyzerFrames.

Section AnalyzerConfigure.
Variable P : Platform.

Lemma resize_same (v : float) (l : list float) : resize (length l) v l = l.
Proof.
  unfold resize. rewrite firstn_all, Nat.sub_diag. cbn [replicate]. apply app_nil_r.
Qed.

(** X22.  [set_config] on a consistent analyzer, for a configuration
    with a logarithmic axis or at least one band: it succeeds, installs
    the configuration, leaves the capture, the FFT processor and the
    sample and magnitude buffers alone, resizes the smoothing and the
    peak state to the new number of bands (values of the bands that
    remain are kept, new bands start at zero), and the analyzer is
    consistent again. *)
Theorem set_config_keeps_consistent sa config :
  Analyzer.consistent sa ->
  logarithmic_frequency config = true \/ num_bands config <> 0 ->
  exists sa',
    Analyzer.set_config P sa config = Ok sa' /\
    Analyzer.consistent sa' /\
    analyzer_config_ sa' = config /\
    audio_ sa' = audio_ sa /\ fft_ sa' = fft_ sa /\
    sample_buffer_ sa' = sample_buffer_ sa /\
    magnitude_buffer_ sa' = magnitude_buffer_ sa /\
    smoothed_magnitudes_ sa' =
      resize (Z.to_nat (num_bands config)) F32.zero (smoothed_magnitudes_ sa) /\
    peak_values_ sa' =
      resize (Z.to_nat (num_bands config)) F32.zero (peak_values_ sa).
Proof.
  intros ((Hf & Hmb & Hsm & Hpk) & Hwf & Hsb) Hcfg.
  unfold Analyzer.set_config.
  destruct (negb (num_bands config =? num_bands (analyzer_config_ sa)) || _ || _ || _)
    eqn:Ech.
  - set (sa1 := mkSpectrumAnalyzer _ _ _ _ _ _ _ _).
    assert (Hok : exists sa', Analyzer.recompute_band_mapping P sa1 = Ok sa').
    { unfold Analyzer.recompute_band_mapping. cbn [analyzer_config_ sa1].
      destruct (logarithmic_frequency config) eqn:El; [eexists; reflexivity |].
      destruct (Z.eqb_spec (num_bands config) 0) as [E0 | _]; [| eexists; reflexivity].
      destruct Hcfg as [H | H]; [discriminate | contradiction]. }
    destruct Hok as (sa' & E). exists sa'. split; [exact E |].
    apply recompute_band_mapping_keeps in E. cbn [sa1 audio_ fft_ analyzer_config_
      sample_buffer_ magnitude_buffer_ smoothed_magnitudes_ peak_values_] in E.
    destruct E as (Ea & Efft & Ec & Es & Em & Esm & Epk).
    split_and!; try assumption.
    unfold Analyzer.consistent, Analyzer.ready.
    rewrite Ea, Efft, Ec, Es, Em, Esm, Epk, !length_resize.
    split_and!; try assumption; reflexivity.
  - apply orb_false_iff in Ech. destruct Ech as [Ech _].
    apply orb_false_iff in Ech. destruct Ech as [Ech _].
    apply orb_false_iff in Ech. destruct Ech as [Ech _].
    apply negb_false_iff, Z.eqb_eq in Ech.
    eexists. split; [reflexivity |].
    cbn [audio_ fft_ analyzer_config_ sample_buffer_ magnitude_buffer_
         smoothed_magnitudes_ peak_values_].
    assert (Hr1 : resize (Z.to_nat (num_bands config)) F32.zero (smoothed_magnitudes_ sa)
                  = smoothed_magnitudes_ sa)
      by (rewrite Ech, <- Hsm; apply resize_same).
    assert (Hr2 : resize (Z.to_nat (num_bands config)) F32.zero (peak_values_ sa)
                  = peak_values_ sa)
      by (rewrite Ech, <- Hpk; apply resize_same).
    rewrite Hr1, Hr2.
    split_and!; try reflexivity.
    unfold Analyzer.consistent, Analyzer.ready.
    cbn [audio_ fft_ analyzer_config_ sample_buffer_ magnitude_buffer_
         smoothed_magnitudes_ peak_values_].
    rewrite Ech. split_and!; assumption.
Qed.

(** X24.  The linear band mapping: with [b] the quotient of the number
    of bins by the number of bands, band [i] is the range of bins from
    [i * b] up to but not including [(i + 1) * b], so the bands are
    adjacent, hold [b] bins each and stay within the bins; the bins from
    [num_bands * b] on belong to no band.  With more bands than bins
    every band is empty and its magnitude is zero. *)
Theorem linear_band_mapping sa :
  logarithmic_frequency (analyzer_config_ sa) = false ->
  0 < num_bands (analyzer_config_ sa) < modulus ->
  let bands := num_bands (analyzer_config_ sa) in
  let b := FFT.bin_count (fft_ sa) / bands in
  exists sa',
    Analyzer.recompute_band_mapping P sa = Ok sa' /\
    length (band_bins_ sa') = Z.to_nat bands /\
    (forall i, 0 <= i < bands ->
       nth (Z.to_nat i) (band_bins_ sa') (0, 0) = (i * b, (i + 1) * b) /\
       (i + 1) * b <= FFT.bin_count (fft_ sa)) /\
    (FFT.bin_count (fft_ sa) < bands ->
     forall magnitude_buffer i,
       Analyzer.compute_band_magnitude (band_bins_ sa') magnitude_buffer i = F32.zero).
Proof.
  intros Hl Hnb bands b.
  pose proof (wrap_range (fft_size (config_ (fft_ sa)) / 2 + 1)) as Hbc.
  fold (FFT.bin_count (fft_ sa)) in Hbc. unfold in_range in Hbc.
  assert (Hb : 0 <= b) by (apply Z.div_pos; lia).
  assert (Hbb : bands * b <= FFT.bin_count (fft_ sa))
    by (apply Z.mul_div_le; lia).
  unfold Analyzer.recompute_band_mapping. rewrite Hl.
  destruct (Z.eqb_spec (num_bands (analyzer_config_ sa)) 0) as [E0 | _]; [lia |].
  fold bands. fold b.
  eexists. split; [reflexivity |]. cbn [band_bins_].
  assert (Hb0 : FFT.bin_count (fft_ sa) < bands -> b = 0)
    by (intros Hmore; apply Z.div_small; lia).
  fold bands in Hnb. clearbody b. clearbody bands.
  assert (Hnth : forall i, 0 <= i < bands ->
            nth (Z.to_nat i)
              (map (fun i : nat =>
                      (wrap (Z.of_nat i * b),
                       Z.min (wrap (wrap (Z.of_nat i + 1) * b)) (FFT.bin_count (fft_ sa))))
                   (seq 0 (Z.to_nat bands))) (0, 0) = (i * b, (i + 1) * b) /\
            (i + 1) * b <= FFT.bin_count (fft_ sa)).
  { intros i Hi.
    assert (H1 : (i + 1) * b <= bands * b) by (apply Z.mul_le_mono_nonneg_r; lia).
    assert (H2 : 0 <= i * b) by (apply Z.mul_nonneg_nonneg; lia).
    assert (H3 : i * b <= (i + 1) * b) by (apply Z.mul_le_mono_nonneg_r; lia).
    split; [| lia].
    rewrite nth_lookup, list_lookup_fmap, (lookup_seq_lt 0) by lia.
    cbn [fmap option_fmap option_map default Nat.add]. rewrite Z2Nat.id by lia.
    rewrite (wrap_small (i + 1)) by (unfold in_range; lia).
    rewrite !wrap_small by (unfold in_range; lia).
    unfold id. f_equal. lia. }
  split_and!.
  - rewrite length_map, length_seq. reflexivity.
  - exact Hnth.
  - intros Hmore magnitude_buffer i. specialize (Hb0 Hmore).
    unfold Analyzer.compute_band_magnitude.
    destruct (Nat.lt_ge_cases i (Z.to_nat bands)) as [Hi | Hi].
    + destruct (Hnth (Z.of_nat i) ltac:(lia)) as [En _].
      rewrite Nat2Z.id in En. rewrite En, Hb0, !Z.mul_0_r. reflexivity.
    + rewrite nth_overflow by (rewrite length_map, length_seq; exact Hi). reflexivity.
Qed.

End AnalyzerConfigure.

(** * Part VI: the capture callback and the PortAudio guard *)

(** ** The order of [float] *)

Ltac compare_cases :=
  repeat match goal with
  | H : context [Z.compare ?a ?b] |- _ => destruct (Z.compare_spec a b)
  | |- context [Z.compare ?a ?b] => destruct (Z.compare_spec a b)
  | H : context [Pos.compare_cont Eq ?a ?b] |- _ =>
      change (Pos.compare_cont Eq a b) with (Pos.compare a b) in *;
      destruct (Pos.compare_spec a b)
  | |- context [Pos.compare_cont Eq ?a ?b] =>
      change (Pos.compare_cont Eq a b) with (Pos.compare a b) in *;
      destruct (Pos.compare_spec a b)
  end.

Ltac float_order :=
  unfold F32.ltb, SFltb, SFcompare; intros;
  repeat match goal with x : float |- _ => destruct x as [[] | [] | | [] ? ?] end;
  cbn [CompOpp] in *; try congruence;
  compare_cases; cbn [CompOpp] in *; subst; try congruence; try lia.

Lemma ltb_asym (a b : float) : F32.ltb a b = true -> F32.ltb b a = false.
Proof. revert a b. float_order. Qed.

Lemma ltb_irrefl (a : float) : F32.ltb a a = false.
Proof.
  destruct (F32.ltb a a) eqn:E; [| reflexivity].
  pose proof (ltb_asym a a E). congruence.
Qed.

Lemma ltb_lt_le (a b c : float) :
  F32.ltb a b = true -> F32.ltb c b = false -> c <> S754_nan -> F32.ltb a c = true.
Proof. revert a b c. float_order. Qed.

Lemma ltb_le_lt (a b c : float) :
  F32.ltb a b = false -> a <> S754_nan -> b <> S754_nan ->
  F32.ltb a c = true -> F32.ltb b c = true.
Proof. revert a b c. float_order. Qed.

Lemma ltb_nan_r (a : float) : F32.ltb a S754_nan = false.
Proof. destruct a as [[] | [] | | [] ? ?]; reflexivity. Qed.

(** ** The peak of a batch *)

Lemma peak_fold (acc : float) (l : list float) :
  acc <> S754_nan ->
  let r := foldl (fun peak sample => F32.max peak (F32.abs sample)) acc l in
  r <> S754_nan /\ F32.ltb r acc = false /\
  (forall s, In s l -> F32.ltb r (F32.abs s) = false) /\
  (r = acc \/ exists s, In s l /\ r = F32.abs s).
Proof.
  revert acc. induction l as [| s l IH]; intros acc Hacc; cbn [foldl].
  - split_and!; [exact Hacc | apply ltb_irrefl | intros s [] | left; reflexivity].
  - set (acc' := F32.max acc (F32.abs s)).
    assert (Hacc' : acc' <> S754_nan).
    { unfold acc', F32.max. destruct (F32.ltb acc (F32.abs s)) eqn:E; [| exact Hacc].
      intros Hn. rewrite Hn, ltb_nan_r in E. discriminate. }
    destruct (IH acc' Hacc') as (Hr & Hge & Hall & Hex).
    set (r := foldl _ acc' l) in *.
    assert (Hboth : F32.ltb r acc = false /\ F32.ltb r (F32.abs s) = false).
    { unfold acc', F32.max in Hge. destruct (F32.ltb acc (F32.abs s)) eqn:E.
      - split; [| exact Hge].
        destruct (F32.ltb r acc) eqn:E2; [| reflexivity].
        assert (Hs : F32.abs s <> S754_nan)
          by (intros Hn; rewrite Hn, ltb_nan_r in E; discriminate).
        pose proof (ltb_lt_le r acc (F32.abs s) E2 (ltb_asym _ _ E) Hs) as E3.
        congruence.
      - split; [exact Hge |].
        destruct (F32.ltb r (F32.abs s)) eqn:E2; [| reflexivity].
        pose proof (ltb_le_lt r acc (F32.abs s) Hge Hr Hacc E2). congruence. }
    split_and!; [exact Hr | apply Hboth | |].
    + intros s' [<- | Hin]; [apply Hboth | apply Hall; exact Hin].
    + destruct Hex as [E | (s' & Hin & E)].
      * unfold acc', F32.max in E. destruct (F32.ltb acc (F32.abs s)).
        -- right. exists s. split; [left; reflexivity | exact E].
        -- left. exact E.
      * right. exists s'. split; [right; exact Hin | exact E].
Qed.

Section Callback.
Variable paInputOverflow : Z.

(** X25.  The peak the callback records: [peak_amplitude_] is never
    lowered, after the call no sample of the batch has an absolute value
    above it, and it is what it was, or zero (the start of the scan of
    the batch), or the absolute value of a sample of the batch.  NaN
    samples are passed over: they never become the peak. *)
Theorem process_audio_peak (a : AudioCapture) (samples : list float) (status_flags : Z) :
  let a' := Audio.process_audio paInputOverflow a samples status_flags in
  F32.ltb (peak_amplitude_ a') (peak_amplitude_ a) = false /\
  (forall s, In s samples -> F32.ltb (peak_amplitude_ a') (F32.abs s) = false) /\
  (peak_amplitude_ a' = peak_amplitude_ a \/
   peak_amplitude_ a' = F32.zero \/
   exists s, In s samples /\ peak_amplitude_ a' = F32.abs s /\ F32.abs s <> S754_nan).
Proof.
  intros a'.
  assert (Hp : peak_amplitude_ a' =
               if F32.gtb (Audio.batch_peak samples) (peak_amplitude_ a)
               then Audio.batch_peak samples else peak_amplitude_ a).
  { unfold a', Audio.process_audio.
    destruct (try_push_span F32.zero (ring_buffer_ a) samples). reflexivity. }
  rewrite Hp. clear Hp a'. unfold F32.gtb. fold F32.ltb.
  destruct (peak_fold F32.zero samples ltac:(discriminate)) as (Hn & _ & Hall & Hex).
  fold (Audio.batch_peak samples) in Hn, Hall, Hex.
  set (peak := Audio.batch_peak samples) in *.
  destruct (F32.ltb (peak_amplitude_ a) peak) eqn:E.
  - split_and!; [apply ltb_asym; exact E | exact Hall |].
    destruct Hex as [Hz | (s & Hin & Hs)].
    + right. left. exact Hz.
    + right. right. exists s. split_and!; [exact Hin | exact Hs | rewrite <- Hs; exact Hn].
  - split_and!; [apply ltb_irrefl | | left; reflexivity].
    intros s Hin.
    destruct (F32.ltb (peak_amplitude_ a) (F32.abs s)) eqn:E2; [| reflexivity].
    pose proof (ltb_lt_le _ _ peak E2 (Hall s Hin) Hn). congruence.
Qed.

(** X26.  The bookkeeping of the callback on a well-formed ring
    buffer: the samples that fit are appended to the pending ones in
    order and the rest of the batch is dropped; [frames_captured_]
    counts the whole batch, dropped samples included; [callback_count_]
    goes up by one; [overruns_] goes up by one when the overflow flag is
    set and by one more when samples were dropped; the running flag, the
    configuration and the device name are left alone. *)
Theorem process_audio_accounting (a : AudioCapture) (samples : list float)
    (status_flags : Z) :
  wf (ring_buffer_ a) -> in_range (overruns_ a) ->
  let ring := ring_buffer_ a in
  let n := Z.min (capacity_ ring - size ring) (Z.of_nat (length samples)) in
  let flagged := if Z.land status_flags paInputOverflow =? 0 then 0 else 1 in
  let dropped := if n <? Z.of_nat (length samples) then 1 else 0 in
  let a' := Audio.process_audio paInputOverflow a samples status_flags in
  wf (ring_buffer_ a') /\
  contents F32.zero (ring_buffer_ a') =
    contents F32.zero ring ++ take (Z.to_nat n) samples /\
  capacity_ (ring_buffer_ a') = capacity_ ring /\
  frames_captured_ a' = wrap (frames_captured_ a + Z.of_nat (length samples)) /\
  callback_count_ a' = wrap (callback_count_ a + 1) /\
  overruns_ a' = wrap (overruns_ a + flagged + dropped) /\
  running_ a' = running_ a /\ audio_config_ a' = audio_config_ a /\
  device_name_ a' = device_name_ a.
Proof.
  intros Hwf Ho ring n flagged dropped a'.
  destruct (try_push_span_spec F32.zero ring samples Hwf) as (rb' & E & Hwf' & Hc & _).
  fold n in E, Hc.
  assert (Hcap : capacity_ rb' = capacity_ ring).
  { assert (rb' = snd (try_push_span F32.zero ring samples)) as -> by (rewrite E; reflexivity).
    reflexivity. }
  unfold a', Audio.process_audio. fold ring. rewrite E.
  cbn [ring_buffer_ frames_captured_ callback_count_ overruns_ running_ audio_config_
       device_name_].
  split_and!; try reflexivity; try assumption.
  unfold flagged, dropped.
  destruct (Z.land status_flags paInputOverflow =? 0); cbn [negb];
    destruct (n <? Z.of_nat (length samples));
    rewrite ?wrap_add_l, ?Z.add_0_r; try reflexivity.
  symmetry. apply wrap_small. exact Ho.
Qed.

End Callback.

(** X27.  Starting and stopping the capture.  From a stopped capture,
    [start] throws the error [Pa_StartStream] reports and otherwise
    yields a running capture with the same ring buffer and statistics; a
    second [start] does not reach PortAudio and changes nothing; [stop]
    on the running capture gives back the stopped one, and [stop] on a
    stopped capture changes nothing. *)
Theorem start_stop_cycle (a : AudioCapture) :
  Audio.is_running a = false ->
  (forall text,
     Audio.start (Some text) a =
     Throw (runtime_error (String.append "Failed to start audio stream: " text))) /\
  Audio.stop a = a /\
  exists a',
    Audio.start None a = Ok a' /\ Audio.is_running a' = true /\
    ring_buffer_ a' = ring_buffer_ a /\ Audio.stats a' = Audio.stats a /\
    (forall Pa_StartStream, Audio.start Pa_StartStream a' = Ok a') /\
    Audio.stop a' = a /\ Audio.stop (Audio.stop a') = Audio.stop a'.
Proof.
  unfold Audio.is_running. intros Hr. destruct a as [c d rb r f o cc p].
  cbn [running_] in Hr. subst r.
  split_and!; try reflexivity.
  eexists. split; [reflexivity |]. split_and!; reflexivity.
Qed.

(** ** The PortAudio guard *)

Lemma int_wrap_small x : - 2 ^ 31 <= x < 2 ^ 31 -> int_wrap x = x.
Proof.
  intros H. unfold int_wrap.
  assert (H31 : 2 ^ 31 = 2147483648) by reflexivity.
  assert (H32 : 2 ^ 32 = 4294967296) by reflexivity.
  rewrite Z.mod_small by lia. lia.
Qed.

Lemma guard_step_balanced st e :
  guard_balanced st -> Z.of_nat (snd st) + 1 < 2 ^ 31 ->
  guard_balanced (Guard.step st e) /\ (snd (Guard.step st e) <= S (snd st))%nat.
Proof.
  destruct st as [[count inits terms] alive]. unfold guard_balanced.
  cbn [fst snd ref_count_ initialisations terminations]. intros [Hc Hi] Hb. subst count.
  destruct e as [r |]; cbn [Guard.step].
  - unfold Guard.construct. cbn [ref_count_ initialisations terminations].
    rewrite (int_wrap_small (Z.of_nat alive + 1)) by lia.
    destruct (Z.eqb_spec (Z.of_nat alive) 0) as [E0 | E0].
    + assert (alive = O) by lia. subst alive.
      destruct r as [text |]; cbn [fst snd ref_count_ initialisations terminations].
      * rewrite int_wrap_small by lia. split; [split; [reflexivity | lia] | lia].
      * split; [split; [reflexivity | lia] | lia].
    + cbn [fst snd ref_count_ initialisations terminations].
      destruct alive as [| alive']; [lia |]. split; [split; [lia | lia] | lia].
  - destruct alive as [| alive'].
    + cbn [fst snd ref_count_ initialisations terminations]. split; [split; [reflexivity | lia] | lia].
    + unfold Guard.destroy. cbn [ref_count_ initialisations terminations].
      rewrite (int_wrap_small (Z.of_nat (S alive') - 1)) by lia.
      destruct (Z.eqb_spec (Z.of_nat (S alive')) 1) as [E1 | E1];
        cbn [fst snd ref_count_ initialisations terminations].
      * assert (alive' = O) by lia. subst alive'. split; [split; [reflexivity | lia] | lia].
      * destruct alive' as [| alive'']; [lia |]. split; [split; [lia | lia] | lia].
Qed.

Lemma guard_run_balanced events st :
  guard_balanced st -> Z.of_nat (snd st) + Z.of_nat (length events) < 2 ^ 31 ->
  guard_balanced (foldl Guard.step st events) /\
  (snd (foldl Guard.step st events) <= snd st + length events)%nat.
Proof.
  revert st. induction events as [| e events IH]; intros st Hst Hb; cbn [foldl].
  - split; [exact Hst | lia].
  - cbn [length] in Hb.
    destruct (guard_step_balanced st e Hst ltac:(lia)) as [Hst' Hle].
    destruct (IH (Guard.step st e) Hst' ltac:(lia)) as [Hfin Hle'].
    split; [exact Hfin | cbn [length]; lia].
Qed.

(** X28.  Over any life of fewer than 2^31 constructions and
    destructions of guards, starting with none: [ref_count_] is the
    number of guards alive, and [Pa_Initialize] has succeeded exactly as
    often as [Pa_Terminate] was called, plus once while a guard is
    alive.  Constructions whose [Pa_Initialize] fails are among the
    events: they throw, leave no guard behind and do not disturb the
    balance. *)
Theorem Guard_balances_library (events : list Guard.event) :
  Z.of_nat (length events) < 2 ^ 31 ->
  let lib := fst (Guard.run events) in
  let alive := snd (Guard.run events) in
  ref_count_ lib = Z.of_nat alive /\
  initialisations lib = (terminations lib + if Nat.eqb alive 0 then 0 else 1)%nat /\
  (alive <= length events)%nat.
Proof.
  intros Hlen lib alive.
  destruct (guard_run_balanced events (mkPaLibrary 0 0 0, O)) as [[Hc Hi] Hle].
  - split; reflexivity.
  - cbn [snd]. lia.
  - fold (Guard.run events) in Hc, Hi, Hle. fold lib in Hc, Hi. fold alive in Hc, Hi, Hle.
    split_and!.
    + exact Hc.
    + rewrite Hi. destruct alive; reflexivity.
    + cbn [snd] in Hle. lia.
Qed.

(** ** From the callback to the frame *)

Lemma process_audio_ring flag a samples status_flags :
  ring_buffer_ (Audio.process_audio flag a samples status_flags) =
  snd (try_push_span F32.zero (ring_buffer_ a) samples).
Proof.
  unfold Audio.process_audio.
  destruct (try_push_span F32.zero (ring_buffer_ a) samples). reflexivity.
Qed.

Section Pipeline.
Variable P : Platform.
Variable paInputOverflow : Z.

(** X29.  A callback followed by a frame.  The callback appends the
    part of its batch that fits; if the ring buffer then holds at least
    a quarter of [fft_size], the frame analyses the newest pending
    samples, those of the batch last, and empties the ring buffer.  A
    batch of at least [fft_size] samples that fits the ring buffer
    fills the sample buffer with its last [fft_size] samples. *)
Theorem callback_then_update now sa samples status_flags :
  Analyzer.consistent sa ->
  let ring := ring_buffer_ (audio_ sa) in
  let n := Z.min (capacity_ ring - size ring) (Z.of_nat (length samples)) in
  let pending := contents F32.zero ring ++ take (Z.to_nat n) samples in
  let m := Z.min (size ring + n) (fft_size (config_ (fft_ sa))) in
  fft_size (config_ (fft_ sa)) / 4 <= size ring + n ->
  exists data sa',
    Analyzer.update P now (Analyzer.on_callback paInputOverflow sa samples status_flags)
      = Ok (data, sa') /\
    sample_buffer_ sa' =
      drop (length pending - Z.to_nat m) pending ++ drop (Z.to_nat m) (sample_buffer_ sa) /\
    size (ring_buffer_ (audio_ sa')) = 0 /\
    (fft_size (config_ (fft_ sa)) <= Z.of_nat (length samples) <= capacity_ ring - size ring ->
     sample_buffer_ sa' =
       drop (length samples - Z.to_nat (fft_size (config_ (fft_ sa)))) samples).
Proof.
  intros Hc ring n pending m Hq.
  destruct Hc as (Hready & Hwf & Hsb).
  destruct (try_push_span_spec F32.zero ring samples Hwf) as (rb' & E & Hwf' & Hcont & Hsize).
  fold n in E, Hcont, Hsize. fold pending in Hcont.
  set (sa1 := Analyzer.on_callback paInputOverflow sa samples status_flags).
  assert (Hring : ring_buffer_ (audio_ sa1) = rb').
  { unfold sa1, Analyzer.on_callback. cbn [audio_]. rewrite process_audio_ring.
    fold ring. rewrite E. reflexivity. }
  assert (Hc1 : Analyzer.consistent sa1).
  { split; [exact Hready |]. rewrite Hring. split; [exact Hwf' | exact Hsb]. }
  assert (Hns : ~ Analyzer.starved sa1).
  { unfold Analyzer.starved. rewrite Hring, Hsize.
    change (fft_ sa1) with (fft_ sa). lia. }
  destruct (update_not_starved_spec P now sa1 Hc1 Hns)
    as (data & sa' & Eu & _ & Hs' & _ & _ & Hbuf & _).
  rewrite Hring, Hsize, Hcont in Hbuf.
  change (fft_ sa1) with (fft_ sa) in Hbuf.
  change (sample_buffer_ sa1) with (sample_buffer_ sa) in Hbuf.
  fold m in Hbuf.
  pose proof (size_range ring) as Hr. unfold in_range in Hr.
  destruct Hwf as (k & Hk & Hcap & _ & _ & _ & _ & Hle).
  fold ring in Hcap, Hle.
  destruct Hready as ((fd & _ & _ & Hn & _) & _).
  assert (Hn0 : 0 <= n) by (unfold n; lia).
  assert (Hpl : length pending = Z.to_nat (size ring + n)).
  { unfold pending. rewrite length_app, length_contents, length_take.
    unfold n in *. lia. }
  assert (Hidx : Z.to_nat (size ring + n - m) = (length pending - Z.to_nat m)%nat).
  { rewrite Hpl. unfold m. lia. }
  rewrite Hidx in Hbuf.
  exists data, sa'. split_and!; [exact Eu | exact Hbuf | exact Hs' |].
  intros [Hlong Hfits].
  assert (En : n = Z.of_nat (length samples)) by (unfold n; lia).
  assert (Em : m = fft_size (config_ (fft_ sa))) by (unfold m; lia).
  rewrite Hbuf. rewrite Em in *.
  rewrite (drop_ge (sample_buffer_ sa)) by lia. rewrite app_nil_r.
  unfold pending. rewrite En, Nat2Z.id, firstn_all.
  rewrite drop_app_ge by (rewrite length_contents; rewrite length_app, length_contents; lia).
  f_equal. rewrite length_app, !length_contents. lia.
Qed.

End Pipeline.

(** * Part VII: the properties of parts IV to VI on instances *)

Lemma six_not_power_of_two : ~ is_power_of_two 6.
Proof.
  intros (k & Hk & E). destruct (Z.le_gt_cases k 2) as [Hs | Hl].
  - assert (Hc : k = 0 \/ k = 1 \/ k = 2) by lia.
    destruct Hc as [-> | [-> | ->]]; discriminate.
  - pose proof (Z.pow_le_mono_r 2 3 k ltac:(lia) ltac:(lia)) as Hp.
    change (2 ^ 3) with 8 in Hp. lia.
Qed.

Lemma small_ring_wf (w : Z) : 0 <= w <= 4 ->
  wf (mkRingBuffer 4 3 (replicate 4 F32.zero) w 0).
Proof.
  intros Hw. exists 2. unfold size, in_range. cbn [capacity_ mask_ buffer_ write_pos_ read_pos_].
  rewrite Z.sub_0_r, modulus_eq.
  assert (E : wrap w = w) by (apply wrap_small; unfold in_range; rewrite modulus_eq; lia).
  rewrite E. cbn. lia.
Qed.

Lemma after_loud_frame_consistent : Analyzer.consistent after_loud_frame.
Proof.
  split; [exact after_loud_frame_ready |]. split; [| reflexivity].
  apply (small_ring_wf 4). lia.
Qed.

Lemma just_constructed_consistent : Analyzer.consistent just_constructed.
Proof.
  split; [| split; [apply (small_ring_wf 0); lia | reflexivity]].
  destruct after_loud_frame_ready as (Hf & Hm & _).
  split_and!; [exact Hf | exact Hm | reflexivity | reflexivity].
Qed.

Lemma small_transform_new :
  Analyzer.new silence_platform (mkAudioConfig 8 4 1 F32.half)
    (mkFFTConfig 2 Rectangular false (F32.of_Z (-80)) F32.zero) slow_smoothing
  = Ok small_transform.
Proof. vm_compute. reflexivity. Qed.

Lemma small_transform_consistent : Analyzer.consistent small_transform.
Proof.
  split; [| split; [apply (small_ring_wf 0); lia | reflexivity]].
  unfold Analyzer.ready, FFT.ready. split_and!.
  - eexists. split_and!; try reflexivity; cbn; rewrite ?modulus_eq; lia.
  - vm_compute. discriminate.
  - reflexivity.
  - reflexivity.
Qed.

Lemma small_transform_not_starved : ~ Analyzer.starved small_transform.
Proof. vm_compute. discriminate. Qed.

Lemma FFT_new_rejects_non_power_of_two_witness :
  FFT.new silence_platform (mkFFTConfig 6 Rectangular false (F32.of_Z (-80)) F32.zero)
  = Throw (invalid_argument "FFT size must be a power of two").
Proof.
  apply (FFT_new_rejects_non_power_of_two silence_platform).
  - cbn. rewrite modulus_eq. lia.
  - exact six_not_power_of_two.
Defined.

Lemma frequency_to_bin_in_range_witness :
  0 <= FFT.frequency_to_bin silence_platform (fft_ after_loud_frame)
         (F32.of_Z 440) (F32.of_Z 44100) < 3.
Proof.
  apply (frequency_to_bin_in_range silence_platform (fft_ after_loud_frame)).
  cbn. rewrite modulus_eq. lia.
Defined.

Lemma FFT_new_outcomes_witness :
  exists fp,
    FFT.new silence_platform (mkFFTConfig 4 Rectangular false (F32.of_Z (-80)) F32.zero)
    = Ok fp /\ FFT.ready fp /\ window_ fp = replicate 4 F32.one.
Proof.
  destruct (FFT_new_outcomes silence_platform
              (mkFFTConfig 4 Rectangular false (F32.of_Z (-80)) F32.zero))
    as (_ & _ & H).
  - exists 2. split; [lia | reflexivity].
  - cbn. lia.
  - destruct (H eq_refl eq_refl) as (fp & data & E & Hr & _ & _ & _ & Hw).
    exists fp. split_and!; [exact E | exact Hr | exact (Hw eq_refl)].
Defined.

Lemma compute_keeps_ready_witness :
  exists out' fp',
    FFT.compute silence_platform (fft_ after_loud_frame) [F32.one; F32.two]
                (replicate 3 F32.zero) = Ok (3, out', fp') /\
    FFT.ready fp'.
Proof.
  destruct (compute_keeps_ready silence_platform (fft_ after_loud_frame)
              [F32.one; F32.two] (replicate 3 F32.zero))
    as (out' & fp' & E & Hr & _).
  - exact (proj1 after_loud_frame_ready).
  - vm_compute. discriminate.
  - vm_compute. reflexivity.
  - exists out', fp'. split; [exact E | exact Hr].
Defined.

Lemma compute_window_overwrites_witness :
  window_ (FFT.compute_window silence_platform (fft_ after_loud_frame)) =
  window_ (FFT.compute_window silence_platform
             (mkFFTProcessor (config_ (fft_ after_loud_frame)) None (replicate 4 F32.zero))).
Proof.
  apply (compute_window_overwrites silence_platform); reflexivity.
Defined.

Lemma set_config_same_size_witness :
  exists fp',
    FFT.set_config silence_platform (fft_ after_loud_frame)
      (mkFFTConfig 4 Hann true (F32.of_Z (-80)) F32.zero) = Ok fp' /\
    FFT.ready fp'.
Proof.
  destruct (set_config_same_size silence_platform (fft_ after_loud_frame)
              (mkFFTConfig 4 Hann true (F32.of_Z (-80)) F32.zero))
    as (fp' & E & _ & _ & _ & Hr).
  - exact (proj1 after_loud_frame_ready).
  - reflexivity.
  - exists fp'. split; [exact E | exact Hr].
Defined.

(** A size that the constructor would refuse is installed by
    [set_config]. *)
Lemma set_config_skips_size_check_witness :
  exists fp',
    FFT.set_config silence_platform (fft_ after_loud_frame)
      (mkFFTConfig 6 Rectangular false (F32.of_Z (-80)) F32.zero) = Ok fp' /\
    fft_size (config_ fp') = 6 /\ FFT.ready fp'.
Proof.
  destruct (set_config_skips_size_check silence_platform (fft_ after_loud_frame)
              (mkFFTConfig 6 Rectangular false (F32.of_Z (-80)) F32.zero)) as [_ H].
  destruct H as (fp' & E & Hc & Hr);
    [vm_compute; discriminate | cbn; lia | reflexivity | reflexivity | reflexivity |].
  exists fp'. split_and!; [exact E | rewrite Hc; reflexivity | exact Hr].
Defined.

Lemma update_takes_most_recent_witness :
  exists data sa',
    Analyzer.update silence_platform 0 after_loud_frame = Ok (data, sa') /\
    length (sample_buffer_ sa') = 4%nat /\
    size (ring_buffer_ (audio_ sa')) = 0.
Proof.
  destruct (update_takes_most_recent silence_platform 0 after_loud_frame
              after_loud_frame_consistent after_loud_frame_not_starved)
    as (data & sa' & E & _ & Hl & Hs & _).
  exists data, sa'. split_and!; [exact E | exact Hl | exact Hs].
Defined.

Lemma update_keeps_consistent_witness :
  exists data sa',
    Analyzer.update silence_platform 0 after_loud_frame = Ok (data, sa') /\
    Analyzer.consistent sa'.
Proof.
  destruct (update_keeps_consistent silence_platform 0 after_loud_frame
              after_loud_frame_consistent)
    as (data & sa' & E & Hc & _).
  exists data, sa'. split; [exact E | exact Hc].
Defined.

Lemma update_empty_buffer_rms_nan_witness :
  exists data sa',
    Analyzer.update silence_platform 0 small_transform = Ok (data, sa') /\
    rms_level data = S754_nan.
Proof.
  destruct (update_empty_buffer_rms_nan silence_platform 0 small_transform
              small_transform_consistent small_transform_not_starved eq_refl)
    as (_ & data & sa' & E & Hr & _).
  exists data, sa'. split; [exact E | exact Hr].
Defined.

Lemma update_repeats_without_new_samples_witness :
  exists data sa',
    Analyzer.update silence_platform 0 after_loud_frame = Ok (data, sa') /\
    Analyzer.update silence_platform 1 sa' =
      Ok (mkSpectrumData (magnitudes data) (peaks data) F32.zero F32.zero 1, sa').
Proof.
  apply (update_repeats_without_new_samples silence_platform 0 1 after_loud_frame
           after_loud_frame_consistent after_loud_frame_not_starved).
  cbn. lia.
Defined.

Lemma Analyzer_new_establishes_invariant_witness :
  Analyzer.consistent just_constructed /\
  Audio.is_running (audio_ just_constructed) = false.
Proof.
  destruct (Analyzer_new_establishes_invariant silence_platform _ _ _ _ just_constructed_new)
    as (Hc & Hr & _).
  - cbn. lia.
  - split; [exact Hc | exact Hr].
Defined.

Lemma set_config_keeps_consistent_witness :
  exists sa',
    Analyzer.set_config silence_platform after_loud_frame
      (mkAnalyzerConfig 3 (F32.of_Z 20) (F32.of_Z 20000) F32.half F32.half false) = Ok sa' /\
    Analyzer.consistent sa' /\
    smoothed_magnitudes_ sa' = [F32.one; F32.zero; F32.zero].
Proof.
  destruct (set_config_keeps_consistent silence_platform after_loud_frame
              (mkAnalyzerConfig 3 (F32.of_Z 20) (F32.of_Z 20000) F32.half F32.half false)
              after_loud_frame_consistent)
    as (sa' & E & Hc & _ & _ & _ & _ & _ & Hs & _).
  - right. cbn. lia.
  - exists sa'. split_and!; [exact E | exact Hc | rewrite Hs; reflexivity].
Defined.

(** Three linear bands over the three bins of a transform of four
    samples: one bin each. *)
Lemma linear_band_mapping_witness :
  exists sa',
    Analyzer.recompute_band_mapping silence_platform
      (mkSpectrumAnalyzer (audio_ after_loud_frame) (fft_ after_loud_frame)
         (mkAnalyzerConfig 3 (F32.of_Z 20) (F32.of_Z 20000) F32.half F32.half false)
         [] [] [] [] []) = Ok sa' /\
    nth 1 (band_bins_ sa') (0, 0) = (1, 2).
Proof.
  destruct (linear_band_mapping silence_platform
              (mkSpectrumAnalyzer (audio_ after_loud_frame) (fft_ after_loud_frame)
                 (mkAnalyzerConfig 3 (F32.of_Z 20) (F32.of_Z 20000) F32.half F32.half false)
                 [] [] [] [] []) eq_refl)
    as (sa' & E & _ & Hn & _).
  - cbn. rewrite modulus_eq. lia.
  - exists sa'. split; [exact E |].
    destruct (Hn 1) as [H1 _]; [cbn; lia |]. exact H1.
Defined.

(** Five samples offered to an empty ring buffer of four. *)
Lemma process_audio_accounting_witness :
  let a' := Audio.process_audio 2 (audio_ just_constructed)
              [F32.one; F32.one; F32.one; F32.one; F32.two] 0 in
  contents F32.zero (ring_buffer_ a') = [F32.one; F32.one; F32.one; F32.one] /\
  frames_captured_ a' = 5 /\ overruns_ a' = 1.
Proof.
  destruct (process_audio_accounting 2 (audio_ just_constructed)
              [F32.one; F32.one; F32.one; F32.one; F32.two] 0)
    as (_ & Hc & _ & Hf & _ & Ho & _).
  - apply (small_ring_wf 0). lia.
  - vm_compute. split; [discriminate | reflexivity].
  - cbv zeta. split_and!; [rewrite Hc | rewrite Hf | rewrite Ho]; vm_compute; reflexivity.
Defined.

Lemma start_stop_cycle_witness :
  Audio.stop (audio_ just_constructed) = audio_ just_constructed /\
  exists a',
    Audio.start None (audio_ just_constructed) = Ok a' /\
    Audio.stop a' = audio_ just_constructed.
Proof.
  destruct (start_stop_cycle (audio_ just_constructed) eq_refl)
    as (_ & Hs & a' & E & _ & _ & _ & _ & Hb & _).
  split; [exact Hs |]. exists a'. split; [exact E | exact Hb].
Defined.

(** A failed construction, two guards, one destruction. *)
Lemma Guard_balances_library_witness :
  let lib :=
    fst (Guard.run [Guard.Construct (Some "no device"%string); Guard.Construct None;
                    Guard.Construct None; Guard.Destroy]) in
  ref_count_ lib = 1 /\ initialisations lib = (terminations lib + 1)%nat.
Proof.
  destruct (Guard_balances_library
              [Guard.Construct (Some "no device"%string); Guard.Construct None;
               Guard.Construct None; Guard.Destroy]) as (Hc & Hi & _).
  - cbn. lia.
  - cbv zeta. split; [rewrite Hc | rewrite Hi]; vm_compute; reflexivity.
Defined.

(** Four samples delivered to the analyzer right after construction. *)
Lemma callback_then_update_witness :
  exists data sa',
    Analyzer.update silence_platform 0
      (Analyzer.on_callback 2 just_constructed [F32.one; F32.two; F32.one; F32.two] 0)
      = Ok (data, sa') /\
    sample_buffer_ sa' = [F32.one; F32.two; F32.one; F32.two].
Proof.
  destruct (callback_then_update silence_platform 2 0 just_constructed
              [F32.one; F32.two; F32.one; F32.two] 0 just_constructed_consistent)
    as (data & sa' & E & _ & _ & Hb).
  - vm_compute. discriminate.
  - exists data, sa'. split; [exact E |]. rewrite Hb; [reflexivity |].
    vm_compute. split; discriminate.
Defined.
